(** * srtmerger: a shallow embedding of [main.py] and its properties

    The development follows [main.py] top to bottom: the color table and
    [normalize_color], then the methods of class [Merger]
    ([_insert_bom], [_set_subtitle_style], [_put_subtitle_top],
    [_split_dialogs], [_encode], [add], [get_output_path], [merge]), and
    then [MergeWorker.run], the caller of [add] and [merge] in [qt.py] and
    [ui.py].

    Modelling conventions.
    - Python [str] values are [string]s, that is sequences of code points
      below 256; [bytes] values are [list byte].
    - A Python dict keyed by start-time is a [gmap Z string].
    - The start-time key, in the source the float returned by
      [datetime.timestamp()] for a time of day on 1900-01-01, is the number
      of microseconds since midnight: on a system where [timestamp()]
      accepts that date the float is a strictly increasing function of that
      integer (two times one microsecond apart are more than two units in
      the last place apart), so equality and order of keys agree.
    - Exceptions are values of [exn]; a call returns an [outcome].
    - The files are a [gmap] from files to their bytes; a path names the
      file that the platform resolves it to, so that two paths of one file
      read and write the same bytes.
    - [int()] refuses a text with more digits than the limit of the
      interpreter; the limit is a parameter of the platform.
    - [print] output is not modelled.
    - The signals of the worker thread are the list of the signals emitted,
      in order. *)

From Stdlib Require Import ZArith List Ascii String Strings.Byte DecimalString DecimalNat Lia Bool.
From stdpp Require Import base option list sorting gmap strings.

Local Open Scope Z_scope.

(** ** Python text primitives *)

Module Py.

(** Exceptions raised by the modelled code and by the runtime calls it makes. *)
Inductive exn :=
  | IndexError | ValueError | AttributeError | LookupError
  | UnicodeEncodeError | UnicodeDecodeError | OSError.

Inductive outcome (A : Type) :=
  | Ok (a : A)
  | Raise (e : exn).
Arguments Ok {A} a.
Arguments Raise {A} e.

(** The name of the class of an exception. *)
Definition class_name (e : exn) : string :=
  match e with
  | IndexError => "IndexError"
  | ValueError => "ValueError"
  | AttributeError => "AttributeError"
  | LookupError => "LookupError"
  | UnicodeEncodeError => "UnicodeEncodeError"
  | UnicodeDecodeError => "UnicodeDecodeError"
  | OSError => "OSError"
  end.

Definition bind {A B} (c : outcome A) (k : A -> outcome B) : outcome B :=
  match c with
  | Ok a => k a
  | Raise e => Raise e
  end.

Definition bytes := list byte.

#[global] Instance byte_eq_dec : EqDecision byte := Byte.byte_eq_dec.

Definition chr (n : nat) : ascii := ascii_of_nat n.
Definition LF : ascii := chr 10.
Definition CR : ascii := chr 13.
Definition nl : string := String LF "".
Definition crlf : string := String CR (String LF "").

(** [str.isspace] on one code point below 256; also the class [\s] of [re]
    on [str] patterns. *)
Definition isspace (c : ascii) : bool :=
  let n := nat_of_ascii c in
  ((9 <=? n) && (n <=? 13) || (28 <=? n) && (n <=? 32)
   || (n =? 133) || (n =? 160))%nat.

(** [[0-9]], and [\d] restricted to code points below 256. *)
Definition digit (c : ascii) : option Z :=
  let n := nat_of_ascii c in
  if ((48 <=? n) && (n <=? 57))%nat then Some (Z.of_nat n - 48) else None.

(** [str.upper] on ASCII letters; other code points are left as they are. *)
Definition upper_char (c : ascii) : ascii :=
  let n := nat_of_ascii c in
  if ((97 <=? n) && (n <=? 122))%nat then ascii_of_nat (n - 32) else c.

Fixpoint upper (s : string) : string :=
  match s with
  | EmptyString => EmptyString
  | String c r => String (upper_char c) (upper r)
  end.

Definition startswith (s p : string) : bool := String.prefix p s.

Fixpoint drop (n : nat) (s : string) : string :=
  match n, s with
  | O, _ => s
  | S _, EmptyString => EmptyString
  | S k, String _ r => drop k r
  end.

Definition endswith (s p : string) : bool :=
  (String.length p <=? String.length s)%nat
  && String.eqb (drop (String.length s - String.length p) s) p.

Fixpoint lstrip (s : string) : string :=
  match s with
  | EmptyString => EmptyString
  | String c r => if isspace c then lstrip r else s
  end.

Fixpoint rstrip (s : string) : string :=
  match s with
  | EmptyString => EmptyString
  | String c r =>
      match rstrip r with
      | EmptyString => if isspace c then EmptyString else String c EmptyString
      | r' => String c r'
      end
  end.

Definition strip (s : string) : string := lstrip (rstrip s).

(** [s.replace(old, new)] and [s.replace(old, new, count)] for a non-empty
    [old]: occurrences are replaced left to right without overlap.  [skip]
    counts the characters of a replaced occurrence still to be passed. *)
Fixpoint replace_from (old new : string) (count : option nat) (skip : nat)
    (s : string) : string :=
  match s with
  | EmptyString => EmptyString
  | String c r =>
      match skip with
      | S k => replace_from old new count k r
      | O =>
          let hit := String.prefix old s in
          match hit, count with
          | true, None =>
              new +:+ replace_from old new None (String.length old - 1) r
          | true, Some (S n) =>
              new +:+ replace_from old new (Some n) (String.length old - 1) r
          | _, _ => String c (replace_from old new count O r)
          end
      end
  end.

Definition replace (s old new : string) (count : option nat) : string :=
  replace_from old new count O s.

(** [s.split(sep)] and [s.split(sep, maxsplit)] for a one-character [sep]. *)
Fixpoint split_chr (sep : ascii) (maxsplit : option nat) (s : string)
    : list string :=
  match s with
  | EmptyString => [EmptyString]
  | String c r =>
      let cut :=
        Ascii.eqb c sep
        && match maxsplit with Some O => false | _ => true end in
      if cut then
        EmptyString :: split_chr sep (pred <$> maxsplit) r
      else
        match split_chr sep maxsplit r with
        | h :: t => String c h :: t
        | [] => [String c EmptyString]
        end
  end.

(** [s.split(sep)[0]] for a non-empty [sep] of any length: the text before
    the first occurrence of [sep], or all of [s]. *)
Fixpoint before (sep : string) (s : string) : string :=
  match s with
  | EmptyString => EmptyString
  | String c r => if String.prefix sep s then EmptyString
                  else String c (before sep r)
  end.

(** [c in s] for one character. *)
Fixpoint contains_chr (c : ascii) (s : string) : bool :=
  match s with
  | EmptyString => false
  | String a r => Ascii.eqb a c || contains_chr c r
  end.

(** [all(p(c) for c in s)]. *)
Fixpoint all_chars (p : ascii -> bool) (s : string) : bool :=
  match s with
  | EmptyString => true
  | String a r => p a && all_chars p r
  end.

(** [str(n)] for a natural number. *)
Definition str (n : nat) : string := NilZero.string_of_uint (Nat.to_uint n).

(** [b.endswith(p)] on bytes. *)
Definition bytes_endswith (b p : bytes) : bool :=
  bool_decide (List.skipn (length b - length p) b = p)
  && (length p <=? length b)%nat.

(** [re.split('\r\n\r|\n\n', data)]: the text is cut at every occurrence,
    found left to right and without overlap, of CR LF CR or of LF LF.  The
    two alternatives start with different characters, so at most one of them
    matches at a position. *)
Definition sep_crlfcr : string := String CR (String LF (String CR "")).
Definition sep_lflf : string := String LF (String LF "").

Fixpoint re_split_blank (skip : nat) (s : string) : list string :=
  match s with
  | EmptyString => [EmptyString]
  | String c r =>
      match skip with
      | S k => re_split_blank k r
      | O =>
          if String.prefix sep_crlfcr s then EmptyString :: re_split_blank 2 r
          else if String.prefix sep_lflf s then EmptyString :: re_split_blank 1 r
          else
            match re_split_blank O r with
            | h :: t => String c h :: t
            | [] => [String c EmptyString]
            end
      end
  end.

(** One or two decimal digits, as many as there are: the numeric fields of
    [strptime]. *)
Definition two_digits (s : string) : option (Z * string) :=
  match s with
  | String a r =>
      match digit a with
      | None => None
      | Some x =>
          match r with
          | String b r' =>
              match digit b with
              | Some y => Some (10 * x + y, r')
              | None => Some (x, r)
              end
          | EmptyString => Some (x, r)
          end
      end
  | EmptyString => None
  end.

Definition expect (c : ascii) (s : string) : option string :=
  match s with
  | String a r => if Ascii.eqb a c then Some r else None
  | EmptyString => None
  end.

(** The [%f] field: one to six digits up to the end of the text, padded on
    the right with zeros to six digits. *)
Fixpoint fraction (room : nat) (acc : Z) (s : string) : option Z :=
  match s with
  | EmptyString => Some (acc * 10 ^ Z.of_nat room)
  | String a r =>
      match room, digit a with
      | S k, Some x => fraction k (10 * acc + x) r
      | _, _ => None
      end
  end.

(** [datetime.datetime.strptime(s, '%H:%M:%S,%f').timestamp()], as the
    number of microseconds since midnight; [None] stands for the
    [ValueError] of a text that does not match, or whose hour, minute or
    second is out of range. *)
Definition strptime_key (s : string) : option Z :=
  '(h, s1) ← two_digits s;
  s2 ← expect ":" s1;
  '(m, s3) ← two_digits s2;
  s4 ← expect ":" s3;
  '(sec, s5) ← two_digits s4;
  s6 ← expect "," s5;
  match s6 with
  | EmptyString => None
  | _ =>
      us ← fraction 6 0 s6;
      if (h <=? 23) && (m <=? 59) && (sec <=? 59)
      then Some (((h * 60 + m) * 60 + sec) * 1000000 + us)
      else None
  end.

End Py.

Import Py.

(** ** The runtime the program runs on *)

(** What [main.py] takes from the interpreter and the operating system:
    - the byte order of the machine ([codecs.BOM] and [codecs.BOM_UTF32]
      are the native-order marks);
    - the codec registry behind [bytes(text, encoding=codec)],
      [text.encode(codec)] and [raw.decode(codec)];
    - the file a path names, that is what [open] resolves the path to
      (two paths, such as [en.srt] and [./en.srt], may name one file), and
      whether [open(path, 'w')] succeeds;
    - the limit [sys.get_int_max_str_digits()] on the number of digits
      that [int()] accepts: [None] when there is none (the limit 0, or an
      interpreter without the check), [Some k] for the limit [640 + k];
      CPython refuses to set a limit between 1 and 639, and its default
      is 4300. *)
Record platform := {
  little_endian : bool;
  str_encode : string -> string -> outcome bytes;
  bytes_decode : bytes -> string -> outcome string;
  resolve : string -> string;
  creatable : string -> bool;
  int_str_limit : option nat
}.

(** ** Module-level constants and [normalize_color] *)

(** The dict [COLORS]. *)
Definition COLORS : gmap string string :=
  list_to_map
    [("RED", "#FF003B"); ("BLUE", "#00ADFF"); ("GREEN", "#B4FF00");
     ("WHITE", "#FFFFFF"); ("YELLOW", "#FFEB00"); ("CYAN", "#00FFFF");
     ("MAGENTA", "#FF00FF"); ("ORANGE", "#FFA500"); ("PURPLE", "#800080");
     ("PINK", "#FFC0CB")].

(** [COLORS['WHITE']]; the lookup cannot fail, the key is in the table. *)
Definition WHITE : string := default "" (COLORS !! "WHITE").

(** [[0-9A-F]]. *)
Definition is_hex_upper (c : ascii) : bool :=
  let n := nat_of_ascii c in
  ((48 <=? n) && (n <=? 57) || (65 <=? n) && (n <=? 70))%nat.

(** [[0-9A-F]{6}$]. *)
Fixpoint hex_run (n : nat) (s : string) : bool :=
  match n, s with
  | O, EmptyString => true
  | S k, String c r => is_hex_upper c && hex_run k r
  | _, _ => false
  end.

(** [\d+]: the digits at the start of [s], and what follows them. *)
Fixpoint more_digits (s : string) : string * string :=
  match s with
  | String c r =>
      match digit c with
      | Some _ => let '(ds, rest) := more_digits r in (String c ds, rest)
      | None => (EmptyString, s)
      end
  | EmptyString => (EmptyString, s)
  end.

Definition digits1 (s : string) : option (string * string) :=
  match more_digits s with
  | (EmptyString, _) => None
  | (ds, rest) => Some (ds, rest)
  end.

(** [^\((\d+),\s*(\d+),\s*(\d+)\)$]: the three groups of a match. *)
Definition rgb_match (s : string) : option (string * string * string) :=
  s1 ← expect "(" s;
  '(r, s2) ← digits1 s1;
  s3 ← expect "," s2;
  '(g, s4) ← digits1 (lstrip s3);
  s5 ← expect "," s4;
  '(b, s6) ← digits1 (lstrip s5);
  s7 ← expect ")" s6;
  match s7 with
  | EmptyString => Some (r, g, b)
  | _ => None
  end.

(** [int(ds)] for a text of decimal digits: its value, or the
    [ValueError] of [int] when the text has more digits than the limit of
    the interpreter allows (leading zeros count). *)
Fixpoint digits_value (acc : Z) (ds : string) : Z :=
  match ds with
  | String c r => digits_value (10 * acc + default 0 (digit c)) r
  | EmptyString => acc
  end.

Definition over_int_limit (P : platform) (digits : nat) : bool :=
  match int_str_limit P with
  | Some k => (640 + k <? digits)%nat
  | None => false
  end.

Definition int_of_digits (P : platform) (ds : string) : outcome Z :=
  if over_int_limit P (String.length ds) then Raise ValueError
  else Ok (digits_value 0 ds).

Definition hex_digit_upper (n : Z) : ascii :=
  if n <? 10 then ascii_of_nat (48 + Z.to_nat n)
  else ascii_of_nat (55 + Z.to_nat n).

(** [f'{n:02x}'.upper()] for [0 <= n <= 255]. *)
Definition hex2 (n : Z) : string :=
  String (hex_digit_upper (n / 16)) (String (hex_digit_upper (n mod 16)) "").

(** [normalize_color].  The three groups of an RGB token go through
    [int], in order, before the range test. *)
Definition normalize_color (P : platform) (color : option string)
    : outcome (option string) :=
  match color with
  | None => Ok None
  | Some EmptyString => Ok None
  | Some color =>
      let color := upper (strip color) in
      match COLORS !! color with
      | Some hex => Ok (Some hex)
      | None =>
          if startswith color "#" && hex_run 6 (drop 1 color)
          then Ok (Some color)
          else if hex_run 6 color then Ok (Some ("#" +:+ color))
          else
            match rgb_match color with
            | Some (r, g, b) =>
                bind (int_of_digits P r) (fun r =>
                bind (int_of_digits P g) (fun g =>
                bind (int_of_digits P b) (fun b =>
                if (r <=? 255) && (g <=? 255) && (b <=? 255)
                then Ok (Some ("#" +:+ hex2 r +:+ hex2 g +:+ hex2 b))
                else Ok (Some WHITE))))
            | None => Ok (Some WHITE)
            end
      end
  end.

(** ** The constants of [codecs] *)

Definition BOM_UTF8 : bytes := [xef; xbb; xbf].
Definition BOM_UTF16_LE : bytes := [xff; xfe].
Definition BOM_UTF16_BE : bytes := [xfe; xff].
Definition BOM_UTF32_LE : bytes := [xff; xfe; x00; x00].
Definition BOM_UTF32_BE : bytes := [x00; x00; xfe; xff].
Definition BOM (P : platform) : bytes :=
  if little_endian P then BOM_UTF16_LE else BOM_UTF16_BE.
Definition BOM_UTF32 (P : platform) : bytes :=
  if little_endian P then BOM_UTF32_LE else BOM_UTF32_BE.

(** ** Class [Merger] *)

(** The dict built by [add] for one source. *)
Record subtitle := {
  sub_address : string;
  sub_codec : string;
  sub_color : option string;
  sub_size : option Z;
  sub_dialogs : gmap Z string;
  sub_data : string;
  sub_raw_dialogs : list string
}.

Definition set_dialogs (f : gmap Z string -> gmap Z string) (sub : subtitle)
    : subtitle :=
  {| sub_address := sub_address sub; sub_codec := sub_codec sub;
     sub_color := sub_color sub; sub_size := sub_size sub;
     sub_dialogs := f (sub_dialogs sub); sub_data := sub_data sub;
     sub_raw_dialogs := sub_raw_dialogs sub |}.

(** The attributes of a [Merger] object. *)
Record Merger := {
  timestamps : list Z;
  subtitles : list subtitle;
  lines : list bytes;
  output_path : string;
  output_name : string;
  output_encoding : string;
  font_sizes : list Z
}.

(** [Merger.__init__]. *)
Definition init (output_path output_name output_encoding : string) : Merger :=
  {| timestamps := []; subtitles := []; lines := [];
     output_path := output_path; output_name := output_name;
     output_encoding := output_encoding; font_sizes := [] |}.

(** [Merger()] with the default arguments of [__init__]. *)
Definition init_default : Merger := init "." "subtitle_name.srt" "utf-8".

(** The encoding name as [_insert_bom] compares it. *)
Definition bom_key (encoding : string) : string :=
  upper (replace (replace (replace encoding "-" "" None) "_" "" None)
           " " "" None).

Definition one_of (s : string) (l : list string) : bool :=
  bool_decide (s ∈ l).

(** [Merger._insert_bom].  Module [codecs] has no attribute [BOM_UTF64_BE]:
    reading it raises [AttributeError]. *)
Definition _insert_bom (P : platform) (content : bytes) (encoding : string)
    : outcome bytes :=
  let encoding := bom_key encoding in
  if one_of encoding ["UTF64LE"; "UTF16"; "UTF16LE"] then
    Ok (BOM P ++ content)
  else if one_of encoding ["UTF8"] then Ok (BOM_UTF8 ++ content)
  else if one_of encoding ["UTF32LE"] then Ok (BOM_UTF32_LE ++ content)
  else if one_of encoding ["UTF64BE"] then Raise AttributeError
  else if one_of encoding ["UTF16BE"] then Ok (BOM_UTF32_BE ++ content)
  else if one_of encoding ["UTF32BE"] then Ok (BOM_UTF32_BE ++ content)
  else if one_of encoding ["UTF32"] then Ok (BOM_UTF32 P ++ content)
  else Ok content.

(** Python truth of the optional arguments: a [str] is true when it is not
    empty, an [int] when it is not zero, [None] is false. *)
Definition truthy_str (o : option string) : bool :=
  match o with
  | Some (String _ _) => true
  | _ => false
  end.

Definition truthy_int (o : option Z) : bool :=
  match o with
  | Some n => negb (n =? 0)
  | None => false
  end.

(** [f'{color}'] and [f'{size}'] for arguments that passed the truth test. *)
Definition fmt_str (o : option string) : string := default "" o.
Definition fmt_int (o : option Z) : string :=
  match o with
  | Some n => NilZero.string_of_int (Z.to_int n)
  | None => "None"
  end.

Definition dquote : string := String (chr 34) "".

(** [(.*?)</font>]: the shortest run of characters other than LF that is
    followed by the closing tag; the result is that run and the text after
    the closing tag. *)
Fixpoint until_close (s : string) : option (string * string) :=
  if String.prefix "</font>" s then Some (EmptyString, drop 7 s)
  else
    match s with
    | EmptyString => None
    | String c r =>
        if Ascii.eqb c LF then None
        else '(g, rest) ← until_close r; Some (String c g, rest)
    end.

(** [[^>]*>]: the text after the first [>]. *)
Fixpoint after_gt (s : string) : option string :=
  match s with
  | EmptyString => None
  | String c r => if Ascii.eqb c ">" then Some r else after_gt r
  end.

(** [re.sub(r'<font[^>]*>(.*?)</font>', r'\1', s)]: every match, found left
    to right and without overlap, is replaced by its group.  [skip] counts
    the characters of a match still to be passed. *)
Fixpoint sub_font (skip : nat) (s : string) : string :=
  match s with
  | EmptyString => EmptyString
  | String c r =>
      match skip with
      | S k => sub_font k r
      | O =>
          match
            (if String.prefix "<font" s then after_gt (drop 5 s) ≫= until_close
             else None)
          with
          | Some (g, rest) =>
              g +:+ sub_font (String.length r - String.length rest) r
          | None => String c (sub_font O r)
          end
      end
  end.

(** [' '.join(style_attrs)]. *)
Fixpoint join_space (l : list string) : string :=
  match l with
  | [] => EmptyString
  | [x] => x
  | x :: r => x +:+ " " +:+ join_space r
  end.

(** [Merger._set_subtitle_style]. *)
Definition _set_subtitle_style (P : platform) (subtitle : string)
    (color : option string) (size : option Z) : outcome string :=
  let subtitle := sub_font O subtitle in
  bind (normalize_color P color) (fun color =>
  let style_attrs :=
    (if truthy_str color
     then ["color=" +:+ dquote +:+ fmt_str color +:+ dquote] else [])
    ++ (if truthy_int size
        then ["size=" +:+ dquote +:+ fmt_int size +:+ dquote] else []) in
  let style := join_space style_attrs in
  Ok match style with
     | EmptyString => subtitle
     | _ => "<font " +:+ style +:+ ">" +:+ subtitle +:+ "</font>"
     end).

(** The two f-strings of [_split_dialogs] that wrap a text in a font tag,
    and the position tag. *)
Definition font_size (size text : string) : string :=
  "<font face=" +:+ dquote +:+ "Gandhi Sans" +:+ dquote +:+ " size="
  +:+ dquote +:+ size +:+ dquote +:+ ">" +:+ text +:+ "</font>".

Definition font_color (color text : string) : string :=
  "<font color=" +:+ dquote +:+ color +:+ dquote +:+ ">" +:+ text
  +:+ "</font>".

Definition an8 : string := "{\an8}".

(** [Merger._put_subtitle_top].  The pattern [r'{\\\an\d}'] reads, for
    [re]: the brace, an escaped backslash, the escape [\a], which is the
    character BEL (code 7), the letter [n], a digit and the closing brace.
    [an_match] is a match of the pattern at the start of the text; [skip]
    counts the characters of a match still to be passed. *)
Definition BEL : ascii := chr 7.

Definition an_match (s : string) : bool :=
  match s with
  | String a (String b (String c (String d (String e (String f _))))) =>
      Ascii.eqb a "{" && Ascii.eqb b "\" && Ascii.eqb c BEL
      && Ascii.eqb d "n" && bool_decide (is_Some (digit e)) && Ascii.eqb f "}"
  | _ => false
  end.

Fixpoint sub_an (skip : nat) (s : string) : string :=
  match s with
  | EmptyString => EmptyString
  | String c r =>
      match skip with
      | S k => sub_an k r
      | O => if an_match s then sub_an 5 r else String c (sub_an O r)
      end
  end.

Definition _put_subtitle_top (subtitle : string) : string :=
  an8 +:+ sub_an O subtitle.

(** The styling lines of [_split_dialogs] (lines 162 to 169 of [main.py]),
    on the text with its trailing white space already removed. *)
Definition apply_style (text : string) (color : option string)
    (size : option Z) (top : bool) : string :=
  let text := if truthy_int size then font_size (fmt_int size) text else text in
  let text :=
    if truthy_str color then font_color (fmt_str color) text else text in
  if top then an8 +:+ text else text.

(** What one pass of the loop body of [_split_dialogs] does with a block,
    up to the line that builds [text_and_time] (line 172): [continue]
    ([Skip]), an exception inside the second [try] ([Fail]), or a cue with
    its timecode line, its start-time key and its styled text. *)
Inductive cue :=
  | Skip
  | Fail
  | Cue (time : string) (timestamp : Z) (text : string).

Definition joined_lines (texts : list string) : string :=
  fold_left (fun text t => text +:+ t +:+ nl) texts EmptyString.

Definition read_cue (dialog : string) (color : option string)
    (size : option Z) (top : bool) : cue :=
  let dialog :=
    if startswith dialog crlf then replace dialog crlf "" (Some 1%nat)
    else dialog in
  let dialog := if startswith dialog nl then drop 1 dialog else dialog in
  if String.eqb dialog "" || String.eqb dialog nl
     || String.eqb (lstrip (rstrip dialog)) ""
  then Skip
  else
    (* first try: IndexError is caught, continue *)
    let dialog := if startswith dialog crlf then drop 2 dialog else dialog in
    match split_chr LF (Some 2%nat) dialog !! 1%nat with
    | None => Skip
    | Some time =>
        let timestamp := strip (before "-->" time) in
        (* second try *)
        match strptime_key timestamp with
        | None => Fail
        | Some timestamp =>
            match split_chr LF (Some 1%nat) dialog !! 1%nat with
            | None => Fail
            | Some text_and_time =>
                let texts := tail (split_chr LF None text_and_time) in
                let text := joined_lines texts in
                if String.eqb text "" || String.eqb text nl then Skip
                else Cue time timestamp (apply_style (rstrip text) color size top)
            end
        end
    end.

(** Lines 172 to 180: the entry stored for the cue, given the dict of the
    source so far.  [None] is the [IndexError] of [split('\n', 2)[2]]. *)
Definition stored_entry (dialogs : gmap Z string) (time : string)
    (timestamp : Z) (text : string) : option string :=
  match dialogs !! timestamp with
  | None => Some (time +:+ nl +:+ text +:+ nl)
  | Some prev =>
      prev_text ← strip <$> (split_chr LF (Some 2%nat) prev !! 2%nat);
      Some (time +:+ nl +:+ prev_text +:+ nl +:+ text +:+ nl)
  end.

(** [Merger._split_dialogs].  The state is the dict [subtitle['dialogs']]
    and the list [self.timestamps]; it is returned as it stands when the
    method returns or raises.  The handler of the second [try] reads
    [self.logger], an attribute that no [Merger] has: it raises
    [AttributeError], which leaves the method. *)
Fixpoint _split_dialogs (dialogs : list string)
    (st : gmap Z string * list Z) (color : option string) (size : option Z)
    (top : bool) : outcome unit * (gmap Z string * list Z) :=
  match dialogs with
  | [] => (Ok tt, st)
  | dialog :: rest =>
      match read_cue dialog color size top with
      | Skip => _split_dialogs rest st color size top
      | Fail => (Raise AttributeError, st)
      | Cue time timestamp text =>
          match stored_entry st.1 time timestamp text with
          | None => (Raise AttributeError, st)
          | Some text_and_time =>
              _split_dialogs rest
                (<[timestamp := text_and_time]> st.1, st.2 ++ [timestamp])
                color size top
          end
      end
  end.

(** The bytes returned by [_encode] when the codec refuses the text. *)
Definition encode_failed : string :=
  "An error has been occured in encoing by specifed `output_encoding`".

Fixpoint ascii_bytes (s : string) : bytes :=
  match s with
  | EmptyString => []
  | String c r => byte_of_ascii c :: ascii_bytes r
  end.

(** [Merger._encode]. *)
Definition _encode (P : platform) (self : Merger) (text : string) : bytes :=
  match str_encode P text (output_encoding self) with
  | Ok b => b
  | Raise _ => ascii_bytes encode_failed
  end.

(** The files of the machine, each under the name [resolve] gives for its
    paths. *)
Abbreviation files := (gmap string bytes).

(** The default of the parameter [color] of [add]. *)
Definition default_color : option string := COLORS !! "WHITE".

(** [Merger.add]: the outcome and the object after the call.  The source is
    appended to [self.subtitles] only when [_split_dialogs] returns. *)
Definition add (P : platform) (fs : files) (self : Merger)
    (subtitle_address codec : string) (color : option string)
    (size : option Z) (top : bool) : outcome unit * Merger :=
  match fs !! resolve P subtitle_address with
  | None => (Raise OSError, self)
  | Some raw =>
      match bytes_decode P raw codec with
      | Raise e => (Raise e, self)
      | Ok data =>
          let dialogs := re_split_blank O data in
          let '(r, (d, ts)) :=
            _split_dialogs dialogs (∅, timestamps self) color size top in
          let subtitle :=
            {| sub_address := subtitle_address; sub_codec := codec;
               sub_color := color; sub_size := size; sub_dialogs := d;
               sub_data := data; sub_raw_dialogs := dialogs |} in
          match r with
          | Raise e =>
              (Raise e,
               {| timestamps := ts; subtitles := subtitles self;
                  lines := lines self; output_path := output_path self;
                  output_name := output_name self;
                  output_encoding := output_encoding self;
                  font_sizes := font_sizes self |})
          | Ok _ =>
              (Ok tt,
               {| timestamps := ts;
                  subtitles := subtitles self ++ [subtitle];
                  lines := lines self; output_path := output_path self;
                  output_name := output_name self;
                  output_encoding := output_encoding self;
                  font_sizes := font_sizes self |})
          end
      end
  end.

(** [Merger.get_output_path]. *)
Definition get_output_path (self : Merger) : string :=
  if endswith (output_path self) "/"
  then output_path self +:+ output_name self
  else output_path self +:+ "/" +:+ output_name self.

(** An element of [self.lines] as [merge] appends it, together with the
    values the loop variables had then: [count], [t], the position of [sub]
    in [self.subtitles] and the entry [sub['dialogs'][t]]. *)
Record emitted := {
  e_count : nat;
  e_time : Z;
  e_source : nat;
  e_entry : string;
  e_dialog : bytes
}.

(** The variables the loops of [merge] update. *)
Record loop_state := {
  l_subtitles : list subtitle;
  l_lines : list emitted;
  l_count : nat
}.

(** The body of the inner loop of [merge] for the source at position [i]
    (lines 237 to 252). *)
Definition merge_visit (P : platform) (self : Merger) (t : Z) (i : nat)
    (st : loop_state) : outcome unit * loop_state :=
  match l_subtitles st !! i with
  | None => (Ok tt, st)
  | Some sub =>
      match sub_dialogs sub !! t with
      | None => (Ok tt, st)
      | Some d =>
          let enc := output_encoding self in
          let line := _encode P self (replace d sep_lflf "" None) in
          let count := l_count st in
          let byteOfCount :=
            if (count =? 1)%nat then
              bind (str_encode P (str count) enc)
                (fun b => _insert_bom P b enc)
            else
              bind (str_encode P nl enc) (fun n =>
              bind (str_encode P (str count) enc) (fun b =>
              Ok (n ++ b))) in
          match byteOfCount with
          | Raise e => (Raise e, st)
          | Ok byteOfCount =>
              let subs :=
                if endswith d nl then l_subtitles st
                else <[i := set_dialogs (insert t (d +:+ nl)) sub]>
                       (l_subtitles st) in
              match str_encode P nl enc with
              | Raise e =>
                  (Raise e,
                   {| l_subtitles := subs; l_lines := l_lines st;
                      l_count := count |})
              | Ok n =>
                  (Ok tt,
                   {| l_subtitles := subs;
                      l_lines :=
                        l_lines st
                        ++ [{| e_count := count; e_time := t; e_source := i;
                               e_entry := d;
                               e_dialog := byteOfCount ++ n ++ line |}];
                      l_count := S count |})
              end
          end
      end
  end.

(** [for sub in self.subtitles], by position. *)
Fixpoint merge_sources (P : platform) (self : Merger) (t : Z)
    (positions : list nat) (st : loop_state) : outcome unit * loop_state :=
  match positions with
  | [] => (Ok tt, st)
  | i :: rest =>
      match merge_visit P self t i st with
      | (Ok _, st') => merge_sources P self t rest st'
      | (Raise e, st') => (Raise e, st')
      end
  end.

(** [for t in self.timestamps]. *)
Fixpoint merge_times (P : platform) (self : Merger) (ts : list Z)
    (st : loop_state) : outcome unit * loop_state :=
  match ts with
  | [] => (Ok tt, st)
  | t :: rest =>
      match
        merge_sources P self t (seq 0 (length (l_subtitles st))) st
      with
      | (Ok _, st') => merge_times P self rest st'
      | (Raise e, st') => (Raise e, st')
      end
  end.

(** [list(set(self.timestamps))] followed by [sort()]. *)
Definition sorted_set (ts : list Z) : list Z :=
  merge_sort Z.le (elements (list_to_set ts : gset Z)).

(** [b[:-n]] on bytes. *)
Definition drop_last (n : nat) (b : bytes) : bytes := take (length b - n) b.

(** Lines 253 to 256: the two trims of the last element of [self.lines];
    [self.lines[-1]] raises [IndexError] on the empty list. *)
Definition trim_last (ls : list bytes) : outcome (list bytes) :=
  match last ls with
  | None => Raise IndexError
  | Some b =>
      let b1 :=
        if bytes_endswith b [x00; x0a; x00] then drop_last 3 b ++ [x00]
        else b in
      let b2 := if bytes_endswith b1 [x0a] then drop_last 1 b1 else b1 in
      Ok (removelast ls ++ [b2])
  end.

Definition with_merge_state (self : Merger) (ts : list Z)
    (subs : list subtitle) (ls : list bytes) : Merger :=
  {| timestamps := ts; subtitles := subs; lines := ls;
     output_path := output_path self; output_name := output_name self;
     output_encoding := output_encoding self;
     font_sizes := font_sizes self |}.

(** [Merger.merge]: the outcome, the object and the files after the call.
    The method has no [return] statement: the value of a call that
    completes is [None].  [open] is taken to accept every encoding that
    [bytes] accepted in the loop. *)
Definition merge (P : platform) (fs : files) (self : Merger)
    : outcome (option string) * Merger * files :=
  let ts := sorted_set (timestamps self) in
  let '(r, st) :=
    merge_times P self ts
      {| l_subtitles := subtitles self; l_lines := []; l_count := 1 |} in
  let ls := e_dialog <$> l_lines st in
  match r with
  | Raise e => (Raise e, with_merge_state self ts (l_subtitles st) ls, fs)
  | Ok _ =>
      match trim_last ls with
      | Raise e => (Raise e, with_merge_state self ts (l_subtitles st) ls, fs)
      | Ok ls' =>
          let self' := with_merge_state self ts (l_subtitles st) ls' in
          if creatable P (get_output_path self')
          then (Ok None, self',
                <[resolve P (get_output_path self') := concat ls']> fs)
          else (Raise OSError, self', fs)
      end
  end.

(** The blocks [merge] appends to [self.lines], in order, when both loops
    complete. *)
Definition merge_blocks (P : platform) (self : Merger)
    : outcome (list emitted) :=
  match
    merge_times P self (sorted_set (timestamps self))
      {| l_subtitles := subtitles self; l_lines := []; l_count := 1 |}
  with
  | (Ok _, st) => Ok (l_lines st)
  | (Raise e, _) => Raise e
  end.

(** ** [MergeWorker.run] of [qt.py] and [ui.py] *)

Module Qt.

(** The dataclass [EpisodeMatch]; each path is the text that [str()] gives
    for it. *)
Record EpisodeMatch := {
  episode_num : Z;
  sub1_path : string;
  sub2_path : string;
  output_path : string
}.

(** The dict [merger_args], which has the keys [color] and [codec]. *)
Record merger_args := {
  color : string;
  codec : string
}.

(** The signals the worker emits, each with the values that its text is
    built from: [progress] at the start of an episode and after its merge,
    [error] from the handler of the inner [try], with the exception caught,
    and [finished].  Nothing in the loop outside the inner [try] raises, so
    the handler of the outer [try] emits nothing. *)
Inductive signal :=
  | progress_processing (episode_num : Z)
  | progress_merged (episode_num : Z) (output_path : string)
  | error_merging (episode_num : Z) (e : exn)
  | finished.

(** The body of the inner [try] after its first [emit]: a new [Merger],
    the two calls of [add] and the call of [merge].  The object is local
    to the episode; what remains is the outcome and the files. *)
Definition merge_episode (P : platform) (args : merger_args)
    (m : EpisodeMatch) (fs : files) : outcome unit * files :=
  let merger := init "." (output_path m) "utf-8" in
  match
    add P fs merger (sub1_path m) (codec args) (Some (color args)) None false
  with
  | (Raise e, _) => (Raise e, fs)
  | (Ok _, merger) =>
      match add P fs merger (sub2_path m) "utf-8" default_color None false with
      | (Raise e, _) => (Raise e, fs)
      | (Ok _, merger) =>
          match merge P fs merger with
          | (Raise e, _, fs') => (Raise e, fs')
          | (Ok _, _, fs') => (Ok tt, fs')
          end
      end
  end.

(** The loop of [run].  [running i] is the value of [self.is_running] read
    at the head of iteration [i]; another thread may clear the flag by
    [stop()]. *)
Fixpoint run_matches (P : platform) (args : merger_args)
    (running : nat -> bool) (i : nat) (matches : list EpisodeMatch)
    (fs : files) : list signal * files :=
  match matches with
  | [] => ([], fs)
  | m :: rest =>
      if running i then
        let '(r, fs1) := merge_episode P args m fs in
        let '(signals, fs2) := run_matches P args running (S i) rest fs1 in
        (progress_processing (episode_num m)
         :: match r with
            | Ok _ => progress_merged (episode_num m) (output_path m)
            | Raise e => error_merging (episode_num m) e
            end
         :: signals, fs2)
      else ([], fs)
  end.

(** [MergeWorker.run]: the signals emitted, in order, and the files after
    the call. *)
Definition run (P : platform) (args : merger_args) (running : nat -> bool)
    (matches : list EpisodeMatch) (fs : files) : list signal * files :=
  let '(signals, fs') := run_matches P args running O matches fs in
  (signals ++ [finished], fs').

End Qt.

(** ** A machine to run the examples on *)

Module Machine.

(** A little-endian machine with the codecs the examples name.  [encode]
    is the encoder of CPython for texts of code points below 256; [decode]
    covers the files of the examples, which are ASCII or Latin-1. *)
Definition utf8_char (c : ascii) : bytes :=
  let n := N_of_ascii c in
  if (n <? 128)%N then [byte_of_ascii c]
  else [byte_of_ascii (ascii_of_N (192 + n / 64));
        byte_of_ascii (ascii_of_N (128 + n mod 64))].

Fixpoint encode_with (f : ascii -> bytes) (s : string) : bytes :=
  match s with
  | EmptyString => []
  | String c r => f c ++ encode_with f r
  end.

Definition unit_le (width : nat) (c : ascii) : bytes :=
  byte_of_ascii c :: List.repeat x00 (width - 1).
Definition unit_be (width : nat) (c : ascii) : bytes :=
  List.repeat x00 (width - 1) ++ [byte_of_ascii c].

Definition is_ascii (s : string) : bool :=
  forallb (fun c => (N_of_ascii c <? 128)%N) (list_ascii_of_string s).

Definition encode (text codec : string) : outcome bytes :=
  if one_of codec ["utf-8"; "utf8"; "UTF-8"] then
    Ok (encode_with utf8_char text)
  else if one_of codec ["utf-16-le"] then Ok (encode_with (unit_le 2) text)
  else if one_of codec ["utf-16-be"] then Ok (encode_with (unit_be 2) text)
  else if one_of codec ["utf-16"] then
    Ok (BOM_UTF16_LE ++ encode_with (unit_le 2) text)
  else if one_of codec ["utf-32-le"] then Ok (encode_with (unit_le 4) text)
  else if one_of codec ["utf-32-be"] then Ok (encode_with (unit_be 4) text)
  else if one_of codec ["utf-32"] then
    Ok (BOM_UTF32_LE ++ encode_with (unit_le 4) text)
  else if one_of codec ["latin-1"] then Ok (encode_with (unit_le 1) text)
  else if one_of codec ["ascii"] then
    if is_ascii text then Ok (encode_with (unit_le 1) text)
    else Raise UnicodeEncodeError
  else Raise LookupError.

Fixpoint decode_latin1 (b : bytes) : string :=
  match b with
  | [] => EmptyString
  | x :: r => String (ascii_of_byte x) (decode_latin1 r)
  end.

(** Under each of these codecs a byte below 128 is the code point of its
    character; files with other bytes are not used in the examples. *)
Definition decode (raw : bytes) (codec : string) : outcome string :=
  if one_of codec ["utf-8"; "utf8"; "UTF-8"; "ascii"] then
    if is_ascii (decode_latin1 raw) then Ok (decode_latin1 raw)
    else Raise UnicodeDecodeError
  else if one_of codec ["latin-1"] then Ok (decode_latin1 raw)
  else Raise LookupError.

(** A path relative to the working directory, without the [./] it starts
    with: [./en.srt] and [en.srt] name one file.  The paths of the
    examples have no other parts to resolve. *)
Fixpoint cwd_relative (after_dot : bool) (path : string) : string :=
  match path with
  | String "/" r => if after_dot then cwd_relative true r else path
  | String "." (String "/" r) => cwd_relative true r
  | _ => path
  end.

Definition cpython : platform :=
  {| little_endian := true; str_encode := encode; bytes_decode := decode;
     resolve := cwd_relative false; creatable := fun _ => true;
     int_str_limit := Some 3660%nat |}.

(** The content of a text file written in Latin-1, which is ASCII for a
    text of code points below 128. *)
Definition file_of (text : string) : bytes := ascii_bytes text.

End Machine.

(** ** Sessions used in the examples *)

Module Example.
Import Machine.

(** A cue block as it stands in a file: sequence line, timecode line and
    body, each closed by LF. *)
Definition cue_text (n time body : string) : string :=
  n +:+ nl +:+ time +:+ nl +:+ body +:+ nl.

Definition at_5s_a : string := "00:00:05,000 --> 00:00:06,000".
Definition at_5s_b : string := "00:00:05,000 --> 00:00:07,000".
Definition at_9s : string := "00:00:09,000 --> 00:00:10,000".

(** Two sources with a cue at the same start-time 00:00:05,000; the second
    one has a later cue too. *)
Definition en_srt : string := cue_text "1" at_5s_a "Hi".
Definition fr_srt : string :=
  cue_text "1" at_5s_b "Salut" +:+ nl +:+ cue_text "2" at_9s "Ca va".

(** A source whose second block has no timecode: its second line is text. *)
Definition bad_time_srt : string :=
  cue_text "1" at_5s_a "Hi" +:+ nl +:+ cue_text "2" "not a timecode" "Hello".

(** A source whose second block is a single line. *)
Definition one_line_srt : string :=
  cue_text "1" at_5s_a "Hi" +:+ nl +:+ "2".

(** A source with two cues at the same start-time. *)
Definition twice_srt : string :=
  cue_text "1" at_5s_a "Hello" +:+ nl +:+ cue_text "2" at_5s_b "World".

(** A source whose body already carries a font tag. *)
Definition styled_srt : string :=
  cue_text "1" at_5s_a (font_color "#FF0000" "Hi").

(** A source with no cue at all. *)
Definition blank_srt : string := nl +:+ nl +:+ nl.

Definition disk : files :=
  list_to_map
    [("en.srt", file_of en_srt); ("fr.srt", file_of fr_srt);
     ("bad_time.srt", file_of bad_time_srt);
     ("one_line.srt", file_of one_line_srt);
     ("twice.srt", file_of twice_srt);
     ("styled.srt", file_of styled_srt);
     ("blank.srt", file_of blank_srt)].

(** [m.add(path)], all other arguments left to their defaults. *)
Definition add_file (self : Merger) (path : string) : outcome unit * Merger :=
  add cpython disk self path "utf-8" default_color None false.

Definition one_source : Merger := (add_file init_default "en.srt").2.
Definition two_sources : Merger := (add_file one_source "fr.srt").2.
Definition blank_source : Merger := (add_file init_default "blank.srt").2.

Definition key_5s : Z := 5000000.
Definition key_9s : Z := 9000000.

(** The text of a file of [fs], read back as ASCII. *)
Definition text_of (fs : files) (path : string) : option string :=
  decode_latin1 <$> fs !! resolve cpython path.


End Example.

(** ** Vocabulary of the statements *)

(** A block of a file: a sequence line, a second line and a body. *)
Definition block_of (n time body : string) : string :=
  n +:+ nl +:+ time +:+ nl +:+ body.

(** The entry of the source at position [i] for the start-time [t]. *)
Definition entry_at (subs : list subtitle) (t : Z) (i : nat) : option string :=
  sub ← subs !! i; sub_dialogs sub !! t.

(** The sources among [positions], in that order, that have an entry at
    [t], each with its entry. *)
Definition contributions (subs : list subtitle) (t : Z) (positions : list nat)
    : list (Z * nat * string) :=
  omap (fun i => (fun d => (t, i, d)) <$> entry_at subs t i) positions.

Definition all_positions (subs : list subtitle) : list nat :=
  seq 0 (length subs).

(** Start-time by start-time, the entries of all sources in add order. *)
Definition schedule (subs : list subtitle) (ts : list Z)
    : list (Z * nat * string) :=
  t ← ts; contributions subs t (all_positions subs).

Definition block_key (e : emitted) : Z * nat * string :=
  (e_time e, e_source e, e_entry e).

(** Order of the blocks: by start-time, then by position of the source. *)
Definition key_lt (k1 k2 : Z * nat * string) : Prop :=
  k1.1.1 < k2.1.1 \/ (k1.1.1 = k2.1.1 /\ (k1.1.2 < k2.1.2)%nat).

Definition block_lt (e1 e2 : emitted) : Prop :=
  key_lt (block_key e1) (block_key e2).

(** The number of sources that have an entry at [t]. *)
Definition sources_at (t : Z) (subs : list subtitle) : nat :=
  sum_list_with
    (fun sub => if decide (is_Some (sub_dialogs sub !! t)) then 1%nat else 0%nat)
    subs.

(** The codec named [enc] encodes the line break and every sequence number,
    and [_insert_bom] does not reach [codecs.BOM_UTF64_BE]. *)
Definition encodes_counts (P : platform) (enc : string) : Prop :=
  (exists b, str_encode P nl enc = Ok b)
  /\ (forall k, exists b, str_encode P (str k) enc = Ok b)
  /\ bom_key enc <> "UTF64BE".

(** Every start-time that has an entry in a source is in
    [self.timestamps]. *)
Definition timeline_covers (self : Merger) : Prop :=
  Forall (fun sub => dom (sub_dialogs sub) ⊆ list_to_set (timestamps self))
    (subtitles self).

(** Total number of entries of the sources. *)
Definition total_entries (subs : list subtitle) : nat :=
  sum_list_with (fun sub => size (sub_dialogs sub)) subs.

(** From [st] to [st'] the loops appended blocks for the entries [new], in
    that order, numbered from [l_count st] on. *)
Definition loop_adds (st st' : loop_state) (new : list (Z * nat * string))
    : Prop :=
  block_key <$> l_lines st' = (block_key <$> l_lines st) ++ new
  /\ e_count <$> l_lines st'
     = (e_count <$> l_lines st) ++ seq (l_count st) (length new)
  /\ l_count st' = (l_count st + length new)%nat
  /\ length (l_subtitles st') = length (l_subtitles st).

(** The bytes of a block: the sequence number, preceded by the mark chosen
    by [_insert_bom] in the first block and by a line break in the others,
    then a line break and the encoded entry. *)
Definition block_bytes (P : platform) (self : Merger) (e : emitted) : Prop :=
  let enc := output_encoding self in
  exists n num,
    str_encode P nl enc = Ok n
    /\ str_encode P (str (e_count e)) enc = Ok num
    /\ exists head,
         (if (e_count e =? 1)%nat then _insert_bom P num enc = Ok head
          else head = n ++ num)
         /\ e_dialog e
            = head ++ n ++ _encode P self (replace (e_entry e) sep_lflf "" None).

(** A cue as it stands in a file, and the text of a file of cues in which
    every cue is closed by a line break and followed, but for the last one,
    by an empty line. *)
Record cue_src := { c_seq : string; c_time : string; c_body : string }.

Definition cue_block (q : cue_src) : string :=
  block_of (c_seq q) (c_time q) (c_body q).

Fixpoint srt_text (cues : list cue_src) : string :=
  match cues with
  | [] => ""
  | [q] => cue_block q +:+ nl
  | q :: rest => cue_block q +:+ nl +:+ nl +:+ srt_text rest
  end.

(** The pieces [re.split] cuts a file of cues into: one per cue, the last
    one closed by its line break. *)
Fixpoint srt_blocks (cues : list cue_src) : list string :=
  match cues with
  | [] => [EmptyString]
  | [q] => [cue_block q +:+ nl]
  | q :: rest => cue_block q :: srt_blocks rest
  end.

(** The lines of a text are all non-empty: no line break stands at the
    start or at the end of the text, or after another line break.
    [prev_lf] tells that the character before was a line break (or that
    the text starts here). *)
Fixpoint no_blank_line_from (prev_lf : bool) (s : string) : bool :=
  match s with
  | EmptyString => negb prev_lf
  | String c r =>
      if Ascii.eqb c LF then negb prev_lf && no_blank_line_from true r
      else no_blank_line_from false r
  end.

Definition no_blank_line (s : string) : bool := no_blank_line_from true s.

(** The start-time key of a cue of the usual form: the sequence line and
    the timecode line are single lines, the first character is not white
    space, the block has no CR and no empty line, and the start of the
    timecode line parses. *)
Definition cue_key (q : cue_src) : option Z :=
  if match c_seq q with
     | String c _ => negb (isspace c)
     | EmptyString => false
     end
     && negb (contains_chr LF (c_seq q)) && negb (contains_chr LF (c_time q))
     && negb (contains_chr CR (cue_block q)) && no_blank_line (cue_block q)
  then strptime_key (strip (before "-->" (c_time q)))
  else None.

(** The entry [_split_dialogs] stores for a cue whose start-time is new. *)
Definition cue_entry (color : option string) (size : option Z) (top : bool)
    (q : cue_src) : string :=
  c_time q +:+ nl +:+ apply_style (rstrip (c_body q)) color size top +:+ nl.


(** The same with CR LF line ends: the block of a cue, the text of a file
    of cues, and the pieces [re.split] cuts that text into.  The pattern
    matches CR LF CR at the end of a cue, so that every piece but the first
    starts with the LF that is left ([lead]). *)
Definition cue_block_crlf (q : cue_src) : string :=
  block_of (c_seq q +:+ String CR "") (c_time q +:+ String CR "") (c_body q).

Fixpoint srt_text_crlf (cues : list cue_src) : string :=
  match cues with
  | [] => ""
  | [q] => cue_block_crlf q +:+ crlf
  | q :: rest => cue_block_crlf q +:+ crlf +:+ crlf +:+ srt_text_crlf rest
  end.

Fixpoint srt_blocks_crlf (lead : string) (cues : list cue_src) : list string :=
  match cues with
  | [] => [lead]
  | [q] => [lead +:+ cue_block_crlf q +:+ crlf]
  | q :: rest => (lead +:+ cue_block_crlf q) :: srt_blocks_crlf nl rest
  end.

(** Neither CR LF CR nor LF LF starts at a character of [a] when [a] is
    followed by [sfx]. *)
Fixpoint no_sep_in (a sfx : string) : bool :=
  match a with
  | EmptyString => true
  | String _ r =>
      negb (String.prefix sep_crlfcr (a +:+ sfx))
      && negb (String.prefix sep_lflf (a +:+ sfx))
      && no_sep_in r sfx
  end.

(** The start-time key of a cue of the usual form in a file with CR LF
    line ends: the sequence line and the timecode line are single lines,
    the first character is not white space, the body is not empty, no
    blank line starts inside the block, and the start of the timecode
    line parses. *)
Definition cue_key_crlf (q : cue_src) : option Z :=
  if match c_seq q with
     | String c _ => negb (isspace c)
     | EmptyString => false
     end
     && negb (contains_chr LF (c_seq q)) && negb (contains_chr LF (c_time q))
     && negb (String.eqb (c_body q) "")
     && no_sep_in (cue_block_crlf q) crlf
  then strptime_key (strip (before "-->" (c_time q +:+ String CR "")))
  else None.

(** The entry stored for such a cue: the timecode line keeps its CR. *)
Definition cue_entry_crlf (color : option string) (size : option Z)
    (top : bool) (q : cue_src) : string :=
  (c_time q +:+ String CR "") +:+ nl
  +:+ apply_style (rstrip (c_body q)) color size top +:+ nl.

(** The cues of the file [fr.srt] of the examples. *)
Definition fr_cues : list cue_src :=
  [{| c_seq := "1"; c_time := Example.at_5s_b; c_body := "Salut" |};
   {| c_seq := "2"; c_time := Example.at_9s; c_body := "Ca va" |}].

(** A decimal digit, a number written with two and with three digits, and
    a start time [HH:MM:SS,mmm] as it stands on a timecode line. *)
Definition dec_digit (d : Z) : ascii := ascii_of_nat (48 + Z.to_nat d).

Definition two_dec (n : Z) : string :=
  String (dec_digit (n / 10)) (String (dec_digit (n mod 10)) "").

Definition three_dec (n : Z) : string :=
  String (dec_digit (n / 100)) (two_dec (n mod 100)).

Definition clock (h m s ms : Z) : string :=
  two_dec h +:+ ":" +:+ two_dec m +:+ ":" +:+ two_dec s +:+ ","
  +:+ three_dec ms.

(** A disk with the same cues in a file with CR LF line ends. *)
Definition crlf_disk : files :=
  {[ "fr_crlf.srt" := Machine.file_of (srt_text_crlf fr_cues) ]}.



(** A source in Latin-1 with a character that the codec [ascii] refuses,
    in a session with that output encoding. *)
Definition latin_text : string := "Caf" +:+ String (chr 233) "".

Definition latin_srt : string :=
  Example.cue_text "1" Example.at_5s_a latin_text.

Definition latin_disk : files :=
  {[ "latin.srt" := Machine.file_of latin_srt ]}.

Definition latin_source : Merger :=
  (add Machine.cpython latin_disk (init "." "out.srt" "ascii") "latin.srt"
     "latin-1" default_color None false).2.

(** A session whose output file is the file of its source: [./en.srt] and
    [en.srt] name one file. *)
Definition over_source : Merger :=
  (add Machine.cpython Example.disk (init "." "en.srt" "utf-8") "en.srt"
     "utf-8" default_color None false).2.

(** An RGB token whose first component has [n] digits. *)
Definition long_rgb_token (n : nat) : string :=
  "(" +:+ string_of_list_ascii (List.repeat "0"%char n) +:+ ",0,0)".

(** A batch for the examples: the arguments of the worker, an episode
    whose two files are on the disk and one whose first file is missing. *)
Definition red_args : Qt.merger_args :=
  {| Qt.color := "Red"; Qt.codec := "utf-8" |}.

Definition episode_1 : Qt.EpisodeMatch :=
  {| Qt.episode_num := 1; Qt.sub1_path := "en.srt"; Qt.sub2_path := "fr.srt";
     Qt.output_path := "E01_merged.srt" |}.

Definition episode_2 : Qt.EpisodeMatch :=
  {| Qt.episode_num := 2; Qt.sub1_path := "missing.srt";
     Qt.sub2_path := "fr.srt"; Qt.output_path := "E02_merged.srt" |}.

Definition never_stopped (i : nat) : bool := true.

(** Every entry of every source ends with a line break. *)
Definition entries_closed (subs : list subtitle) : Prop :=
  Forall
    (fun sub => map_Forall (fun _ d => endswith d nl = true) (sub_dialogs sub))
    subs.

(** The value of a digit of [[0-9A-F]], and the three components a color
    [#RRGGBB] stands for. *)
Definition hex_value (c : ascii) : option Z :=
  let n := nat_of_ascii c in
  if ((48 <=? n) && (n <=? 57))%nat then Some (Z.of_nat n - 48)
  else if ((65 <=? n) && (n <=? 70))%nat then Some (Z.of_nat n - 55)
  else None.

Definition hex_pair (a b : ascii) : option Z :=
  x ← hex_value a; y ← hex_value b; Some (16 * x + y).

Definition hex_components (h : string) : option (Z * Z * Z) :=
  match h with
  | String "#" (String a (String b (String c (String d (String e
      (String f EmptyString)))))) =>
      r ← hex_pair a b; g ← hex_pair c d; b ← hex_pair e f; Some (r, g, b)
  | _ => None
  end.

(** The color token [(r,g,b)] with its components written in decimal. *)
Definition rgb_token (r g b : nat) : string :=
  "(" +:+ str r +:+ "," +:+ str g +:+ "," +:+ str b +:+ ")".

(** No character is white space; no character is a lower-case letter. *)
Definition no_space (s : string) : bool :=
  all_chars (fun c => negb (isspace c)) s.
Definition no_lower (s : string) : bool :=
  all_chars (fun c => Ascii.eqb (upper_char c) c) s.

(** Case analysis on the character comparisons of [String.prefix] in [H]. *)
Ltac case_ascii_dec H :=
  repeat match type of H with
         | context [ascii_dec ?x ?y] => destruct (ascii_dec x y)
         end;
  try discriminate H.

(** * Properties *)

Import Machine Example.

(** ** [add] and [_split_dialogs] on concrete files *)

(** C3.  A block that has a sequence line and a second line whose start
    does not parse as a time is not skipped: the handler that should skip
    it reads [self.logger], which does not exist, and [add] ends with
    [AttributeError] instead of returning; the source, with the cue read
    before that block, is not appended to [self.subtitles]. *)
Theorem add_raises_on_unparsable_start_time :
  let r := add_file init_default "bad_time.srt" in
  r.1 = Raise AttributeError
  /\ r.1 <> Ok tt
  /\ subtitles r.2 = []
  /\ timestamps r.2 = [key_5s].
Proof. vm_compute. split_and!; [reflexivity|discriminate|reflexivity..]. Qed.

(** C4.  [add] with the color token yellow stores the token itself in the
    font tag, not #FFEB00, the value [normalize_color] gives for it. *)
Theorem add_stores_raw_color_token :
  let r := add cpython disk init_default "en.srt" "utf-8" (Some "yellow")
             None false in
  let stored := at_5s_a +:+ nl +:+ font_color "yellow" "Hi" +:+ nl in
  let claimed := at_5s_a +:+ nl +:+ font_color "#FFEB00" "Hi" +:+ nl in
  r.1 = Ok tt
  /\ sub_dialogs <$> subtitles r.2 = [{[ key_5s := stored ]}]
  /\ normalize_color cpython (Some "yellow") = Ok (Some "#FFEB00")
  /\ stored <> claimed.
Proof. vm_compute. split_and!; [reflexivity..|discriminate]. Qed.

(** C5.  A body that already carries a font tag is wrapped as it is: the
    stored text has two nested font tags.  The styling lines of
    [_split_dialogs] applied twice wrap twice, while
    [_set_subtitle_style], which [add] does not call, removes the tag
    first. *)
Theorem add_keeps_existing_font_tag :
  let r := add_file init_default "styled.srt" in
  let once := apply_style "Hi" default_color None false in
  let twice := apply_style once default_color None false in
  r.1 = Ok tt
  /\ sub_dialogs <$> subtitles r.2
     = [{[ key_5s :=
             at_5s_a +:+ nl
             +:+ font_color "#FFFFFF" (font_color "#FF0000" "Hi") +:+ nl ]}]
  /\ once = font_color "#FFFFFF" "Hi"
  /\ twice = font_color "#FFFFFF" (font_color "#FFFFFF" "Hi")
  /\ twice <> once
  /\ _set_subtitle_style cpython (font_color "#FF0000" "Hi") default_color
       None
     = Ok (font_color "#FFFFFF" "Hi").
Proof. vm_compute. split_and!; [reflexivity..|discriminate|reflexivity]. Qed.

(** C9.  Two cues of one source at the same start-time leave one entry, but
    the text of the earlier cue is not in it: [split('\n', 2)[2]] is what
    follows the first line of the earlier text, here nothing. *)
Theorem add_same_time_drops_earlier_text :
  let r := add_file init_default "twice.srt" in
  let stored := at_5s_b +:+ nl +:+ nl +:+ font_color "#FFFFFF" "World" +:+ nl in
  let claimed :=
    at_5s_b +:+ nl +:+ font_color "#FFFFFF" "Hello" +:+ nl
    +:+ font_color "#FFFFFF" "World" +:+ nl in
  r.1 = Ok tt
  /\ sub_dialogs <$> subtitles r.2 = [{[ key_5s := stored ]}]
  /\ stored <> claimed.
Proof. vm_compute. split; [|split]; [reflexivity..|discriminate]. Qed.

(** A block of a single line, which has no timecode line, is skipped
    without an error: the cue before it is stored and [add] returns. *)
Lemma add_skips_one_line_block :
  let r := add_file init_default "one_line.srt" in
  r.1 = Ok tt
  /\ sub_dialogs <$> subtitles r.2
     = [{[ key_5s := at_5s_a +:+ nl +:+ font_color "#FFFFFF" "Hi" +:+ nl ]}].
Proof. vm_compute. auto. Qed.

(** ** [merge] on concrete sessions *)


(** C2, as stated, fails: the start-times of the blocks of the same session
    are 5 s, 5 s, 9 s, which is not strictly ascending, and the blocks are
    numbered 1 to 3 although there are two distinct start-times. *)
Lemma merge_times_not_strict :
  exists bl,
    merge_blocks cpython two_sources = Ok bl
    /\ e_time <$> bl = [key_5s; key_5s; key_9s]
    /\ ~ StronglySorted Z.lt (e_time <$> bl)
    /\ e_count <$> bl = [1; 2; 3]%nat
    /\ sorted_set (timestamps two_sources) = [key_5s; key_9s].
Proof.
  eexists. split; [vm_compute; reflexivity|].
  split; [reflexivity|]. split; [|split; reflexivity].
  intros H. apply StronglySorted_inv in H as [_ H].
  apply Forall_inv in H. vm_compute in H. discriminate.
Qed.

(** C6.  With the output encoding utf-16-be the file starts with the four
    bytes of the UTF-32 big-endian mark, not with the two bytes FE FF of the
    UTF-16 big-endian one. *)
Theorem merge_utf16be_writes_utf32_mark :
  let self := (add_file (init "." "out.srt" "utf-16-be") "en.srt").2 in
  exists content,
    (merge cpython disk self).2 !! resolve cpython "./out.srt" = Some content
    /\ take 6 content = BOM_UTF32_BE ++ [x00; x31]
    /\ take 2 content <> BOM_UTF16_BE.
Proof. eexists. vm_compute. split; [|split]; [reflexivity..|discriminate]. Qed.

(** With the generic encoding utf-16 the codec writes its own mark in
    front of every text it encodes, and [_insert_bom] adds one more: the
    file starts with two marks. *)
Lemma merge_utf16_two_marks :
  let self := (add_file (init "." "out.srt" "utf-16") "en.srt").2 in
  exists content,
    (merge cpython disk self).2 !! resolve cpython "./out.srt" = Some content
    /\ take 6 content = BOM_UTF16_LE ++ BOM_UTF16_LE ++ [x31; x00].
Proof. eexists. vm_compute. split; reflexivity. Qed.

(** C7, as stated, fails: on a session without a source [merge] raises an
    exception of the class [IndexError], not of a class
    [EmptySessionError]. *)
Lemma merge_empty_session_index_error :
  exists e self',
    merge cpython disk init_default = (Raise e, self', disk)
    /\ class_name e = "IndexError"
    /\ class_name e <> "EmptySessionError".
Proof. exists IndexError. eexists. split_and!; [reflexivity..|discriminate]. Qed.

(** C8, as stated, fails: a call of [merge] that writes its file returns
    [None], not the path. *)
Lemma merge_returns_none :
  let r := merge cpython disk one_source in
  r.1.1 = Ok None
  /\ is_Some (r.2 !! resolve cpython (get_output_path one_source))
  /\ r.1.1 <> Ok (Some (get_output_path one_source)).
Proof. vm_compute. split; [|split]; [reflexivity|eauto|discriminate]. Qed.

(** ** The timeline: [sorted_set] *)

Lemma elem_of_sorted_set (ts : list Z) (t : Z) : t ∈ sorted_set ts <-> t ∈ ts.
Proof.
  unfold sorted_set. rewrite merge_sort_Permutation, elem_of_elements.
  apply elem_of_list_to_set.
Qed.

Lemma NoDup_sorted_set (ts : list Z) : NoDup (sorted_set ts).
Proof.
  unfold sorted_set. rewrite merge_sort_Permutation. apply NoDup_elements.
Qed.

Lemma strict_of_NoDup (l : list Z) :
  StronglySorted Z.le l -> NoDup l -> StronglySorted Z.lt l.
Proof.
  induction 1 as [|x l Hl IH Hx]; intros Hnd; [constructor|].
  apply NoDup_cons in Hnd as [Hnotin Hnd].
  constructor; [auto|].
  rewrite Forall_forall in Hx |- *. intros y Hy.
  specialize (Hx y Hy). assert (x <> y) by (intros ->; auto). lia.
Qed.

Lemma sorted_set_strict (ts : list Z) : StronglySorted Z.lt (sorted_set ts).
Proof.
  apply strict_of_NoDup; [|apply NoDup_sorted_set].
  unfold sorted_set. apply StronglySorted_merge_sort; apply _.
Qed.

(** ** The schedule read off the sources *)

Lemma entry_at_lookup (subs : list subtitle) (t : Z) (i : nat) (d : string) :
  entry_at subs t i = Some d <->
  exists sub, subs !! i = Some sub /\ sub_dialogs sub !! t = Some d.
Proof.
  unfold entry_at. destruct (subs !! i) as [sub|]; simpl; [|split; [done|intros (? & ? & ?); done]]. split; [eauto|]. by intros (? & [= <-] & ?).
Qed.

Lemma contributions_app subs t l1 l2 :
  contributions subs t (l1 ++ l2)
  = contributions subs t l1 ++ contributions subs t l2.
Proof. unfold contributions. apply omap_app. Qed.

Lemma contributions_cons subs t i positions :
  contributions subs t (i :: positions)
  = match entry_at subs t i with
    | Some d => (t, i, d) :: contributions subs t positions
    | None => contributions subs t positions
    end.
Proof. unfold contributions. simpl. by destruct (entry_at subs t i). Qed.

Lemma contributions_ext subs subs' t positions :
  (forall i, i ∈ positions -> entry_at subs' t i = entry_at subs t i) ->
  contributions subs' t positions = contributions subs t positions.
Proof.
  induction positions as [|i l IH]; intros H; [done|].
  rewrite !contributions_cons, (H i) by left.
  rewrite IH; [done|]. intros j Hj. apply H. by right.
Qed.

Lemma elem_of_contributions subs t positions k :
  k ∈ contributions subs t positions <->
  exists i d, k = (t, i, d) /\ i ∈ positions /\ entry_at subs t i = Some d.
Proof.
  unfold contributions. rewrite list_elem_of_omap. split.
  - intros (i & Hi & Hk). destruct (entry_at subs t i) as [d|] eqn:E;
      simplify_eq/=. eauto.
  - intros (i & d & -> & Hi & E). exists i. rewrite E. done.
Qed.

Lemma schedule_cons subs t ts :
  schedule subs (t :: ts)
  = contributions subs t (all_positions subs) ++ schedule subs ts.
Proof. done. Qed.


Lemma elem_of_schedule subs ts k :
  k ∈ schedule subs ts <->
  exists i d, k = (k.1.1, i, d) /\ k.1.1 ∈ ts /\ (i < length subs)%nat
              /\ entry_at subs k.1.1 i = Some d.
Proof.
  unfold schedule. rewrite list_elem_of_bind. split.
  - intros (t & Hk & Ht). apply elem_of_contributions in Hk
      as (i & d & -> & Hi & E). exists i, d. simpl.
    unfold all_positions in Hi. apply elem_of_seq in Hi. split_and!; auto; lia.
  - intros (i & d & Hk & Ht & Hi & E). exists (k.1.1). split; [|done].
    apply elem_of_contributions. exists i, d. split_and!; auto.
    unfold all_positions. apply elem_of_seq. lia.
Qed.

Lemma schedule_ext subs subs' ts :
  length subs' = length subs ->
  (forall t i, t ∈ ts -> entry_at subs' t i = entry_at subs t i) ->
  schedule subs' ts = schedule subs ts.
Proof.
  intros Hlen. induction ts as [|t ts IH]; intros H; [done|].
  rewrite !schedule_cons. f_equal.
  - unfold all_positions. rewrite Hlen. apply contributions_ext.
    intros i _. apply H. left.
  - apply IH. intros t' i Ht'. apply H. by right.
Qed.

(** ** The loops of [merge] *)

Lemma loop_adds_refl st : loop_adds st st [].
Proof. unfold loop_adds. simpl. rewrite !app_nil_r. auto with lia. Qed.

Lemma loop_adds_trans st1 st2 st3 new1 new2 :
  loop_adds st1 st2 new1 -> loop_adds st2 st3 new2 ->
  loop_adds st1 st3 (new1 ++ new2).
Proof.
  intros (Hk1 & Hc1 & Hn1 & Hl1) (Hk2 & Hc2 & Hn2 & Hl2).
  unfold loop_adds. rewrite Hk2, Hk1, Hc2, Hc1, Hn2, Hn1, Hl2, Hl1.
  rewrite length_app, seq_app, <- !app_assoc. auto with lia.
Qed.

Lemma one_of_singleton (s x : string) : one_of s [x] = true -> s = x.
Proof.
  unfold one_of. intros H%bool_decide_eq_true. by apply list_elem_of_singleton.
Qed.

Lemma _insert_bom_returns P content encoding :
  bom_key encoding <> "UTF64BE" ->
  exists b, _insert_bom P content encoding = Ok b.
Proof.
  intros Hkey. unfold _insert_bom.
  destruct (one_of (bom_key encoding) ["UTF64BE"]) eqn:E.
  { by apply one_of_singleton in E. }
  repeat match goal with
         | |- context [if one_of ?a ?b then _ else _] => destruct (one_of a b)
         end; eexists; reflexivity.
Qed.

Lemma entry_at_insert_other subs i sub f t t' j :
  subs !! i = Some sub ->
  (forall m, t' <> t -> f m !! t' = m !! t') ->
  t' <> t \/ j <> i ->
  entry_at (<[i := set_dialogs f sub]> subs) t' j = entry_at subs t' j.
Proof.
  intros Hi Hf Hor. unfold entry_at. destruct (decide (j = i)) as [->|Hne].
  - destruct Hor as [Ht|]; [|done].
    rewrite list_lookup_insert_eq by eauto using lookup_lt_Some.
    rewrite Hi. simpl. auto.
  - by rewrite list_lookup_insert_ne.
Qed.

Section merge_loops.
Context (P : platform) (self : Merger).
Hypothesis Henc : encodes_counts P (output_encoding self).

Lemma merge_visit_spec (t : Z) (i : nat) (st : loop_state) :
  exists st',
    merge_visit P self t i st = (Ok tt, st')
    /\ loop_adds st st' (contributions (l_subtitles st) t [i])
    /\ forall t' j, t' <> t \/ j <> i ->
         entry_at (l_subtitles st') t' j = entry_at (l_subtitles st) t' j.
Proof.
  destruct Henc as ([n Hn] & Hnum & Hkey).
  unfold merge_visit. rewrite contributions_cons. unfold entry_at at 1.
  destruct (l_subtitles st !! i) as [sub|] eqn:Hsub; simpl;
    [|eauto using loop_adds_refl].
  destruct (sub_dialogs sub !! t) as [d|] eqn:Hd;
    [|eauto using loop_adds_refl].
  destruct (Hnum (l_count st)) as [num Hc]. rewrite Hn, Hc. simpl.
  destruct (_insert_bom_returns P num _ Hkey) as [head Hhead].
  rewrite Hhead.
  assert (forall subs',
    (subs' = l_subtitles st
     \/ subs' = <[i := set_dialogs (insert t (d +:+ nl)) sub]>
                  (l_subtitles st)) ->
    length subs' = length (l_subtitles st)
    /\ forall t' j, t' <> t \/ j <> i ->
         entry_at subs' t' j = entry_at (l_subtitles st) t' j) as Hsubs.
  { intros subs' [->| ->]; [done|]. split; [apply length_insert|].
    intros t' j Hor. apply entry_at_insert_other with (t := t); [done| |done].
    intros m Hne. by apply lookup_insert_ne. }
  destruct (l_count st =? 1)%nat; eexists; (split; [reflexivity|]); simpl.
  all: destruct (Hsubs (if endswith d nl then l_subtitles st
         else <[i := set_dialogs (insert t (d +:+ nl)) sub]> (l_subtitles st)))
         as [Hlen Hsame]; [destruct (endswith d nl); auto|].
  all: split; [|done].
  all: unfold loop_adds; simpl; rewrite !fmap_app; simpl.
  all: auto with lia.
Qed.

Lemma merge_sources_spec (t : Z) (positions : list nat) :
  NoDup positions ->
  forall st, exists st',
    merge_sources P self t positions st = (Ok tt, st')
    /\ loop_adds st st' (contributions (l_subtitles st) t positions)
    /\ forall t' j, t' <> t \/ j ∉ positions ->
         entry_at (l_subtitles st') t' j = entry_at (l_subtitles st) t' j.
Proof.
  induction positions as [|i l IH]; intros Hnd st; simpl.
  { eauto using loop_adds_refl. }
  apply NoDup_cons in Hnd as [Hi Hnd].
  destruct (merge_visit_spec t i st) as (st1 & -> & Hadd1 & Hsame1).
  destruct (IH Hnd st1) as (st' & -> & Hadd & Hsame).
  exists st'. split; [done|]. split.
  - pose proof (contributions_app (l_subtitles st) t [i] l) as Happ.
    simpl in Happ. rewrite Happ.
    eapply loop_adds_trans; [done|].
    erewrite <- contributions_ext; [done|].
    intros j Hj. apply Hsame1. right. intros ->. done.
  - intros t' j Hor. rewrite Hsame, Hsame1; [done| |].
    + destruct Hor as [|Hj]; [auto|]. right. intros ->. apply Hj. left.
    + destruct Hor as [|Hj]; [auto|]. right. intros Hl. apply Hj.
      by right.
Qed.

Lemma merge_times_spec (ts : list Z) :
  NoDup ts ->
  forall st, exists st',
    merge_times P self ts st = (Ok tt, st')
    /\ loop_adds st st' (schedule (l_subtitles st) ts)
    /\ forall t' j, t' ∉ ts ->
         entry_at (l_subtitles st') t' j = entry_at (l_subtitles st) t' j.
Proof.
  induction ts as [|t ts IH]; intros Hnd st.
  { simpl. eauto using loop_adds_refl. }
  cbn [merge_times].
  apply NoDup_cons in Hnd as [Ht Hnd].
  destruct (merge_sources_spec t (seq 0 (length (l_subtitles st)))
              (NoDup_seq _ _) st) as (st1 & -> & Hadd1 & Hsame1).
  destruct (IH Hnd st1) as (st' & -> & Hadd & Hsame).
  exists st'. split; [done|]. split.
  - rewrite schedule_cons. eapply loop_adds_trans; [done|].
    erewrite <- schedule_ext; [done|apply Hadd1|].
    intros t' j Ht'. apply Hsame1. left. intros ->. done.
  - intros t' j [Hne Hnotin]%not_elem_of_cons. rewrite Hsame by done.
    apply Hsame1. by left.
Qed.

(** The blocks of [merge]: one for each entry of the schedule over the
    sorted timeline, numbered from 1 on. *)
Lemma merge_blocks_spec :
  exists bl,
    merge_blocks P self = Ok bl
    /\ block_key <$> bl
       = schedule (subtitles self) (sorted_set (timestamps self))
    /\ e_count <$> bl = seq 1 (length bl).
Proof.
  unfold merge_blocks.
  destruct (merge_times_spec (sorted_set (timestamps self))
              (NoDup_sorted_set _)
              {| l_subtitles := subtitles self; l_lines := [];
                 l_count := 1 |})
    as (st' & -> & (Hk & Hc & _) & _).
  simpl in *. exists (l_lines st'). split; [done|]. split; [done|].
  rewrite Hc. f_equal. rewrite <- Hk. by rewrite length_fmap.
Qed.

End merge_loops.

(** ** Order and size of the schedule *)

Lemma seq_strict (a n : nat) : StronglySorted lt (seq a n).
Proof.
  revert a. induction n as [|n IH]; intros a; simpl; constructor; [auto|].
  apply Forall_forall. intros j Hj%elem_of_seq. lia.
Qed.

Lemma contributions_sorted subs t positions :
  StronglySorted lt positions ->
  StronglySorted key_lt (contributions subs t positions).
Proof.
  induction 1 as [|i l Hl IH Hi]; [constructor|].
  rewrite contributions_cons. destruct (entry_at subs t i) as [d|]; [|done].
  constructor; [done|]. apply Forall_forall.
  intros k (j & d' & -> & Hj & _)%elem_of_contributions.
  right. simpl. split; [done|]. rewrite Forall_forall in Hi. auto.
Qed.

Lemma schedule_sorted subs ts :
  StronglySorted Z.lt ts -> StronglySorted key_lt (schedule subs ts).
Proof.
  induction 1 as [|t ts Hts IH Ht]; [constructor|].
  rewrite schedule_cons. apply StronglySorted_app_2; [| |done].
  - intros k1 k2 (i & d & -> & _)%elem_of_contributions
      (j & d' & -> & Hin & _)%elem_of_schedule.
    left. simpl. rewrite Forall_forall in Ht. auto.
  - apply contributions_sorted, seq_strict.
Qed.

Lemma sorted_of_keys (bl : list emitted) :
  StronglySorted key_lt (block_key <$> bl) -> StronglySorted block_lt bl.
Proof.
  induction bl as [|e bl IH]; [constructor|].
  rewrite fmap_cons. intros [Hbl He]%StronglySorted_inv.
  constructor; [auto|]. rewrite Forall_fmap in He. done.
Qed.

Lemma block_lt_time_le (bl : list emitted) :
  StronglySorted block_lt bl -> StronglySorted Z.le (e_time <$> bl).
Proof.
  apply StronglySorted_fmap. intros e1 e2 [H|[H _]]; simpl in H; lia.
Qed.

(** The entries at [t], source by source, are as many as the sources that
    have one. *)
Lemma contributions_length_from (pre subs : list subtitle) (t : Z) :
  length (contributions (pre ++ subs) t (seq (length pre) (length subs)))
  = sources_at t subs.
Proof.
  revert pre. induction subs as [|sub subs IH]; intros pre; [done|].
  cbn [length seq]. rewrite contributions_cons.
  assert (entry_at (pre ++ sub :: subs) t (length pre) = sub_dialogs sub !! t)
    as ->.
  { unfold entry_at. by rewrite list_lookup_middle. }
  specialize (IH (pre ++ [sub])).
  rewrite <- app_assoc, length_app, Nat.add_1_r in IH. simpl in IH.
  unfold sources_at in *. cbn [sum_list_with].
  destruct (decide (is_Some (sub_dialogs sub !! t))) as [[d E]|E].
  - rewrite E. simpl. by rewrite IH.
  - apply eq_None_not_Some in E. rewrite E. by rewrite IH.
Qed.

Lemma contributions_length subs t :
  length (contributions subs t (all_positions subs)) = sources_at t subs.
Proof. apply (contributions_length_from [] subs t). Qed.

Lemma sum_sources_at_cons sub subs ts :
  sum_list_with (fun t => sources_at t (sub :: subs)) ts
  = (length (filter (fun t => is_Some (sub_dialogs sub !! t)) ts)
     + sum_list_with (fun t => sources_at t subs) ts)%nat.
Proof.
  induction ts as [|t ts IH]; [done|].
  cbn [sum_list_with]. rewrite IH, filter_cons.
  unfold sources_at at 1. cbn [sum_list_with]. fold (sources_at t subs).
  destruct (decide _); simpl; lia.
Qed.

Lemma count_keys (d : gmap Z string) (ts : list Z) :
  NoDup ts -> dom d ⊆ list_to_set ts ->
  length (filter (fun t => is_Some (d !! t)) ts) = size d.
Proof.
  intros Hnd Hdom. rewrite <- size_dom. unfold size, set_size. simpl.
  apply Permutation_length, NoDup_Permutation.
  - by apply NoDup_filter.
  - apply NoDup_elements.
  - intros t. rewrite list_elem_of_filter, elem_of_elements, elem_of_dom.
    split; [tauto|]. intros Ht. split; [done|].
    apply elem_of_dom in Ht. apply Hdom in Ht.
    by apply elem_of_list_to_set in Ht.
Qed.

Lemma schedule_length subs ts :
  NoDup ts ->
  Forall (fun sub => dom (sub_dialogs sub) ⊆ list_to_set ts) subs ->
  length (schedule subs ts) = total_entries subs.
Proof.
  intros Hnd Hcov.
  assert (length (schedule subs ts)
          = sum_list_with (fun t => sources_at t subs) ts) as ->.
  { clear. induction ts as [|t ts IH]; [done|].
    rewrite schedule_cons, length_app, contributions_length, IH. done. }
  induction Hcov as [|sub subs Hsub Hcov IH].
  - clear. induction ts as [|t ts IH]; [done|].
    cbn [sum_list_with]. by rewrite IH.
  - rewrite sum_sources_at_cons, IH, count_keys by done. done.
Qed.



(** ** The bytes of the blocks *)

Lemma merge_visit_bytes P self t i st r st' :
  merge_visit P self t i st = (r, st') ->
  Forall (block_bytes P self) (l_lines st) ->
  Forall (block_bytes P self) (l_lines st').
Proof.
  unfold merge_visit. intros Hvisit Hinv.
  destruct (l_subtitles st !! i) as [sub|]; [|by simplify_eq].
  destruct (sub_dialogs sub !! t) as [d|]; [|by simplify_eq].
  destruct (str_encode P nl (output_encoding self)) as [n|] eqn:Hn;
    [|destruct (l_count st =? 1)%nat;
      destruct (str_encode P (str (l_count st)) (output_encoding self));
      simpl in Hvisit; try destruct (_insert_bom _ _ _); by simplify_eq].
  destruct (str_encode P (str (l_count st)) (output_encoding self))
    as [num|] eqn:Hnum;
    [|destruct (l_count st =? 1)%nat; simpl in Hvisit; by simplify_eq].
  destruct (l_count st =? 1)%nat eqn:Hone; simpl in Hvisit.
  - destruct (_insert_bom P num (output_encoding self)) as [head|] eqn:Hhead;
      simplify_eq; simpl; [|done].
    apply Forall_app. split; [done|]. apply Forall_singleton.
    exists n, num. simpl. rewrite Hone. eauto.
  - simplify_eq. simpl. apply Forall_app. split; [done|].
    apply Forall_singleton. exists n, num. simpl. rewrite Hone. eauto.
Qed.

Lemma merge_sources_bytes P self t positions st r st' :
  merge_sources P self t positions st = (r, st') ->
  Forall (block_bytes P self) (l_lines st) ->
  Forall (block_bytes P self) (l_lines st').
Proof.
  revert st. induction positions as [|i l IH]; intros st; simpl.
  { by intros [= <- <-]. }
  destruct (merge_visit P self t i st) as [[[]|e] st1] eqn:Hv; intros H Hinv.
  - eapply IH; [done|]. eauto using merge_visit_bytes.
  - simplify_eq. eauto using merge_visit_bytes.
Qed.

Lemma merge_times_bytes P self ts st r st' :
  merge_times P self ts st = (r, st') ->
  Forall (block_bytes P self) (l_lines st) ->
  Forall (block_bytes P self) (l_lines st').
Proof.
  revert st. induction ts as [|t ts IH]; intros st; simpl.
  { by intros [= <- <-]. }
  destruct (merge_sources P self t _ st) as [[[]|e] st1] eqn:Hs; intros H Hinv.
  - eapply IH; [done|]. eauto using merge_sources_bytes.
  - simplify_eq. eauto using merge_sources_bytes.
Qed.

Lemma merge_blocks_bytes P self bl :
  merge_blocks P self = Ok bl -> Forall (block_bytes P self) bl.
Proof.
  unfold merge_blocks.
  destruct (merge_times _ _ _ _) as [[[]|e] st] eqn:H; intros [= <-].
  eapply merge_times_bytes; [done|]. constructor.
Qed.

(** ** Sessions without entries *)

Lemma merge_visit_no_entry P self t i st :
  Forall (fun sub => sub_dialogs sub = ∅) (l_subtitles st) ->
  merge_visit P self t i st = (Ok tt, st).
Proof.
  intros Hempty. unfold merge_visit.
  destruct (l_subtitles st !! i) as [sub|] eqn:Hsub; [|done].
  apply list_elem_of_lookup_2 in Hsub. rewrite Forall_forall in Hempty.
  by rewrite (Hempty _ Hsub), lookup_empty.
Qed.

Lemma merge_sources_no_entry P self t positions st :
  Forall (fun sub => sub_dialogs sub = ∅) (l_subtitles st) ->
  merge_sources P self t positions st = (Ok tt, st).
Proof.
  intros Hempty. induction positions as [|i l IH]; [done|].
  simpl. by rewrite merge_visit_no_entry.
Qed.

Lemma merge_times_no_entry P self ts st :
  Forall (fun sub => sub_dialogs sub = ∅) (l_subtitles st) ->
  merge_times P self ts st = (Ok tt, st).
Proof.
  intros Hempty. induction ts as [|t ts IH]; [done|].
  simpl. by rewrite merge_sources_no_entry.
Qed.

(** ** What [_split_dialogs] stores *)

Lemma append_assoc (a b c : string) : (a +:+ b) +:+ c = a +:+ b +:+ c.
Proof.
  induction a as [|x a IH]; [done|].
  change (String x ((a +:+ b) +:+ c) = String x (a +:+ b +:+ c)).
  by rewrite IH.
Qed.

Lemma _split_dialogs_skipped dialogs st color size top :
  Forall (fun dialog => read_cue dialog color size top = Skip) dialogs ->
  _split_dialogs dialogs st color size top = (Ok tt, st).
Proof.
  induction 1 as [|dialog l Hskip _ IH]; [done|]. simpl. by rewrite Hskip.
Qed.

(** The keys of the dict are appended to [self.timestamps], which only
    grows. *)
Lemma _split_dialogs_timeline dialogs st color size top r st' :
  _split_dialogs dialogs st color size top = (r, st') ->
  (exists new, st'.2 = st.2 ++ new)
  /\ (dom st.1 ⊆ list_to_set st.2 -> dom st'.1 ⊆ list_to_set st'.2).
Proof.
  revert st. induction dialogs as [|dialog l IH]; intros st; simpl.
  { intros [= <- <-]. split; [exists []; by rewrite app_nil_r|done]. }
  destruct (read_cue dialog color size top) as [| |time t text].
  - apply IH.
  - intros [= <- <-]. split; [exists []; by rewrite app_nil_r|done].
  - destruct (stored_entry st.1 time t text) as [v|].
    + intros [[new Hnew] Hdom]%IH. simpl in *. split.
      * exists ([t] ++ new). by rewrite Hnew, <- app_assoc.
      * intros Hst. apply Hdom. rewrite dom_insert, list_to_set_app.
        apply union_least; [|by apply union_subseteq_l'].
        apply union_subseteq_r'. intros x ->%elem_of_singleton.
        apply elem_of_list_to_set. left.
    + intros [= <- <-]. split; [exists []; by rewrite app_nil_r|done].
Qed.

Lemma stored_entry_shape d time t text v :
  stored_entry d time t text = Some v ->
  exists prev, v = time +:+ nl +:+ prev +:+ text +:+ nl.
Proof.
  unfold stored_entry. destruct (d !! t) as [old|].
  - destruct (split_chr LF (Some 2%nat) old !! 2%nat) as [rest|];
      simpl; intros [= <-].
    exists (strip rest +:+ nl). by rewrite append_assoc.
  - intros [= <-]. by exists "".
Qed.

(** ** The timeline covers the sources *)

Lemma init_timeline_covers path name encoding :
  timeline_covers (init path name encoding).
Proof. constructor. Qed.

Lemma add_timeline_covers P fs self address codec color size top :
  timeline_covers self ->
  timeline_covers (add P fs self address codec color size top).2.
Proof.
  unfold timeline_covers, add. intros Hcov.
  destruct (fs !! resolve P address) as [raw|]; [|done].
  destruct (bytes_decode P raw codec) as [data|]; [|done].
  destruct (_split_dialogs _ _ color size top) as [r [d ts]] eqn:Hsplit.
  apply _split_dialogs_timeline in Hsplit as [[new Hnew] Hdom].
  simpl in *. subst ts.
  assert (Forall (fun sub => dom (sub_dialogs sub)
                             ⊆ list_to_set (timestamps self ++ new))
            (subtitles self)) as Hold.
  { eapply Forall_impl; [done|]. intros sub Hsub. simpl in Hsub.
    rewrite list_to_set_app. by apply union_subseteq_l'. }
  destruct r; simpl; [|done].
  apply Forall_app. split; [done|]. apply Forall_singleton. simpl.
  apply Hdom. rewrite dom_empty. apply empty_subseteq.
Qed.

(** A file in which every block is skipped gives a source without entries
    and leaves [self.timestamps] as it was. *)
Lemma add_without_cue P fs self address codec color size top raw data :
  fs !! resolve P address = Some raw ->
  bytes_decode P raw codec = Ok data ->
  Forall (fun dialog => read_cue dialog color size top = Skip)
    (re_split_blank O data) ->
  let r := add P fs self address codec color size top in
  r.1 = Ok tt
  /\ timestamps r.2 = timestamps self
  /\ exists sub, subtitles r.2 = subtitles self ++ [sub] /\ sub_dialogs sub = ∅.
Proof.
  intros Hfile Hdata Hskip. unfold add.
  rewrite Hfile, Hdata, _split_dialogs_skipped by done. simpl. eauto.
Qed.

(** ** [merge] as a whole *)

Lemma trim_last_returns (ls : list bytes) :
  ls <> [] -> exists ls', trim_last ls = Ok ls' /\ ls' <> [].
Proof.
  intros Hne. unfold trim_last. destruct (last ls) as [b|] eqn:Hlast.
  - eexists. split; [done|]. intros H%app_eq_nil. by destruct H.
  - by apply last_None in Hlast.
Qed.

(** With a codec that encodes the numbers and the line break, a session
    with an entry on its timeline and a path that can be created, [merge]
    completes: it returns [None] and writes the trimmed blocks. *)
Lemma merge_completes P fs self :
  encodes_counts P (output_encoding self) ->
  schedule (subtitles self) (sorted_set (timestamps self)) <> [] ->
  creatable P (get_output_path self) = true ->
  exists bl ls self',
    merge_blocks P self = Ok bl
    /\ trim_last (e_dialog <$> bl) = Ok ls
    /\ merge P fs self
       = (Ok None, self', <[resolve P (get_output_path self) := concat ls]> fs)
    /\ lines self' = ls.
Proof.
  intros Henc Hne Hpath.
  destruct (merge_blocks_spec P self Henc) as (bl & Hbl & Hkeys & _).
  unfold merge, merge_blocks in *.
  destruct (merge_times _ _ _ _) as [[[]|e] st]; [|done].
  injection Hbl as ->.
  destruct (trim_last_returns (e_dialog <$> bl)) as (ls & Hls & _).
  { intros Hnil%fmap_nil_inv. subst bl. by rewrite <- Hkeys in Hne. }
  exists bl, ls. eexists. rewrite Hls.
  change (get_output_path (with_merge_state _ _ _ _))
    with (get_output_path self).
  rewrite Hpath. done.
Qed.

(** ** The claims *)

Lemma timeline_covers_sorted (self : Merger) :
  timeline_covers self ->
  Forall
    (fun sub =>
       dom (sub_dialogs sub) ⊆ list_to_set (sorted_set (timestamps self)))
    (subtitles self).
Proof.
  intros Hcov. eapply Forall_impl; [exact Hcov|].
  intros sub Hsub t Hin. simpl in Hsub.
  apply Hsub in Hin. rewrite elem_of_list_to_set in Hin |- *.
  by apply elem_of_sorted_set.
Qed.

Lemma schedule_nonempty (self : Merger) :
  timeline_covers self -> total_entries (subtitles self) <> 0%nat ->
  schedule (subtitles self) (sorted_set (timestamps self)) <> [].
Proof.
  intros Hcov Hsome Hnil. apply Hsome.
  rewrite <- (schedule_length (subtitles self) (sorted_set (timestamps self))).
  - by rewrite Hnil.
  - apply NoDup_sorted_set.
  - by apply timeline_covers_sorted.
Qed.

(** What a call of [merge] that completes has written: [self.lines] is
    the list of the blocks, one for each entry of the schedule, numbered
    from 1 on, each with its bytes, and the last one trimmed; the file
    holds the elements of [self.lines] one after the other. *)
Lemma merge_writes_blocks P fs self :
  encodes_counts P (output_encoding self) ->
  schedule (subtitles self) (sorted_set (timestamps self)) <> [] ->
  creatable P (get_output_path self) = true ->
  exists bl ls self',
    merge P fs self
    = (Ok None, self', <[resolve P (get_output_path self) := concat ls]> fs)
    /\ lines self' = ls
    /\ trim_last (e_dialog <$> bl) = Ok ls
    /\ block_key <$> bl
       = schedule (subtitles self) (sorted_set (timestamps self))
    /\ e_count <$> bl = seq 1 (length bl)
    /\ Forall (block_bytes P self) bl.
Proof.
  intros Henc Hne Hpath.
  destruct (merge_completes P fs self Henc Hne Hpath)
    as (bl & ls & self' & Hbl & Htrim & Hmerge & Hlines).
  destruct (merge_blocks_spec P self Henc) as (bl' & Hbl' & Hkeys & Hcount).
  rewrite Hbl in Hbl'. injection Hbl' as <-.
  exists bl, ls, self'. split_and!; try done.
  by apply merge_blocks_bytes.
Qed.


(** C2, amended.  With a codec that encodes the sequence numbers and the
    line break and an output path that can be created, [merge] on a
    session with at least one entry completes; [self.lines] holds the
    blocks, the last one trimmed of its final line break, and the file
    holds them one after the other.  The blocks stand in strictly
    ascending order of start-time and, within one start-time, of the
    position of the source: their start-times are ascending but repeat
    when several sources share one.  The bytes of the k-th block start
    with the number k (after the mark of [_insert_bom] for k = 1, after a
    line break otherwise) and go on with a line break and what [_encode]
    returns for the entry of that source at that start-time.  The numbers
    are 1 to N without gaps, where N is the total number of entries of the
    sources, one per source and start-time. *)
Theorem merge_blocks_order_and_numbers (P : platform) (fs : files)
    (self : Merger) :
  encodes_counts P (output_encoding self) ->
  creatable P (get_output_path self) = true ->
  timeline_covers self ->
  total_entries (subtitles self) <> 0%nat ->
  exists bl ls self',
    merge P fs self
    = (Ok None, self', <[resolve P (get_output_path self) := concat ls]> fs)
    /\ lines self' = ls
    /\ trim_last (e_dialog <$> bl) = Ok ls
    /\ Forall (block_bytes P self) bl
    /\ Forall
         (fun e =>
            entry_at (subtitles self) (e_time e) (e_source e)
            = Some (e_entry e))
         bl
    /\ StronglySorted block_lt bl
    /\ StronglySorted Z.le (e_time <$> bl)
    /\ e_count <$> bl = seq 1 (length bl)
    /\ length bl = total_entries (subtitles self).
Proof.
  intros Henc Hpath Hcov Hsome.
  destruct (merge_writes_blocks P fs self Henc) as
    (bl & ls & self' & Hmerge & Hlines & Htrim & Hkeys & Hcount & Hbytes);
    [by apply schedule_nonempty|done|].
  assert (StronglySorted block_lt bl) as Hsorted.
  { apply sorted_of_keys. rewrite Hkeys.
    apply schedule_sorted, sorted_set_strict. }
  exists bl, ls, self'.
  split_and!; [done|done|done|done| |done|by apply block_lt_time_le|done|].
  - apply Forall_forall. intros e He.
    apply (list_elem_of_fmap_2 block_key) in He. rewrite Hkeys in He.
    apply elem_of_schedule in He as (i & d & Hk & _ & _ & Hentry).
    unfold block_key in Hk. cbn [fst snd] in Hk, Hentry.
    by injection Hk as <- <-.
  - rewrite <- (length_fmap block_key), Hkeys.
    apply schedule_length; [apply NoDup_sorted_set|].
    by apply timeline_covers_sorted.
Qed.

(** C7, amended.  When no source of the session has an entry (no source at
    all, or only sources without a valid cue), [merge] appends nothing to
    [self.lines], fails on [self.lines[-1]] with the built-in
    [IndexError], and leaves the files as they were.  [main.py] has no
    test for an empty session and no error class of its own. *)
Theorem merge_empty_session_fails (P : platform) (fs : files) (self : Merger) :
  Forall (fun sub => sub_dialogs sub = ∅) (subtitles self) ->
  exists self',
    merge P fs self = (Raise IndexError, self', fs) /\ lines self' = [].
Proof.
  intros Hempty. unfold merge.
  rewrite merge_times_no_entry by done. simpl. eauto.
Qed.

(** C8, amended.  A call of [merge] that completes returns [None]; the
    file it has written is the one at [get_output_path()], the output
    directory and the output name joined by a slash unless the directory
    ends with one, and it holds the elements of [self.lines] one after the
    other. *)
Theorem merge_returns_none_and_writes (P : platform) (fs fs' : files)
    (self self' : Merger) (r : option string) :
  merge P fs self = (Ok r, self', fs') ->
  r = None
  /\ fs' = <[resolve P (get_output_path self) := concat (lines self')]> fs
  /\ lines self' <> []
  /\ get_output_path self
     = (if endswith (output_path self) "/"
        then output_path self +:+ output_name self
        else output_path self +:+ "/" +:+ output_name self).
Proof.
  unfold merge.
  destruct (merge_times _ _ _ _) as [[[]|e] st]; [|by intros [=]].
  destruct (trim_last _) as [ls|e] eqn:Hls; [|by intros [=]].
  change (get_output_path (with_merge_state _ _ _ _))
    with (get_output_path self).
  destruct (creatable P _); intros [= <- <- <-]. simpl.
  split_and!; [done|done| |done].
  unfold trim_last in Hls. destruct (last _); [|done].
  injection Hls as <-. intros H%app_eq_nil. by destruct H.
Qed.

(** ** The claims on the example sessions *)


Lemma merge_blocks_order_and_numbers_witness :
  (encodes_counts cpython (output_encoding two_sources)
   /\ creatable cpython (get_output_path two_sources) = true
   /\ timeline_covers two_sources
   /\ total_entries (subtitles two_sources) <> 0%nat)
  /\ exists bl ls self',
       merge cpython disk two_sources
       = (Ok None, self',
          <[resolve cpython (get_output_path two_sources) := concat ls]> disk)
       /\ lines self' = ls
       /\ trim_last (e_dialog <$> bl) = Ok ls
       /\ Forall (block_bytes cpython two_sources) bl
       /\ Forall
            (fun e =>
               entry_at (subtitles two_sources) (e_time e) (e_source e)
               = Some (e_entry e))
            bl
       /\ StronglySorted block_lt bl
       /\ StronglySorted Z.le (e_time <$> bl)
       /\ e_count <$> bl = seq 1 (length bl)
       /\ length bl = total_entries (subtitles two_sources).
Proof.
  assert (encodes_counts cpython (output_encoding two_sources)) as Henc.
  { split; [eexists; reflexivity|].
    split; [intros k; eexists; reflexivity|vm_compute; discriminate]. }
  assert (creatable cpython (get_output_path two_sources) = true) as Hpath
    by reflexivity.
  assert (timeline_covers two_sources) as Hcov.
  { apply (bool_decide_unpack _). vm_compute. exact I. }
  assert (total_entries (subtitles two_sources) <> 0%nat) as Hsome.
  { vm_compute. discriminate. }
  split; [split; [exact Henc|split; [exact Hpath|split; [exact Hcov|exact Hsome]]]|].
  exact (merge_blocks_order_and_numbers cpython disk two_sources Henc Hpath
           Hcov Hsome).
Defined.

Lemma merge_empty_session_fails_witness :
  Forall (fun sub => sub_dialogs sub = ∅) (subtitles blank_source)
  /\ exists self',
       merge cpython disk blank_source = (Raise IndexError, self', disk)
       /\ lines self' = [].
Proof.
  assert (Forall (fun sub => sub_dialogs sub = ∅) (subtitles blank_source))
    as Hempty.
  { apply (bool_decide_unpack _). vm_compute. exact I. }
  split; [exact Hempty|].
  exact (merge_empty_session_fails cpython disk blank_source Hempty).
Defined.

Lemma merge_returns_none_and_writes_witness :
  let m := merge cpython disk one_source in
  m = (Ok None, m.1.2, m.2)
  /\ None = (None : option string)
  /\ m.2 = <[resolve cpython (get_output_path one_source)
             := concat (lines m.1.2)]> disk
  /\ lines m.1.2 <> []
  /\ get_output_path one_source
     = (if endswith (output_path one_source) "/"
        then output_path one_source +:+ output_name one_source
        else output_path one_source +:+ "/" +:+ output_name one_source).
Proof.
  intros m.
  assert (m = (Ok None, m.1.2, m.2)) as Hm by (vm_compute; reflexivity).
  split; [exact Hm|].
  exact (merge_returns_none_and_writes cpython disk m.2 one_source m.1.2 None
           Hm).
Defined.

(** ** Text primitives *)

Lemma split_chr_none (c : ascii) (m : option nat) (s : string) :
  contains_chr c s = false -> split_chr c m s = [s].
Proof.
  induction s as [|a s IH]; [done|]. simpl.
  intros [Ha Hs]%orb_false_elim. rewrite Ha. simpl. by rewrite IH.
Qed.

Lemma split_chr_zero (c : ascii) (s : string) : split_chr c (Some O) s = [s].
Proof.
  induction s as [|a s IH]; [done|]. simpl. rewrite andb_false_r.
  by rewrite IH.
Qed.

Lemma split_chr_first (c : ascii) (n : nat) (a rest : string) :
  contains_chr c a = false ->
  split_chr c (Some (S n)) (a +:+ String c rest)
  = a :: split_chr c (Some n) rest.
Proof.
  induction a as [|x a IH]; intros Ha.
  - change ("" +:+ String c rest) with (String c rest). simpl.
    by rewrite Ascii.eqb_refl.
  - change (String x a +:+ String c rest) with (String x (a +:+ String c rest)).
    simpl in Ha. apply orb_false_elim in Ha as [Hx Ha].
    simpl. rewrite Hx. simpl. by rewrite IH.
Qed.

Lemma prefix_crlf_contains (s : string) :
  String.prefix crlf s = true -> contains_chr LF s = true.
Proof.
  destruct s as [|a [|b s]]; unfold crlf; cbn [String.prefix]; intros H;
    case_ascii_dec H.
  subst. reflexivity.
Qed.

Lemma prefix_nl_contains (s : string) :
  String.prefix nl s = true -> contains_chr LF s = true.
Proof.
  destruct s as [|a s]; unfold nl; cbn [String.prefix]; intros H;
    case_ascii_dec H.
  subst. reflexivity.
Qed.

(** ** Blocks that [_split_dialogs] skips or fails on *)

(** A block of one line, which has no timecode line, is skipped. *)
Lemma read_cue_one_line dialog color size top :
  contains_chr LF dialog = false -> read_cue dialog color size top = Skip.
Proof.
  intros Hno. unfold read_cue, startswith.
  destruct (String.prefix crlf dialog) eqn:Hcrlf.
  { apply prefix_crlf_contains in Hcrlf. congruence. }
  destruct (String.prefix nl dialog) eqn:Hnl.
  { apply prefix_nl_contains in Hnl. congruence. }
  destruct (_ || _); [done|]. rewrite Hcrlf.
  by rewrite split_chr_none.
Qed.

(** A block on which the second [try] fails ends [_split_dialogs] with the
    [AttributeError] of the handler, whatever follows it. *)
Lemma _split_dialogs_fail dialog rest st color size top :
  read_cue dialog color size top = Fail ->
  _split_dialogs (dialog :: rest) st color size top = (Raise AttributeError, st).
Proof. intros H. simpl. by rewrite H. Qed.

(** When the earlier cue at the same start-time had a text of one line, the
    entry stored for the later cue has an empty line in its place. *)
Lemma stored_entry_drops_one_line d t time0 text0 time text :
  contains_chr LF time0 = false ->
  contains_chr LF text0 = false ->
  d !! t = Some (time0 +:+ nl +:+ text0 +:+ nl) ->
  stored_entry d time t text = Some (time +:+ nl +:+ nl +:+ text +:+ nl).
Proof.
  intros Htime Htext Hd. unfold stored_entry. rewrite Hd.
  change (time0 +:+ nl +:+ text0 +:+ nl)
    with (time0 +:+ String LF (text0 +:+ String LF "")).
  rewrite !split_chr_first by done. rewrite split_chr_zero. done.
Qed.

(** ** The styling lines of [_split_dialogs] *)

(** The color token goes into the tag as it is. *)
Lemma apply_style_raw_color text c cs :
  apply_style text (Some (String c cs)) None false
  = font_color (String c cs) text.
Proof. done. Qed.

(** Styling a styled text wraps it again. *)
Lemma apply_style_twice text c cs :
  apply_style (apply_style text (Some (String c cs)) None false)
    (Some (String c cs)) None false
  = font_color (String c cs) (font_color (String c cs) text).
Proof. done. Qed.

(** ** The marks chosen by [_insert_bom] *)

Lemma _insert_bom_utf8 P content encoding :
  bom_key encoding = "UTF8" ->
  _insert_bom P content encoding = Ok (BOM_UTF8 ++ content).
Proof. unfold _insert_bom. by intros ->. Qed.

Lemma _insert_bom_utf16le P content encoding :
  bom_key encoding = "UTF16LE" -> little_endian P = true ->
  _insert_bom P content encoding = Ok (BOM_UTF16_LE ++ content).
Proof. unfold _insert_bom, BOM. by intros -> ->. Qed.

Lemma _insert_bom_utf32le P content encoding :
  bom_key encoding = "UTF32LE" ->
  _insert_bom P content encoding = Ok (BOM_UTF32_LE ++ content).
Proof. unfold _insert_bom. by intros ->. Qed.

Lemma _insert_bom_utf32be P content encoding :
  bom_key encoding = "UTF32BE" ->
  _insert_bom P content encoding = Ok (BOM_UTF32_BE ++ content).
Proof. unfold _insert_bom. by intros ->. Qed.

(** For UTF-16 big-endian the mark is the one of UTF-32 big-endian. *)
Lemma _insert_bom_utf16be P content encoding :
  bom_key encoding = "UTF16BE" ->
  _insert_bom P content encoding = Ok (BOM_UTF32_BE ++ content).
Proof. unfold _insert_bom. by intros ->. Qed.

Lemma _insert_bom_other P content encoding :
  bom_key encoding
  ∉ ["UTF64LE"; "UTF16"; "UTF16LE"; "UTF8"; "UTF32LE"; "UTF64BE"; "UTF16BE";
     "UTF32BE"; "UTF32"] ->
  _insert_bom P content encoding = Ok content.
Proof.
  intros Hnot. repeat (apply not_elem_of_cons in Hnot as [? Hnot]).
  unfold _insert_bom, one_of.
  repeat (rewrite bool_decide_eq_false_2
            by (repeat (apply not_elem_of_cons; split; [done|]);
                apply not_elem_of_nil)).
  done.
Qed.

(** ** [read_cue] on blocks of the usual form *)

Lemma prefix_head_ne (a b : ascii) (p s : string) :
  a <> b -> String.prefix (String a p) (String b s) = false.
Proof. intros Hne. cbn [String.prefix]. by destruct (ascii_dec a b). Qed.

Lemma isspace_not_LF (c : ascii) : isspace c = false -> LF <> c.
Proof. intros H <-. vm_compute in H. discriminate. Qed.

Lemma isspace_not_CR (c : ascii) : isspace c = false -> CR <> c.
Proof. intros H <-. vm_compute in H. discriminate. Qed.

Lemma rstrip_keeps_head (c : ascii) (r : string) :
  isspace c = false -> exists r', rstrip (String c r) = String c r'.
Proof.
  intros Hc. cbn [rstrip]. rewrite Hc. destruct (rstrip r); eauto.
Qed.

Lemma split_chr_first_all (c : ascii) (a rest : string) :
  contains_chr c a = false ->
  split_chr c None (a +:+ String c rest) = a :: split_chr c None rest.
Proof.
  induction a as [|x a IH]; intros Ha.
  - change ("" +:+ String c rest) with (String c rest). simpl.
    by rewrite Ascii.eqb_refl.
  - change (String x a +:+ String c rest) with (String x (a +:+ String c rest)).
    simpl in Ha. apply orb_false_elim in Ha as [Hx Ha].
    simpl. rewrite Hx. simpl. by rewrite IH.
Qed.

Lemma joined_lines_from (texts : list string) (acc : string) :
  fold_left (fun text t => text +:+ t +:+ nl) texts acc
  = acc +:+ joined_lines texts.
Proof.
  unfold joined_lines. revert acc.
  induction texts as [|t l IH]; intros acc; simpl.
  - clear. induction acc as [|a acc IH]; [done|].
    change (String a acc +:+ "") with (String a (acc +:+ "")). by rewrite <- IH.
  - rewrite IH, (IH (String.append "" _)). by rewrite append_assoc.
Qed.

Lemma joined_lines_cons (t : string) (l : list string) :
  joined_lines (t :: l) = t +:+ nl +:+ joined_lines l.
Proof.
  unfold joined_lines at 1. cbn [fold_left]. rewrite joined_lines_from.
  change ("" +:+ t +:+ nl) with (t +:+ nl). by rewrite append_assoc.
Qed.

(** Splitting a text at its line breaks and closing every piece with a
    line break gives the text and one more line break. *)
Lemma joined_lines_split (s : string) :
  joined_lines (split_chr LF None s) = s +:+ nl.
Proof.
  induction s as [|a s IH]; [done|]. cbn [split_chr]. simpl fmap.
  rewrite andb_true_r.
  destruct (Ascii.eqb a LF) eqn:Ha.
  - apply Ascii.eqb_eq in Ha as ->. rewrite joined_lines_cons, IH. done.
  - destruct (split_chr LF None s) as [|h t] eqn:Hsplit.
    { destruct s; simpl in Hsplit; [done|]. by repeat case_match. }
    rewrite joined_lines_cons in IH |- *.
    change (String a h +:+ nl +:+ joined_lines t)
      with (String a (h +:+ nl +:+ joined_lines t)).
    by rewrite IH.
Qed.

Lemma text_not_blank (body : string) :
  body <> "" ->
  String.eqb (body +:+ nl) "" || String.eqb (body +:+ nl) nl = false.
Proof.
  destruct body as [|b [|b' r]]; [done| |]; intros _.
  - change (String b "" +:+ nl) with (String b nl). unfold nl.
    cbn [String.eqb]. by destruct (Ascii.eqb b LF).
  - change (String b (String b' r) +:+ nl)
      with (String b (String b' (r +:+ nl))).
    unfold nl. cbn [String.eqb]. by destruct (Ascii.eqb b LF).
Qed.

Section usual_block.
Context (c : ascii) (n time body : string).
Hypothesis Hc : isspace c = false.
Hypothesis Hn : contains_chr LF (String c n) = false.
Hypothesis Htime : contains_chr LF time = false.

Lemma usual_block_not_blank :
  String.prefix crlf (block_of (String c n) time body) = false
  /\ String.prefix nl (block_of (String c n) time body) = false
  /\ String.eqb (block_of (String c n) time body) ""
     || String.eqb (block_of (String c n) time body) nl
     || String.eqb (lstrip (rstrip (block_of (String c n) time body))) ""
     = false.
Proof.
  unfold block_of.
  change (String c n +:+ nl +:+ time +:+ nl +:+ body)
    with (String c (n +:+ nl +:+ time +:+ nl +:+ body)).
  split; [apply prefix_head_ne; by apply isspace_not_CR|].
  split; [apply prefix_head_ne; by apply isspace_not_LF|].
  destruct (rstrip_keeps_head c (n +:+ nl +:+ time +:+ nl +:+ body) Hc)
    as [r' ->].
  cbn [lstrip]. rewrite Hc.
  assert (Ascii.eqb c LF = false) as Hne.
  { apply Ascii.eqb_neq. intros ->. done. }
  unfold nl. cbn [String.eqb]. by rewrite Hne.
Qed.

Lemma usual_block_lines :
  split_chr LF (Some 2%nat) (block_of (String c n) time body) !! 1%nat
  = Some time
  /\ split_chr LF (Some 1%nat) (block_of (String c n) time body) !! 1%nat
     = Some (time +:+ nl +:+ body).
Proof.
  unfold block_of.
  change (String c n +:+ nl +:+ time +:+ nl +:+ body)
    with (String c n +:+ String LF (time +:+ String LF body)).
  rewrite !split_chr_first by done. rewrite !split_chr_zero. done.
Qed.

(** A block whose second line does not start with a time makes the second
    [try] fail. *)
Lemma read_cue_unparsable color size top :
  strptime_key (strip (before "-->" time)) = None ->
  read_cue (block_of (String c n) time body) color size top = Fail.
Proof.
  intros Hparse. unfold read_cue, startswith.
  destruct usual_block_not_blank as (H1 & H2 & H3).
  destruct usual_block_lines as [H4 _].
  rewrite H1. cbv beta zeta iota. rewrite H2. cbv beta zeta iota.
  rewrite H3, H1. cbv beta zeta iota. rewrite H4. cbv beta zeta iota.
  by rewrite Hparse.
Qed.

(** A block with a sequence line, a timecode line whose start parses and a
    body gives a cue: its text is the body without trailing white space,
    styled. *)
Lemma read_cue_usual color size top key :
  strptime_key (strip (before "-->" time)) = Some key ->
  body <> "" ->
  read_cue (block_of (String c n) time body) color size top
  = Cue time key (apply_style (rstrip (body +:+ nl)) color size top).
Proof.
  intros Hparse Hbody. unfold read_cue, startswith.
  destruct usual_block_not_blank as (H1 & H2 & H3).
  destruct usual_block_lines as [H4 H5].
  rewrite H1. cbv beta zeta iota. rewrite H2. cbv beta zeta iota.
  rewrite H3, H1. cbv beta zeta iota. rewrite H4. cbv beta zeta iota.
  rewrite Hparse, H5.
  change (time +:+ nl +:+ body) with (time +:+ String LF body).
  rewrite split_chr_first_all by done. cbn [tail].
  rewrite joined_lines_split. by rewrite text_not_blank.
Qed.

(** [_split_dialogs] ends with [AttributeError] on a block whose second
    line does not start with a time, whatever follows the block. *)
Lemma _split_dialogs_unparsable rest st color size top :
  strptime_key (strip (before "-->" time)) = None ->
  _split_dialogs (block_of (String c n) time body :: rest) st color size top
  = (Raise AttributeError, st).
Proof.
  intros. apply _split_dialogs_fail. by apply read_cue_unparsable.
Qed.

(** For a source with one block of the usual form and any color token, the
    text is stored in a font tag that holds the token as it was given. *)
Lemma _split_dialogs_raw_color ts x cs key :
  strptime_key (strip (before "-->" time)) = Some key ->
  body <> "" ->
  _split_dialogs [block_of (String c n) time body] (∅, ts)
    (Some (String x cs)) None false
  = (Ok tt,
     ({[ key := time +:+ nl
                +:+ font_color (String x cs) (rstrip (body +:+ nl)) +:+ nl ]},
      ts ++ [key])).
Proof.
  intros Hparse Hbody. cbn [_split_dialogs].
  rewrite (read_cue_usual _ _ _ key) by done.
  unfold stored_entry. cbn [fst snd]. rewrite lookup_empty.
  by rewrite apply_style_raw_color.
Qed.

End usual_block.

(** ** [normalize_color] returns a canonical value *)

Lemma hex_digit_upper_hex (d : Z) :
  0 <= d < 16 -> is_hex_upper (hex_digit_upper d) = true.
Proof.
  intros H.
  assert (d = 0 \/ d = 1 \/ d = 2 \/ d = 3 \/ d = 4 \/ d = 5 \/ d = 6 \/ d = 7
          \/ d = 8 \/ d = 9 \/ d = 10 \/ d = 11 \/ d = 12 \/ d = 13 \/ d = 14
          \/ d = 15) as Hd by lia.
  repeat (destruct Hd as [->|Hd]; [reflexivity|]). by subst.
Qed.

Lemma hex_run_app (n m : nat) (a b : string) :
  hex_run n a = true -> hex_run m b = true -> hex_run (n + m) (a +:+ b) = true.
Proof.
  revert a. induction n as [|n IH]; intros [|x a]; try done.
  simpl. intros [Hx Ha]%andb_prop Hb.
  change (String x a +:+ b) with (String x (a +:+ b)). cbn [hex_run].
  rewrite Hx. simpl. auto.
Qed.

Lemma hex2_hex (n : Z) : 0 <= n <= 255 -> hex_run 2 (hex2 n) = true.
Proof.
  intros H. unfold hex2. cbn [hex_run].
  assert (0 <= n / 16 < 16) as Hhigh.
  { split; [apply Z.div_pos; lia|]. apply Z.div_lt_upper_bound; lia. }
  assert (0 <= n mod 16 < 16) as Hlow by (apply Z.mod_pos_bound; lia).
  by rewrite !hex_digit_upper_hex.
Qed.

Lemma digit_nonneg (c : ascii) (x : Z) : digit c = Some x -> 0 <= x.
Proof.
  unfold digit.
  destruct ((48 <=? nat_of_ascii c)%nat && (nat_of_ascii c <=? 57)%nat)
    eqn:Hc; [|done].
  apply andb_prop in Hc as [Hlow%Nat.leb_le _]. intros [= <-]. lia.
Qed.

Lemma digits_value_nonneg (ds : string) (acc : Z) :
  0 <= acc -> 0 <= digits_value acc ds.
Proof.
  revert acc. induction ds as [|c ds IH]; intros acc Hacc; [done|].
  cbn [digits_value]. apply IH.
  destruct (digit c) as [x|] eqn:Hc; cbv [default from_option id]; [|lia].
  pose proof (digit_nonneg _ _ Hc). lia.
Qed.

Lemma COLORS_canonical (k v : string) :
  COLORS !! k = Some v -> exists six, v = String "#" six /\ hex_run 6 six = true.
Proof.
  unfold COLORS. intros H%elem_of_list_to_map_2.
  repeat (apply elem_of_cons in H as [[= -> ->]|H];
          [eexists; split; reflexivity|]).
  by apply elem_of_nil in H.
Qed.

(** A color that [normalize_color] returns is a [#] followed by six
    upper-case hexadecimal digits. *)
Lemma normalize_color_canonical (P : platform) (color : option string)
    (h : string) :
  normalize_color P color = Ok (Some h) ->
  exists six, h = String "#" six /\ hex_run 6 six = true.
Proof.
  unfold normalize_color. destruct color as [[|c cs]|]; [done| |done].
  set (token := upper (strip (String c cs))).
  destruct (COLORS !! token) as [hex|] eqn:Hnamed.
  { intros [= <-]. eauto using COLORS_canonical. }
  destruct (startswith token "#" && hex_run 6 (drop 1 token)) eqn:Hhash.
  { intros [= <-]. apply andb_prop in Hhash as [Hp Hrun].
    destruct token as [|x rest]; [done|]. unfold startswith in Hp.
    cbn [String.prefix] in Hp. destruct (ascii_dec "#" x) as [<-|]; [|done].
    eauto. }
  destruct (hex_run 6 token) eqn:Hbare.
  { intros [= <-]. eauto. }
  assert (exists six, WHITE = String "#" six /\ hex_run 6 six = true) as Hwhite.
  { eexists. split; reflexivity. }
  destruct (rgb_match token) as [[[r g] b]|] eqn:Hrgb; [|by intros [= <-]].
  unfold int_of_digits.
  destruct (over_int_limit P (String.length r)); [done|].
  destruct (over_int_limit P (String.length g)); [done|].
  destruct (over_int_limit P (String.length b)); [done|].
  cbn [bind].
  pose proof (digits_value_nonneg r 0) as Hr.
  pose proof (digits_value_nonneg g 0) as Hg.
  pose proof (digits_value_nonneg b 0) as Hb.
  destruct ((digits_value 0 r <=? 255) && (digits_value 0 g <=? 255)
            && (digits_value 0 b <=? 255)) eqn:Hrange;
    [|by intros [= <-]].
  intros [= <-].
  apply andb_prop in Hrange as [[Hr'%Z.leb_le Hg'%Z.leb_le]%andb_prop
                                 Hb'%Z.leb_le].
  eexists. split; [done|].
  apply (hex_run_app 2 4); [apply hex2_hex; lia|].
  apply (hex_run_app 2 2); apply hex2_hex; lia.
Qed.

(** ** [_set_subtitle_style], the styling that [add] does not use *)

Lemma append_nil_r (s : string) : s +:+ "" = s.
Proof.
  induction s as [|a s IH]; [done|].
  change (String a s +:+ "") with (String a (s +:+ "")). by rewrite IH.
Qed.

Lemma contains_chr_app (c : ascii) (a b : string) :
  contains_chr c (a +:+ b) = contains_chr c a || contains_chr c b.
Proof.
  induction a as [|x a IH]; [done|].
  change (String x a +:+ b) with (String x (a +:+ b)). cbn [contains_chr].
  by rewrite IH, orb_assoc.
Qed.

Lemma hex_run_no_gt (n : nat) (s : string) :
  hex_run n s = true -> contains_chr ">" s = false.
Proof.
  revert s. induction n as [|n IH]; intros [|c s]; try done.
  cbn [hex_run contains_chr]. intros [Hc Hs]%andb_prop. rewrite (IH _ Hs).
  destruct (Ascii.eqb c ">") eqn:E; [|done].
  apply Ascii.eqb_eq in E as ->. vm_compute in Hc. discriminate.
Qed.

Lemma after_gt_app (a r : string) :
  contains_chr ">" a = false -> after_gt (a +:+ String ">" r) = Some r.
Proof.
  induction a as [|x a IH]; [done|].
  change (String x a +:+ String ">" r) with (String x (a +:+ String ">" r)).
  cbn [contains_chr after_gt]. intros [-> Ha]%orb_false_elim. auto.
Qed.

Lemma prefix_append (p rest : string) : String.prefix p (p +:+ rest) = true.
Proof.
  induction p as [|x p IH]; [by destruct rest|].
  change (String x p +:+ rest) with (String x (p +:+ rest)).
  cbn [String.prefix]. by destruct (ascii_dec x x).
Qed.

Lemma until_close_unfold (s : string) :
  until_close s
  = if String.prefix "</font>" s then Some (EmptyString, drop 7 s)
    else
      match s with
      | EmptyString => None
      | String c r =>
          if Ascii.eqb c LF then None
          else '(g, rest) ← until_close r; Some (String c g, rest)
      end.
Proof. by destruct s. Qed.

Lemma until_close_plain (body rest : string) :
  contains_chr "<" body = false -> contains_chr LF body = false ->
  until_close (body +:+ "</font>" +:+ rest) = Some (body, rest).
Proof.
  induction body as [|b body IH].
  { intros _ _. rewrite until_close_unfold.
    change ("" +:+ "</font>" +:+ rest) with ("</font>" +:+ rest).
    by rewrite prefix_append. }
  change (String b body +:+ "</font>" +:+ rest)
    with (String b (body +:+ "</font>" +:+ rest)).
  cbn [contains_chr]. intros [Hlt Hbody]%orb_false_elim
                             [Hlf Hbody']%orb_false_elim.
  rewrite until_close_unfold, prefix_head_ne, Hlf, IH by
    (done || (intros <-; by rewrite Ascii.eqb_refl in Hlt)). done.
Qed.

Lemma sub_font_skip (s : string) (k : nat) :
  (String.length s <= k)%nat -> sub_font k s = "".
Proof.
  revert k. induction s as [|a s IH]; intros k; [done|].
  destruct k as [|k]; simpl; [lia|]. intros H. apply IH. lia.
Qed.

Lemma sub_font_plain (s : string) :
  contains_chr "<" s = false -> sub_font O s = s.
Proof.
  induction s as [|a s IH]; [done|].
  cbn [contains_chr]. intros [Ha Hs]%orb_false_elim.
  cbn [sub_font]. rewrite prefix_head_ne, IH; [done|done|].
  intros <-. by rewrite Ascii.eqb_refl in Ha.
Qed.

Lemma sub_font_unfold (c : ascii) (r : string) :
  sub_font O (String c r)
  = match
      (if String.prefix "<font" (String c r)
       then after_gt (drop 5 (String c r)) ≫= until_close
       else None)
    with
    | Some (g, rest) => g +:+ sub_font (String.length r - String.length rest) r
    | None => String c (sub_font O r)
    end.
Proof. done. Qed.

(** One font tag around a one-line text without tags is removed. *)
Lemma sub_font_one_tag (attrs body : string) :
  contains_chr ">" attrs = false ->
  contains_chr "<" body = false -> contains_chr LF body = false ->
  sub_font O ("<font" +:+ attrs +:+ ">" +:+ body +:+ "</font>") = body.
Proof.
  intros Hattrs Hlt Hlf.
  pose proof (until_close_plain body "" Hlt Hlf) as Hclose.
  pose proof (after_gt_app attrs (body +:+ "</font>") Hattrs) as Hgt.
  change ("</font>" +:+ "") with "</font>" in Hclose.
  set (inner := attrs +:+ ">" +:+ body +:+ "</font>").
  change (attrs +:+ String ">" (body +:+ "</font>")) with inner in Hgt.
  pose proof (prefix_append "<font" inner) as Hprefix.
  change ("<font" +:+ inner)
    with (String "<" (String "f" (String "o" (String "n" (String "t" inner)))))
    in Hprefix |- *.
  rewrite sub_font_unfold, Hprefix.
  change (drop 5 (String "<" (String "f" (String "o" (String "n"
            (String "t" inner)))))) with inner.
  rewrite Hgt. simpl mbind. rewrite Hclose.
  rewrite sub_font_skip by (simpl; lia). apply append_nil_r.
Qed.

Lemma wrap_nonempty (style sub wrapped : string) :
  style <> "" ->
  match style with
  | EmptyString => sub
  | String _ _ => wrapped
  end = wrapped.
Proof. by destruct style. Qed.

(** * Further properties of [main.py] *)

(** ** [normalize_color] *)

Lemma all_chars_app (p : ascii -> bool) (a b : string) :
  all_chars p (a +:+ b) = all_chars p a && all_chars p b.
Proof.
  induction a as [|x a IH]; [done|].
  change (String x a +:+ b) with (String x (a +:+ b)). cbn [all_chars].
  by rewrite IH, andb_assoc.
Qed.

Lemma all_chars_impl (p q : ascii -> bool) (s : string) :
  (forall c, p c = true -> q c = true) ->
  all_chars p s = true -> all_chars q s = true.
Proof.
  intros Hpq. induction s as [|a s IH]; [done|]. cbn [all_chars].
  intros [Ha Hs]%andb_prop. by rewrite (Hpq _ Ha), IH.
Qed.

Lemma rstrip_no_space (s : string) : no_space s = true -> rstrip s = s.
Proof.
  unfold no_space. induction s as [|a s IH]; [done|]. cbn [all_chars rstrip].
  intros [Ha Hs]%andb_prop. rewrite (IH Hs).
  apply negb_true_iff in Ha. rewrite Ha. by destruct s.
Qed.

Lemma strip_no_space (s : string) : no_space s = true -> strip s = s.
Proof.
  intros H. unfold strip. rewrite rstrip_no_space by done.
  destruct s as [|a s]; [done|]. unfold no_space in H. cbn [all_chars] in H.
  apply andb_prop in H as [Ha%negb_true_iff _]. cbn [lstrip]. by rewrite Ha.
Qed.

Lemma upper_no_lower (s : string) : no_lower s = true -> upper s = s.
Proof.
  unfold no_lower. induction s as [|a s IH]; [done|]. cbn [all_chars upper].
  intros [Ha%Ascii.eqb_eq Hs]%andb_prop. by rewrite Ha, IH.
Qed.

(** The characters of a canonical color and of a decimal number are neither
    white space nor lower-case letters. *)
Lemma hex_char_plain (c : ascii) :
  is_hex_upper c = true ->
  negb (isspace c) = true /\ Ascii.eqb (upper_char c) c = true.
Proof.
  destruct c as [[] [] [] [] [] [] [] []]; vm_compute; intros H;
    try discriminate H; done.
Qed.

Lemma digit_char_plain (c : ascii) (x : Z) :
  digit c = Some x ->
  negb (isspace c) = true /\ Ascii.eqb (upper_char c) c = true.
Proof.
  destruct c as [[] [] [] [] [] [] [] []]; vm_compute; intros H;
    try discriminate H; done.
Qed.

Lemma hex_run_all (n : nat) (s : string) :
  hex_run n s = true -> all_chars is_hex_upper s = true.
Proof.
  revert s. induction n as [|n IH]; intros [|c s]; try done.
  cbn [hex_run all_chars]. intros [-> Hs]%andb_prop. by rewrite IH.
Qed.

Lemma canonical_plain (six : string) :
  hex_run 6 six = true ->
  no_space (String "#" six) = true /\ no_lower (String "#" six) = true.
Proof.
  intros H%hex_run_all. unfold no_space, no_lower. cbn [all_chars].
  split; (rewrite (all_chars_impl is_hex_upper); [done| |done]);
    intros c Hc; by apply hex_char_plain.
Qed.

Lemma COLORS_named (k v : string) :
  COLORS !! k = Some v ->
  exists c r, k = String c r /\ (65 <=? nat_of_ascii c)%nat = true.
Proof.
  unfold COLORS. intros H%elem_of_list_to_map_2.
  repeat (apply elem_of_cons in H as [[= -> ->]|H];
          [eexists _, _; split; reflexivity|]).
  by apply elem_of_nil in H.
Qed.

Lemma COLORS_not_named (c : ascii) (r : string) :
  (65 <=? nat_of_ascii c)%nat = false -> COLORS !! String c r = None.
Proof.
  intros Hc. destruct (COLORS !! String c r) as [v|] eqn:E; [|done].
  apply COLORS_named in E as (c' & r' & [= <- <-] & Hc'). congruence.
Qed.

(** X1.  The outcomes of [normalize_color].  It returns [None] exactly
    for an absent or empty token and, for every other token, recognised or
    not, a [#] followed by six upper-case hexadecimal digits.  It raises
    nothing but the [ValueError] of [int], and that only for a token of
    the form [(r,g,b)] one of whose components has more digits than the
    interpreter accepts. *)
Theorem normalize_color_outcomes (P : platform) (color : option string) :
  match normalize_color P color with
  | Ok None => color = None \/ color = Some ""
  | Ok (Some h) =>
      color <> None /\ color <> Some ""
      /\ exists six, h = String "#" six /\ hex_run 6 six = true
  | Raise e =>
      e = ValueError
      /\ exists token r g b,
           color = Some token
           /\ rgb_match (upper (strip token)) = Some (r, g, b)
           /\ over_int_limit P (String.length r)
              || over_int_limit P (String.length g)
              || over_int_limit P (String.length b) = true
  end.
Proof.
  destruct (normalize_color P color) as [[h|]|e] eqn:Hh.
  - split_and!; [by intros ->|by intros ->|].
    by apply normalize_color_canonical in Hh.
  - unfold normalize_color in Hh. destruct color as [[|c cs]|]; auto.
    set (token := upper (strip (String c cs))) in *.
    destruct (COLORS !! token); [done|].
    destruct (startswith token "#" && hex_run 6 (drop 1 token)); [done|].
    destruct (hex_run 6 token); [done|].
    destruct (rgb_match token) as [[[r g] b]|]; [|done].
    unfold int_of_digits in Hh.
    destruct (over_int_limit P (String.length r)); [done|].
    destruct (over_int_limit P (String.length g)); [done|].
    destruct (over_int_limit P (String.length b)); [done|].
    cbn [bind] in Hh. by destruct (_ && _).
  - unfold normalize_color in Hh. destruct color as [[|c cs]|]; [done| |done].
    set (token := upper (strip (String c cs))) in *.
    destruct (COLORS !! token); [done|].
    destruct (startswith token "#" && hex_run 6 (drop 1 token)); [done|].
    destruct (hex_run 6 token); [done|].
    destruct (rgb_match token) as [[[r g] b]|] eqn:Hrgb; [|done].
    assert (e = ValueError
            /\ over_int_limit P (String.length r)
               || over_int_limit P (String.length g)
               || over_int_limit P (String.length b) = true) as [-> Hlong].
    { unfold int_of_digits in Hh.
      destruct (over_int_limit P (String.length r)).
      { by injection Hh as <-. }
      destruct (over_int_limit P (String.length g)).
      { by injection Hh as <-. }
      destruct (over_int_limit P (String.length b)).
      { by injection Hh as <-. }
      cbn [bind] in Hh. by destruct (_ && _). }
    split; [done|]. by exists (String c cs), r, g, b.
Qed.

(** CPython, which lets [int] read 4300 digits, takes a component of 4300
    digits and refuses one of 4301. *)
Lemma normalize_color_long_component :
  normalize_color cpython (Some (long_rgb_token 4300)) = Ok (Some "#000000")
  /\ normalize_color cpython (Some (long_rgb_token 4301)) = Raise ValueError.
Proof. split; vm_compute; reflexivity. Qed.

(** X2.  A canonical color is a fixed point: normalizing the result of
    [normalize_color] again gives the same result. *)
Theorem normalize_color_idempotent (P : platform) (color : option string) :
  bind (normalize_color P color) (normalize_color P) = normalize_color P color.
Proof.
  destruct (normalize_color P color) as [[h|]|e] eqn:Hh; [|done..].
  apply normalize_color_canonical in Hh as (six & -> & Hsix).
  destruct (canonical_plain six Hsix) as [Hspace Hlower].
  cbn [bind]. unfold normalize_color, startswith.
  rewrite strip_no_space, upper_no_lower by done.
  rewrite COLORS_not_named by done.
  change (String.prefix "#" (String "#" six)) with (String.prefix "" six).
  assert (String.prefix "" six = true) as -> by by destruct six.
  cbn [drop]. by rewrite Hsix.
Qed.

Lemma more_digits_uint (d : Decimal.uint) (rest : string) :
  (forall c r, rest = String c r -> digit c = None) ->
  more_digits (NilEmpty.string_of_uint d +:+ rest)
  = (NilEmpty.string_of_uint d, rest).
Proof.
  intros Hrest.
  induction d as [|d IH|d IH|d IH|d IH|d IH|d IH|d IH|d IH|d IH|d IH].
  { change (NilEmpty.string_of_uint Decimal.Nil +:+ rest) with rest.
    destruct rest as [|c r]; [done|]. cbn [more_digits].
    by rewrite (Hrest c r). }
  all: cbn [NilEmpty.string_of_uint].
  all: match goal with
       | |- context [String ?k ?x +:+ ?y] =>
           change (String k x +:+ y) with (String k (x +:+ y))
       end.
  all: cbn [more_digits].
  all: match goal with
       | |- context [digit ?k] =>
           let v := eval vm_compute in (digit k) in
           change (digit k) with v
       end.
  all: cbv iota beta; by rewrite IH.
Qed.

Lemma digits1_str (n : nat) (rest : string) :
  (forall c r, rest = String c r -> digit c = None) ->
  digits1 (str n +:+ rest) = Some (str n, rest).
Proof.
  intros Hrest. unfold str, digits1.
  destruct (Nat.to_uint n) as [|d|d|d|d|d|d|d|d|d|d].
  { change (NilZero.string_of_uint Decimal.Nil +:+ rest) with (String "0" rest).
    cbn [more_digits]. change (digit "0") with (Some 0). cbv iota beta.
    pose proof (more_digits_uint Decimal.Nil rest Hrest) as H.
    change (NilEmpty.string_of_uint Decimal.Nil +:+ rest) with rest in H.
    by rewrite H. }
  all: unfold NilZero.string_of_uint; by rewrite more_digits_uint.
Qed.

Lemma digits_value_uint (d : Decimal.uint) (a : nat) :
  digits_value (Z.of_nat a) (NilEmpty.string_of_uint d)
  = Z.of_nat (Nat.of_uint_acc d a).
Proof.
  revert a.
  induction d as [|d IH|d IH|d IH|d IH|d IH|d IH|d IH|d IH|d IH|d IH];
    intros a; [done|..].
  all: cbn [NilEmpty.string_of_uint Nat.of_uint_acc digits_value].
  all: match goal with
       | |- context [digit ?k] =>
           let v := eval vm_compute in (digit k) in
           change (digit k) with v
       end.
  all: cbv [default from_option id]; rewrite <- IH; f_equal.
  all: rewrite Nat.tail_mul_spec; lia.
Qed.

Lemma digits_value_str (n : nat) : digits_value 0 (str n) = Z.of_nat n.
Proof.
  unfold str. rewrite <- (DecimalNat.Unsigned.of_to n) at 2.
  pose proof (digits_value_uint (Nat.to_uint n) 0) as H.
  change (Z.of_nat 0) with 0 in H.
  destruct (Nat.to_uint n) as [|d|d|d|d|d|d|d|d|d|d]; [done|..];
    exact H.
Qed.

(** A number up to 255 has at most three digits, which every limit of
    [int] allows. *)
Lemma str_short (P : platform) (n : nat) :
  (n <= 255)%nat -> over_int_limit P (String.length (str n)) = false.
Proof.
  intros Hn.
  assert (forallb (fun k => (String.length (str k) <=? 3)%nat)
            (List.seq 0 256) = true) as Hall by (vm_compute; reflexivity).
  rewrite List.forallb_forall in Hall.
  assert (String.length (str n) <= 3)%nat as Hlen.
  { apply Nat.leb_le, Hall, List.in_seq. lia. }
  unfold over_int_limit. destruct (int_str_limit P) as [k|]; [|done].
  apply Nat.ltb_ge. lia.
Qed.

Lemma str_plain (n : nat) :
  no_space (str n) = true /\ no_lower (str n) = true
  /\ exists c r, str n = String c r /\ (65 <=? nat_of_ascii c)%nat = false.
Proof.
  unfold str.
  assert (forall d,
    no_space (NilEmpty.string_of_uint d) = true
    /\ no_lower (NilEmpty.string_of_uint d) = true) as Hall.
  { induction d as [|d [? ?]|d [? ?]|d [? ?]|d [? ?]|d [? ?]|d [? ?]|d [? ?]
                    |d [? ?]|d [? ?]|d [? ?]]; [done|..];
      unfold no_space, no_lower in *; cbn [NilEmpty.string_of_uint all_chars];
      split; by apply andb_true_intro. }
  destruct (Nat.to_uint n) as [|d|d|d|d|d|d|d|d|d|d] eqn:E.
  { split_and!; [done|done|]. by eexists _, _. }
  all: destruct (Hall (Nat.to_uint n)) as [H1 H2]; rewrite E in H1, H2.
  all: split_and!; [done|done|]; by eexists _, _.
Qed.

Lemma hex_value_digit (d : Z) :
  0 <= d < 16 -> hex_value (hex_digit_upper d) = Some d.
Proof.
  intros H.
  assert (d = 0 \/ d = 1 \/ d = 2 \/ d = 3 \/ d = 4 \/ d = 5 \/ d = 6 \/ d = 7
          \/ d = 8 \/ d = 9 \/ d = 10 \/ d = 11 \/ d = 12 \/ d = 13 \/ d = 14
          \/ d = 15) as Hd by lia.
  repeat (destruct Hd as [->|Hd]; [reflexivity|]). by subst.
Qed.

Lemma hex_pair_hex2 (n : Z) :
  0 <= n <= 255 ->
  exists a b, hex2 n = String a (String b "") /\ hex_pair a b = Some n.
Proof.
  intros H. unfold hex2. eexists _, _. split; [done|]. unfold hex_pair.
  assert (0 <= n / 16 < 16) as Hhigh.
  { split; [apply Z.div_pos; lia|]. apply Z.div_lt_upper_bound; lia. }
  assert (0 <= n mod 16 < 16) as Hlow by (apply Z.mod_pos_bound; lia).
  rewrite !hex_value_digit by done. simpl. f_equal.
  pose proof (Z.div_mod n 16). lia.
Qed.

(** X3.  A token [(r,g,b)] with components from 0 to 255 is normalized to
    the color whose three pairs of hexadecimal digits are [r], [g] and [b]:
    reading the pairs back gives the components. *)
Theorem normalize_color_rgb_round_trip (P : platform) (r g b : nat) :
  (r <= 255)%nat -> (g <= 255)%nat -> (b <= 255)%nat ->
  exists h,
    normalize_color P (Some (rgb_token r g b)) = Ok (Some h)
    /\ hex_components h = Some (Z.of_nat r, Z.of_nat g, Z.of_nat b).
Proof.
  intros Hr Hg Hb.
  destruct (str_plain r) as (Hr1 & Hr2 & cr & sr & Er & _).
  destruct (str_plain g) as (Hg1 & Hg2 & cg & sg & Eg & _).
  destruct (str_plain b) as (Hb1 & Hb2 & cb & sb & Eb & _).
  assert (no_space (rgb_token r g b) = true) as Hspace.
  { unfold rgb_token, no_space in *. rewrite !all_chars_app.
    by rewrite Hr1, Hg1, Hb1. }
  assert (no_lower (rgb_token r g b) = true) as Hlower.
  { unfold rgb_token, no_lower in *. rewrite !all_chars_app.
    by rewrite Hr2, Hg2, Hb2. }
  assert (forall n rest, lstrip (str n +:+ rest) = str n +:+ rest) as Hlstrip.
  { intros n rest. destruct (str_plain n) as (Hn & _ & c & s & E & _).
    rewrite E in Hn |- *. unfold no_space in Hn. cbn [all_chars] in Hn.
    apply andb_prop in Hn as [Hc%negb_true_iff _].
    change (String c s +:+ rest) with (String c (s +:+ rest)).
    cbn [lstrip]. by rewrite Hc. }
  assert (rgb_match (rgb_token r g b) = Some (str r, str g, str b)) as Hmatch.
  { unfold rgb_match, rgb_token.
    change (expect "(" ("(" +:+ str r +:+ "," +:+ str g +:+ "," +:+ str b
                        +:+ ")"))
      with (Some (str r +:+ "," +:+ str g +:+ "," +:+ str b +:+ ")")).
    cbn [mbind option_bind].
    rewrite digits1_str by (by intros ? ? [= <- <-]). cbn [mbind option_bind].
    change (expect "," ("," +:+ str g +:+ "," +:+ str b +:+ ")"))
      with (Some (str g +:+ "," +:+ str b +:+ ")")).
    cbn [mbind option_bind]. rewrite Hlstrip.
    rewrite digits1_str by (by intros ? ? [= <- <-]). cbn [mbind option_bind].
    change (expect "," ("," +:+ str b +:+ ")")) with (Some (str b +:+ ")")).
    cbn [mbind option_bind]. rewrite Hlstrip.
    rewrite digits1_str by (by intros ? ? [= <- <-]). done. }
  destruct (hex_pair_hex2 (Z.of_nat r)) as (r1 & r2 & Er2 & Hr3); [lia|].
  destruct (hex_pair_hex2 (Z.of_nat g)) as (g1 & g2 & Eg2 & Hg3); [lia|].
  destruct (hex_pair_hex2 (Z.of_nat b)) as (b1 & b2 & Eb2 & Hb3); [lia|].
  exists ("#" +:+ hex2 (Z.of_nat r) +:+ hex2 (Z.of_nat g) +:+ hex2 (Z.of_nat b)).
  split.
  - unfold normalize_color, startswith.
    change (rgb_token r g b)
      with (String "(" (str r +:+ "," +:+ str g +:+ "," +:+ str b +:+ ")"))
      at 1.
    cbv iota beta.
    change (String "(" (str r +:+ "," +:+ str g +:+ "," +:+ str b +:+ ")"))
      with (rgb_token r g b).
    rewrite strip_no_space, upper_no_lower by done. rewrite Hmatch.
    change (rgb_token r g b)
      with (String "(" (str r +:+ "," +:+ str g +:+ "," +:+ str b +:+ ")")).
    rewrite COLORS_not_named by done. cbn [String.prefix hex_run].
    change (is_hex_upper "(") with false.
    destruct (ascii_dec "#" "(") as [[=]|_]. cbn [andb].
    unfold int_of_digits. rewrite !str_short, !digits_value_str by done.
    cbn [bind].
    assert ((Z.of_nat r <=? 255) = true) as -> by (apply Z.leb_le; lia).
    assert ((Z.of_nat g <=? 255) = true) as -> by (apply Z.leb_le; lia).
    assert ((Z.of_nat b <=? 255) = true) as -> by (apply Z.leb_le; lia).
    done.
  - rewrite Er2, Eg2, Eb2. cbn [hex_components String.append].
    change ("#" +:+ String r1 (String r2 "") +:+ String g1 (String g2 "")
            +:+ String b1 (String b2 ""))
      with (String "#" (String r1 (String r2 (String g1 (String g2
              (String b1 (String b2 ""))))))).
    cbn [hex_components]. rewrite Hr3, Hg3, Hb3. done.
Qed.

Lemma normalize_color_rgb_round_trip_witness :
  ((255 <= 255)%nat /\ (165 <= 255)%nat /\ (0 <= 255)%nat)
  /\ exists h,
       normalize_color cpython (Some (rgb_token 255 165 0)) = Ok (Some h)
       /\ hex_components h = Some (255, 165, 0).
Proof.
  assert ((255 <= 255)%nat) as Hr by lia.
  assert ((165 <= 255)%nat) as Hg by lia.
  assert ((0 <= 255)%nat) as Hb by lia.
  split; [done|].
  exact (normalize_color_rgb_round_trip cpython 255 165 0 Hr Hg Hb).
Defined.

(** ** [_insert_bom] *)

(** X4.  [_insert_bom] fails for one spelling only, the name that reads
    UTF64BE once hyphens, underscores and spaces are removed and letters
    are made capitals, and then with [AttributeError]; for every other
    name it returns the content unchanged after one of the marks of
    [codecs], or after none. *)
Theorem _insert_bom_mark_or_error (P : platform) (content : bytes)
    (encoding : string) :
  match _insert_bom P content encoding with
  | Ok b =>
      bom_key encoding <> "UTF64BE"
      /\ exists mark,
           b = mark ++ content
           /\ mark ∈ [[]; BOM_UTF8; BOM_UTF16_LE; BOM_UTF16_BE; BOM_UTF32_LE;
                      BOM_UTF32_BE]
  | Raise e => e = AttributeError /\ bom_key encoding = "UTF64BE"
  end.
Proof.
  unfold _insert_bom, BOM, BOM_UTF32.
  assert (forall l,
    one_of (bom_key encoding) l = true -> one_of "UTF64BE" l = false ->
    bom_key encoding <> "UTF64BE") as Hne.
  { intros l Hin Hout Heq. rewrite Heq in Hin. congruence. }
  destruct (one_of _ ["UTF64LE"; "UTF16"; "UTF16LE"]) eqn:E1.
  { split; [by eapply Hne|]. eexists. split; [done|].
    destruct (little_endian P); by apply (bool_decide_unpack _). }
  destruct (one_of _ ["UTF8"]) eqn:E2.
  { split; [by eapply Hne|]. eexists. split; [done|]. by apply (bool_decide_unpack _). }
  destruct (one_of _ ["UTF32LE"]) eqn:E3.
  { split; [by eapply Hne|]. eexists. split; [done|]. by apply (bool_decide_unpack _). }
  destruct (one_of _ ["UTF64BE"]) eqn:E4.
  { split; [done|]. by apply one_of_singleton. }
  assert (bom_key encoding <> "UTF64BE") as Hkey.
  { intros Heq. by rewrite Heq in E4. }
  repeat match goal with
         | |- context [if one_of ?a ?b then _ else _] => destruct (one_of a b)
         end.
  - split; [done|]. eexists. split; [done|]. by apply (bool_decide_unpack _).
  - split; [done|]. eexists. split; [done|]. by apply (bool_decide_unpack _).
  - split; [done|]. eexists. split; [done|].
    destruct (little_endian P); by apply (bool_decide_unpack _).
  - split; [done|]. exists []. split; [done|]. by apply (bool_decide_unpack _).
Qed.

(** ** [_put_subtitle_top] *)

Lemma an_match_bel (s : string) :
  an_match s = true -> contains_chr BEL s = true.
Proof.
  destruct s as [|a [|b [|c [|d [|e [|f s]]]]]]; try done.
  cbn [an_match contains_chr]. intros H.
  repeat apply andb_prop in H as [H ?]. 
  assert (Ascii.eqb c BEL = true) as -> by done.
  by rewrite !orb_true_r.
Qed.

Lemma sub_an_plain (s : string) :
  contains_chr BEL s = false -> sub_an O s = s.
Proof.
  induction s as [|a s IH]; [done|]. intros Hs.
  cbn [sub_an]. destruct (an_match (String a s)) eqn:E.
  { apply an_match_bel in E. congruence. }
  cbn [contains_chr] in Hs. apply orb_false_elim in Hs as [_ Hs].
  by rewrite IH.
Qed.

(** X5.  [_put_subtitle_top] does not remove an alignment tag that is
    already there: its pattern asks for the character BEL where the tag
    has the letter [a].  On a text without that character the method only
    puts the tag in front, and a second call puts a second tag. *)
Theorem _put_subtitle_top_keeps_tag (subtitle : string) :
  contains_chr BEL subtitle = false ->
  _put_subtitle_top subtitle = an8 +:+ subtitle
  /\ _put_subtitle_top (_put_subtitle_top subtitle)
     = an8 +:+ an8 +:+ subtitle.
Proof.
  intros Hs. unfold _put_subtitle_top.
  rewrite (sub_an_plain subtitle) by done. split; [done|].
  rewrite sub_an_plain; [done|].
  rewrite contains_chr_app, Hs. done.
Qed.

Lemma _put_subtitle_top_keeps_tag_witness :
  contains_chr BEL "Hi" = false
  /\ _put_subtitle_top "Hi" = an8 +:+ "Hi"
  /\ _put_subtitle_top (_put_subtitle_top "Hi") = an8 +:+ an8 +:+ "Hi".
Proof.
  assert (contains_chr BEL "Hi" = false) as H by (vm_compute; reflexivity).
  split; [exact H|].
  exact (_put_subtitle_top_keeps_tag "Hi" H).
Defined.

(** ** [_set_subtitle_style] with a size *)

Lemma uint_no_gt (d : Decimal.uint) :
  contains_chr ">" (NilEmpty.string_of_uint d) = false.
Proof.
  induction d as [|d IH|d IH|d IH|d IH|d IH|d IH|d IH|d IH|d IH|d IH];
    [done|..]; cbn [NilEmpty.string_of_uint contains_chr]; by rewrite IH.
Qed.

Lemma fmt_int_no_gt (size : option Z) :
  contains_chr ">" (fmt_int size) = false.
Proof.
  destruct size as [n|]; [|done]. unfold fmt_int.
  destruct (Z.to_int n) as [d|d]; unfold NilZero.string_of_int.
  - unfold NilZero.string_of_uint. destruct d; try done; apply uint_no_gt.
  - cbn [contains_chr]. unfold NilZero.string_of_uint.
    destruct d; try done; apply uint_no_gt.
Qed.

Lemma join_space_no_gt (l : list string) :
  Forall (fun a => contains_chr ">" a = false) l ->
  contains_chr ">" (join_space l) = false.
Proof.
  induction 1 as [|a l Ha Hl IH]; [done|].
  destruct l as [|b l]; [done|].
  change (join_space (a :: b :: l)) with (a +:+ " " +:+ join_space (b :: l)).
  rewrite (contains_chr_app _ a), Ha.
  change (" " +:+ join_space (b :: l)) with (String " " (join_space (b :: l))).
  cbn [contains_chr]. by rewrite IH.
Qed.

Lemma style_no_gt (c : option string) (size : option Z) :
  (forall h, c = Some h ->
     exists six, h = String "#" six /\ hex_run 6 six = true) ->
  contains_chr ">"
    (join_space
       ((if truthy_str c
         then ["color=" +:+ dquote +:+ fmt_str c +:+ dquote] else [])
        ++ (if truthy_int size
            then ["size=" +:+ dquote +:+ fmt_int size +:+ dquote] else [])))
  = false.
Proof.
  intros Hc. apply join_space_no_gt, Forall_app. split.
  - destruct c as [h|]; [|constructor].
    destruct (Hc h eq_refl) as (six & -> & Hsix).
    cbn [truthy_str fmt_str default]. constructor; [|constructor].
    rewrite !contains_chr_app. cbn [contains_chr id].
    rewrite (hex_run_no_gt _ _ Hsix). done.
  - destruct (truthy_int size); constructor; [|constructor].
    rewrite !contains_chr_app, fmt_int_no_gt. done.
Qed.

(** On a one-line text without tags, when [normalize_color] returns:
    [_set_subtitle_style] returns a styled text, on which it returns the
    same text again. *)
Lemma _set_subtitle_style_plain (P : platform) (body : string)
    (color c : option string) (size : option Z) :
  normalize_color P color = Ok c ->
  contains_chr "<" body = false -> contains_chr LF body = false ->
  exists styled,
    _set_subtitle_style P body color size = Ok styled
    /\ _set_subtitle_style P styled color size = Ok styled
    /\ (size = None ->
        styled = match c with Some h => font_color h body | None => body end).
Proof.
  intros Hcolor Hlt Hlf.
  assert (forall h, c = Some h ->
            exists six, h = String "#" six /\ hex_run 6 six = true) as Hc.
  { intros h ->. eauto using normalize_color_canonical. }
  set (style :=
    join_space
      ((if truthy_str c
        then ["color=" +:+ dquote +:+ fmt_str c +:+ dquote] else [])
       ++ (if truthy_int size
           then ["size=" +:+ dquote +:+ fmt_int size +:+ dquote] else []))).
  assert (forall text,
    _set_subtitle_style P text color size
    = Ok match style with
         | EmptyString => sub_font O text
         | _ => "<font " +:+ style +:+ ">" +:+ sub_font O text +:+ "</font>"
         end) as Hstyle.
  { intros text. unfold _set_subtitle_style. by rewrite Hcolor. }
  pose proof (style_no_gt c size Hc) as Hgt. fold style in Hgt.
  eexists. split; [by rewrite Hstyle, (sub_font_plain body)|].
  split.
  - rewrite Hstyle. f_equal.
    destruct style as [|x style'] eqn:Estyle; [by rewrite sub_font_plain|].
    change ("<font " +:+ String x style' +:+ ">" +:+ body +:+ "</font>")
      with ("<font" +:+ String " " (String x style') +:+ ">" +:+ body
            +:+ "</font>").
    rewrite sub_font_one_tag; [done| |done..].
    cbn [contains_chr] in Hgt |- *. done.
  - intros ->. subst style. destruct c as [h|]; [|done].
    destruct (Hc h eq_refl) as (six & -> & _).
    cbn [truthy_str truthy_int fmt_str default app join_space].
    rewrite wrap_nonempty by (intros H; discriminate H).
    unfold font_color. by rewrite !append_assoc.
Qed.

(** On a one-line text without tags [_set_subtitle_style] wraps the text
    in a font tag with the normalized color, and a second pass gives the
    same text as the first. *)
Lemma _set_subtitle_style_twice (P : platform) (body : string)
    (color : option string) :
  contains_chr "<" body = false -> contains_chr LF body = false ->
  _set_subtitle_style P body color None
  = bind (normalize_color P color) (fun c =>
      Ok match c with
         | Some h => font_color h body
         | None => body
         end)
  /\ bind (_set_subtitle_style P body color None)
       (fun once => _set_subtitle_style P once color None)
     = _set_subtitle_style P body color None.
Proof.
  intros Hlt Hlf.
  destruct (normalize_color P color) as [c|e] eqn:Hcolor.
  - destruct (_set_subtitle_style_plain P body color c None Hcolor Hlt Hlf)
      as (styled & -> & Hagain & Hshape).
    cbn [bind]. by rewrite Hagain, Hshape.
  - unfold _set_subtitle_style. by rewrite Hcolor.
Qed.

(** On a text of two lines the second pass of [_set_subtitle_style] wraps
    again: a tag is not matched across a line break. *)
Lemma _set_subtitle_style_two_lines :
  let body := "a" +:+ nl +:+ "b" in
  _set_subtitle_style cpython body default_color None
  = Ok (font_color "#FFFFFF" body)
  /\ _set_subtitle_style cpython (font_color "#FFFFFF" body) default_color
       None
     = Ok (font_color "#FFFFFF" (font_color "#FFFFFF" body)).
Proof. vm_compute. auto. Qed.

(** X6.  On a one-line text without tags [_set_subtitle_style] is
    idempotent for every color and every size: a second call with the same
    arguments removes the font tag of the first and puts the same tag
    back.  A call that raises, for a color that [normalize_color] rejects,
    raises for both. *)
Theorem _set_subtitle_style_idempotent (P : platform) (body : string)
    (color : option string) (size : option Z) :
  contains_chr "<" body = false -> contains_chr LF body = false ->
  bind (_set_subtitle_style P body color size)
    (fun once => _set_subtitle_style P once color size)
  = _set_subtitle_style P body color size.
Proof.
  intros Hlt Hlf.
  destruct (normalize_color P color) as [c|e] eqn:Hcolor.
  - destruct (_set_subtitle_style_plain P body color c size Hcolor Hlt Hlf)
      as (styled & -> & Hagain & _).
    done.
  - unfold _set_subtitle_style. by rewrite Hcolor.
Qed.

Lemma _set_subtitle_style_idempotent_witness :
  (contains_chr "<" "Hi" = false /\ contains_chr LF "Hi" = false)
  /\ bind (_set_subtitle_style cpython "Hi" (Some "yellow") (Some 20))
       (fun once => _set_subtitle_style cpython once (Some "yellow") (Some 20))
     = _set_subtitle_style cpython "Hi" (Some "yellow") (Some 20).
Proof.
  assert (contains_chr "<" "Hi" = false) as H1 by (vm_compute; reflexivity).
  assert (contains_chr LF "Hi" = false) as H2 by (vm_compute; reflexivity).
  split; [done|].
  exact (_set_subtitle_style_idempotent cpython "Hi" (Some "yellow") (Some 20)
           H1 H2).
Defined.

(** ** [add] on a file of cues *)

Lemma rstrip_nl (s : string) : rstrip (s +:+ nl) = rstrip s.
Proof.
  induction s as [|a s IH]; [done|].
  change (String a s +:+ nl) with (String a (s +:+ nl)).
  cbn [rstrip]. by rewrite IH.
Qed.

Lemma no_blank_line_from_end (prev : bool) (a : string) :
  no_blank_line_from prev (a +:+ nl) = false.
Proof.
  revert prev. induction a as [|x a IH]; intros prev.
  - change ("" +:+ nl) with nl. unfold nl. cbn [no_blank_line_from].
    rewrite Ascii.eqb_refl. apply andb_false_r.
  - change (String x a +:+ nl) with (String x (a +:+ nl)).
    cbn [no_blank_line_from]. rewrite !IH.
    destruct (Ascii.eqb x LF); [apply andb_false_r|done].
Qed.

Lemma prefix_lflf (rest : string) :
  String.prefix sep_lflf (String LF (String LF rest)) = true.
Proof. apply (prefix_append sep_lflf rest). Qed.

Lemma prefix_crlfcr_ne (x : ascii) (s : string) :
  Ascii.eqb x CR = false -> String.prefix sep_crlfcr (String x s) = false.
Proof.
  intros Hx. apply prefix_head_ne. intros <-. by rewrite Ascii.eqb_refl in Hx.
Qed.

Lemma prefix_lflf_ne (x : ascii) (s : string) :
  Ascii.eqb x LF = false -> String.prefix sep_lflf (String x s) = false.
Proof.
  intros Hx. apply prefix_head_ne. intros <-. by rewrite Ascii.eqb_refl in Hx.
Qed.

Lemma prefix_lflf_second (d : ascii) (s : string) :
  Ascii.eqb d LF = false ->
  String.prefix sep_lflf (String LF (String d s)) = false.
Proof.
  intros Hd. unfold sep_lflf. cbn [String.prefix].
  destruct (ascii_dec LF LF); [|done].
  apply prefix_head_ne. intros <-. by rewrite Ascii.eqb_refl in Hd.
Qed.

(** A text without CR and without empty line is one piece for [re.split],
    up to the empty line that follows it. *)
Lemma re_split_blank_piece (a rest : string) (prev : bool) :
  contains_chr CR a = false -> no_blank_line_from prev a = true ->
  re_split_blank O (a +:+ String LF (String LF rest))
  = a :: re_split_blank O rest.
Proof.
  revert prev. induction a as [|x a IH]; intros prev Hcr Hblank.
  - change ("" +:+ String LF (String LF rest))
      with (String LF (String LF rest)).
    cbn [re_split_blank]. by rewrite prefix_crlfcr_ne, prefix_lflf.
  - change (String x a +:+ String LF (String LF rest))
      with (String x (a +:+ String LF (String LF rest))).
    cbn [contains_chr] in Hcr. apply orb_false_elim in Hcr as [Hx Hcr].
    cbn [no_blank_line_from] in Hblank.
    cbn [re_split_blank]. rewrite prefix_crlfcr_ne by done.
    destruct (Ascii.eqb x LF) eqn:Hlf.
    + apply andb_prop in Hblank as [_ Hblank].
      apply Ascii.eqb_eq in Hlf as ->.
      destruct a as [|d a]; [done|].
      assert (Ascii.eqb d LF = false) as Hd.
      { cbn [no_blank_line_from] in Hblank.
        by destruct (Ascii.eqb d LF). }
      change (String d a +:+ String LF (String LF rest))
        with (String d (a +:+ String LF (String LF rest))) at 1.
      rewrite prefix_lflf_second by done.
      by rewrite (IH true).
    + rewrite prefix_lflf_ne by done. by rewrite (IH false).
Qed.

Lemma re_split_blank_last (a : string) (prev : bool) :
  contains_chr CR a = false -> no_blank_line_from prev a = true ->
  re_split_blank O (a +:+ nl) = [a +:+ nl].
Proof.
  revert prev. induction a as [|x a IH]; intros prev Hcr Hblank; [done|].
  change (String x a +:+ nl) with (String x (a +:+ nl)).
  cbn [contains_chr] in Hcr. apply orb_false_elim in Hcr as [Hx Hcr].
  cbn [no_blank_line_from] in Hblank.
  cbn [re_split_blank]. rewrite prefix_crlfcr_ne by done.
  destruct (Ascii.eqb x LF) eqn:Hlf.
  - apply andb_prop in Hblank as [_ Hblank].
    apply Ascii.eqb_eq in Hlf as ->.
    destruct a as [|d a]; [done|].
    assert (Ascii.eqb d LF = false) as Hd.
    { cbn [no_blank_line_from] in Hblank. by destruct (Ascii.eqb d LF). }
    change (String d a +:+ nl) with (String d (a +:+ nl)) at 1.
    rewrite prefix_lflf_second by done.
    by rewrite (IH true).
  - rewrite prefix_lflf_ne by done. by rewrite (IH false).
Qed.

(** What [cue_key] asks of a cue. *)
Lemma cue_key_usual (q : cue_src) (key : Z) :
  cue_key q = Some key ->
  (exists c n, c_seq q = String c n /\ isspace c = false
               /\ contains_chr LF (String c n) = false)
  /\ contains_chr LF (c_time q) = false
  /\ contains_chr CR (cue_block q) = false
  /\ no_blank_line (cue_block q) = true
  /\ strptime_key (strip (before "-->" (c_time q))) = Some key
  /\ c_body q <> "".
Proof.
  unfold cue_key.
  destruct (_ && _) eqn:Hq; [|done]. intros Hkey.
  repeat apply andb_prop in Hq as [Hq ?].
  repeat match goal with
         | H : negb _ = true |- _ => apply negb_true_iff in H
         end.
  split_and!; try done.
  - destruct (c_seq q) as [|c n] eqn:Hseq; [done|].
    exists c, n. by apply negb_true_iff in Hq.
  - intros Hbody.
    assert (no_blank_line (cue_block q) = false) as Hno; [|congruence].
    unfold cue_block, block_of, no_blank_line. rewrite Hbody.
    change (nl +:+ "") with nl. rewrite <- !append_assoc.
    apply no_blank_line_from_end.
Qed.

Lemma re_split_blank_srt_text (cues : list cue_src) :
  Forall (fun q => is_Some (cue_key q)) cues ->
  re_split_blank O (srt_text cues) = srt_blocks cues.
Proof.
  induction 1 as [|q rest [key Hq] _ IH]; [done|].
  apply cue_key_usual in Hq as (_ & _ & Hcr & Hblank & _ & _).
  destruct rest as [|q' rest].
  - by apply (re_split_blank_last _ true).
  - change (srt_text (q :: q' :: rest))
      with (cue_block q +:+ String LF (String LF (srt_text (q' :: rest)))).
    rewrite (re_split_blank_piece _ _ true) by done. by rewrite IH.
Qed.

(** A cue gives the same result with its closing line break as without. *)
Lemma read_cue_cue (q : cue_src) (key : Z) color size top :
  cue_key q = Some key ->
  read_cue (cue_block q) color size top
  = Cue (c_time q) key (apply_style (rstrip (c_body q)) color size top)
  /\ read_cue (cue_block q +:+ nl) color size top
     = Cue (c_time q) key (apply_style (rstrip (c_body q)) color size top).
Proof.
  intros Hq.
  apply cue_key_usual in Hq
    as ((c & n & Hseq & Hc & Hn) & Htime & _ & _ & Hkey & Hbody).
  unfold cue_block. rewrite Hseq. split.
  - rewrite (read_cue_usual c n _ _ Hc Hn Htime _ _ _ key) by done.
    by rewrite rstrip_nl.
  - assert (block_of (String c n) (c_time q) (c_body q) +:+ nl
            = block_of (String c n) (c_time q) (c_body q +:+ nl)) as ->.
    { unfold block_of. by rewrite !append_assoc. }
    rewrite (read_cue_usual c n _ _ Hc Hn Htime _ _ _ key); [|done|].
    + by rewrite !rstrip_nl.
    + by destruct (c_body q).
Qed.

Lemma _split_dialogs_srt_blocks (cues : list cue_src) (keys : list Z)
    (m : gmap Z string) (ts : list Z) color size top :
  cue_key <$> cues = Some <$> keys ->
  NoDup keys ->
  (forall k, k ∈ keys -> m !! k = None) ->
  _split_dialogs (srt_blocks cues) (m, ts) color size top
  = (Ok tt,
     (list_to_map (zip keys (cue_entry color size top <$> cues)) ∪ m,
      ts ++ keys)).
Proof.
  revert keys m ts. induction cues as [|q rest IH]; intros keys m ts Hk Hnd Hm.
  { destruct keys; [|done]. cbn. by rewrite (left_id_L ∅ (∪)), app_nil_r. }
  destruct keys as [|key keys]; [done|].
  injection Hk as Hq Hrest.
  destruct (read_cue_cue q key color size top Hq) as [Hcue Hlast].
  apply NoDup_cons in Hnd as [Hnotin Hnd].
  assert (stored_entry m (c_time q) key
            (apply_style (rstrip (c_body q)) color size top)
          = Some (cue_entry color size top q)) as Hstore.
  { unfold stored_entry. rewrite Hm; [done|]. by left. }
  assert ((list_to_map (zip keys (cue_entry color size top <$> rest))
           : gmap Z string) !! key = None) as Hfresh.
  { apply not_elem_of_list_to_map_1. intros Hin. apply Hnotin.
    apply list_elem_of_fmap in Hin as ([k v] & -> & Hin%elem_of_zip_l). done. }
  destruct rest as [|q' rest].
  - destruct keys; [|done].
    cbn [srt_blocks _split_dialogs]. rewrite Hlast. cbn [fst snd].
    rewrite Hstore. cbn [fmap list_fmap zip zip_with list_to_map foldr].
    rewrite insert_empty.
    rewrite <- insert_union_singleton_l. done.
  - change (srt_blocks (q :: q' :: rest))
      with (cue_block q :: srt_blocks (q' :: rest)).
    cbn [_split_dialogs]. rewrite Hcue. cbn [fst snd]. rewrite Hstore.
    rewrite (IH keys); [|done|done|].
    + f_equal. f_equal.
      * cbn [fmap list_fmap zip zip_with list_to_map foldr].
        change (foldr _ _ _)
          with (list_to_map
                  (zip keys (cue_entry color size top <$> (q' :: rest)))
                : gmap Z string).
        rewrite <- insert_union_r by done.
        by rewrite insert_union_l.
      * by rewrite <- app_assoc.
    + intros k Hin. rewrite lookup_insert_ne; [apply Hm; by right|].
      intros <-. done.
Qed.

(** X7.  [add] reads every cue of a well-formed file.  For a file of cues
    of the usual form (sequence line, timecode line whose start parses,
    body without empty line, LF line ends, one empty line between cues)
    whose start-times are all different, [add] returns, appends the
    start-times to [self.timestamps] in the order of the file, and appends
    one source whose dict holds, for each cue, the timecode line and the
    body without trailing white space, styled. *)
Theorem add_reads_every_cue (P : platform) (fs : files) (self : Merger)
    (address codec : string) (color : option string) (size : option Z)
    (top : bool) (raw : bytes) (cues : list cue_src) (keys : list Z) :
  fs !! resolve P address = Some raw ->
  bytes_decode P raw codec = Ok (srt_text cues) ->
  cue_key <$> cues = Some <$> keys ->
  NoDup keys ->
  exists self' sub,
    add P fs self address codec color size top = (Ok tt, self')
    /\ timestamps self' = timestamps self ++ keys
    /\ subtitles self' = subtitles self ++ [sub]
    /\ sub_dialogs sub
       = list_to_map (zip keys (cue_entry color size top <$> cues)).
Proof.
  intros Hfile Hdata Hkeys Hnd. unfold add. rewrite Hfile, Hdata.
  rewrite re_split_blank_srt_text.
  - rewrite (_split_dialogs_srt_blocks cues keys) by done.
    eexists _, _. split; [done|]. cbn.
    by rewrite (right_id_L ∅ (∪)).
  - apply Forall_forall. intros q Hq.
    apply (list_elem_of_fmap_2 cue_key) in Hq. rewrite Hkeys in Hq.
    apply list_elem_of_fmap in Hq as (k & -> & _). done.
Qed.

Lemma add_reads_every_cue_witness :
  (disk !! resolve cpython "fr.srt" = Some (file_of fr_srt)
   /\ bytes_decode cpython (file_of fr_srt) "utf-8" = Ok (srt_text fr_cues)
   /\ cue_key <$> fr_cues = Some <$> [key_5s; key_9s]
   /\ NoDup [key_5s; key_9s])
  /\ exists self' sub,
       add cpython disk one_source "fr.srt" "utf-8" default_color None false
       = (Ok tt, self')
       /\ timestamps self' = timestamps one_source ++ [key_5s; key_9s]
       /\ subtitles self' = subtitles one_source ++ [sub]
       /\ sub_dialogs sub
          = list_to_map
              (zip [key_5s; key_9s]
                 (cue_entry default_color None false <$> fr_cues)).
Proof.
  assert (disk !! resolve cpython "fr.srt" = Some (file_of fr_srt)) as H1
    by (vm_compute; reflexivity).
  assert (bytes_decode cpython (file_of fr_srt) "utf-8"
          = Ok (srt_text fr_cues)) as H2 by (vm_compute; reflexivity).
  assert (cue_key <$> fr_cues = Some <$> [key_5s; key_9s]) as H3
    by (vm_compute; reflexivity).
  assert (NoDup [key_5s; key_9s]) as H4
    by (apply (bool_decide_unpack _); vm_compute; exact I).
  split; [done|].
  exact (add_reads_every_cue cpython disk one_source "fr.srt" "utf-8"
           default_color None false (file_of fr_srt) fr_cues
           [key_5s; key_9s] H1 H2 H3 H4).
Defined.

(** ** [add] without a color *)





(** ** What [add] changes and what it keeps *)

Lemma _split_dialogs_keys dialogs st color size top r st' :
  _split_dialogs dialogs st color size top = (r, st') ->
  exists new,
    st'.2 = st.2 ++ new /\ dom st'.1 = dom st.1 ∪ list_to_set new.
Proof.
  revert st. induction dialogs as [|dialog l IH]; intros st; simpl.
  { intros [= <- <-]. exists []. rewrite app_nil_r. split; [done|].
    by rewrite list_to_set_nil, (right_id_L ∅ (∪)). }
  destruct (read_cue dialog color size top) as [| |time t text].
  - apply IH.
  - intros [= <- <-]. exists []. rewrite app_nil_r. split; [done|].
    by rewrite list_to_set_nil, (right_id_L ∅ (∪)).
  - destruct (stored_entry st.1 time t text) as [v|].
    + intros (new & Hnew & Hdom)%IH. simpl in *. exists (t :: new). split.
      * by rewrite Hnew, <- app_assoc.
      * rewrite Hdom, dom_insert_L, list_to_set_cons.
        rewrite (assoc_L (∪)).
        by rewrite (comm_L (∪) {[t]} (dom st.1)).
    + intros [= <- <-]. exists []. rewrite app_nil_r. split; [done|].
      by rewrite list_to_set_nil, (right_id_L ∅ (∪)).
Qed.

(** X8.  [add] only appends.  In every outcome the lines and the output
    settings of the object stay as they were and [self.timestamps] is the
    former list followed by new start-times.  When [add] returns, one
    source is appended after the former ones; it records the arguments of
    the call and its dict has exactly the new start-times as keys.  When
    [add] raises, the sources are as before. *)
Theorem add_only_appends (P : platform) (fs : files) (self self' : Merger)
    (address codec : string) (color : option string) (size : option Z)
    (top : bool) (r : outcome unit) :
  add P fs self address codec color size top = (r, self') ->
  lines self' = lines self
  /\ output_path self' = output_path self
  /\ output_name self' = output_name self
  /\ output_encoding self' = output_encoding self
  /\ font_sizes self' = font_sizes self
  /\ exists new,
       timestamps self' = timestamps self ++ new
       /\ match r with
          | Ok _ =>
              exists sub,
                subtitles self' = subtitles self ++ [sub]
                /\ dom (sub_dialogs sub) = list_to_set new
                /\ sub_address sub = address /\ sub_codec sub = codec
                /\ sub_color sub = color /\ sub_size sub = size
          | Raise _ => subtitles self' = subtitles self
          end.
Proof.
  unfold add.
  destruct (fs !! resolve P address) as [raw|].
  2: { intros [= <- <-]. split_and!; try done. exists [].
       by rewrite app_nil_r. }
  destruct (bytes_decode P raw codec) as [data|e].
  2: { intros [= <- <-]. split_and!; try done. exists [].
       by rewrite app_nil_r. }
  destruct (_split_dialogs _ _ color size top) as [r0 [d ts]] eqn:Hsplit.
  apply _split_dialogs_keys in Hsplit as (new & Hnew & Hdom).
  simpl in Hnew, Hdom. rewrite dom_empty_L, (left_id_L ∅ (∪)) in Hdom.
  destruct r0 as [[]|e]; intros [= <- <-]; cbn.
  - split_and!; try done. exists new. split; [done|]. eexists.
    split; [done|]. done.
  - split_and!; try done. exists new. done.
Qed.

Lemma add_only_appends_witness :
  add cpython disk one_source "fr.srt" "utf-8" default_color None false
  = (Ok tt, two_sources)
  /\ lines two_sources = lines one_source
  /\ output_path two_sources = output_path one_source
  /\ output_name two_sources = output_name one_source
  /\ output_encoding two_sources = output_encoding one_source
  /\ font_sizes two_sources = font_sizes one_source
  /\ exists new,
       timestamps two_sources = timestamps one_source ++ new
       /\ exists sub,
            subtitles two_sources = subtitles one_source ++ [sub]
            /\ dom (sub_dialogs sub) = list_to_set new
            /\ sub_address sub = "fr.srt" /\ sub_codec sub = "utf-8"
            /\ sub_color sub = default_color /\ sub_size sub = None.
Proof.
  assert (add cpython disk one_source "fr.srt" "utf-8" default_color None
            false = (Ok tt, two_sources)) as Hadd by (vm_compute; reflexivity).
  split; [exact Hadd|].
  exact (add_only_appends cpython disk one_source two_sources "fr.srt" "utf-8"
           default_color None false (Ok tt) Hadd).
Defined.

Lemma drop_append (a b : string) : drop (String.length a) (a +:+ b) = b.
Proof. induction a as [|x a IH]; [by destruct b|done]. Qed.

Lemma length_append (a b : string) :
  String.length (a +:+ b) = (String.length a + String.length b)%nat.
Proof.
  induction a as [|x a IH]; [done|].
  change (String x a +:+ b) with (String x (a +:+ b)). cbn [String.length].
  by rewrite IH.
Qed.

Lemma endswith_append (a p : string) : endswith (a +:+ p) p = true.
Proof.
  unfold endswith. rewrite length_append.
  replace (String.length a + String.length p - String.length p)%nat
    with (String.length a) by lia.
  rewrite drop_append, String.eqb_refl, andb_true_r.
  apply Nat.leb_le. lia.
Qed.

Lemma _split_dialogs_closed dialogs st color size top r st' :
  _split_dialogs dialogs st color size top = (r, st') ->
  map_Forall (fun _ d => endswith d nl = true) st.1 ->
  map_Forall (fun _ d => endswith d nl = true) st'.1.
Proof.
  revert st. induction dialogs as [|dialog l IH]; intros st; simpl.
  { by intros [= <- <-]. }
  destruct (read_cue dialog _ size top) as [| |time t text].
  - apply IH.
  - by intros [= <- <-].
  - destruct (stored_entry st.1 time t text) as [v|] eqn:Hv;
      [|by intros [= <- <-]].
    intros Hrest Hinv. eapply IH; [done|]. simpl.
    apply map_Forall_insert_2; [|done].
    apply stored_entry_shape in Hv as [prev ->].
    rewrite <- !append_assoc. apply endswith_append.
Qed.

(** X9.  Every entry that [add] stores ends with a line break: a session
    whose entries all end with one keeps that property through every call
    of [add], whatever its outcome. *)
Theorem add_entries_closed (P : platform) (fs : files) (self : Merger)
    (address codec : string) (color : option string) (size : option Z)
    (top : bool) :
  entries_closed (subtitles self) ->
  entries_closed (subtitles (add P fs self address codec color size top).2).
Proof.
  unfold entries_closed, add. intros Hclosed.
  destruct (fs !! resolve P address) as [raw|]; [|done].
  destruct (bytes_decode P raw codec) as [data|]; [|done].
  destruct (_split_dialogs _ _ color size top) as [r [d ts]] eqn:Hsplit.
  apply _split_dialogs_closed in Hsplit; [|apply map_Forall_empty].
  destruct r as [[]|e]; [|done]. cbn.
  apply Forall_app. split; [done|]. by constructor.
Qed.

Lemma add_entries_closed_witness :
  entries_closed (subtitles one_source)
  /\ entries_closed
       (subtitles
          (add cpython disk one_source "fr.srt" "utf-8" default_color None
             false).2).
Proof.
  assert (entries_closed (subtitles one_source)) as H.
  { unfold entries_closed. apply (bool_decide_unpack _). vm_compute. exact I. }
  split; [exact H|].
  exact (add_entries_closed cpython disk one_source "fr.srt" "utf-8"
           default_color None false H).
Defined.

(** ** [merge] called again, and what [merge] leaves alone *)

Lemma merge_visit_keeps P self t i st r st' :
  entries_closed (l_subtitles st) ->
  merge_visit P self t i st = (r, st') -> l_subtitles st' = l_subtitles st.
Proof.
  intros Hclosed. unfold merge_visit.
  destruct (l_subtitles st !! i) as [sub|] eqn:Hi; [|by intros [= _ <-]].
  destruct (sub_dialogs sub !! t) as [d|] eqn:Hd; [|by intros [= _ <-]].
  assert (endswith d nl = true) as Hend.
  { pose proof (Forall_lookup_1 _ _ _ _ Hclosed Hi) as Hsub.
    apply (map_Forall_lookup_1 _ _ _ _ Hsub Hd). }
  cbv zeta. rewrite Hend.
  destruct (if (l_count st =? 1)%nat then _ else _) as [b|e];
    [|by intros [= _ <-]].
  destruct (str_encode P nl _); by intros [= _ <-].
Qed.

Lemma merge_sources_keeps P self t positions st r st' :
  entries_closed (l_subtitles st) ->
  merge_sources P self t positions st = (r, st') ->
  l_subtitles st' = l_subtitles st.
Proof.
  revert st. induction positions as [|i l IH]; intros st Hclosed;
    cbn [merge_sources]; [by intros [= _ <-]|].
  destruct (merge_visit P self t i st) as [[[]|e] st1] eqn:Hvisit;
    pose proof (merge_visit_keeps _ _ _ _ _ _ _ Hclosed Hvisit) as Hsame.
  - intros Hrest. rewrite <- Hsame. apply IH; [by rewrite Hsame|done].
  - by intros [= _ <-].
Qed.

Lemma merge_times_keeps P self ts st r st' :
  entries_closed (l_subtitles st) ->
  merge_times P self ts st = (r, st') -> l_subtitles st' = l_subtitles st.
Proof.
  revert st. induction ts as [|t l IH]; intros st Hclosed;
    cbn [merge_times]; [by intros [= _ <-]|].
  destruct (merge_sources P self t _ st) as [[[]|e] st1] eqn:Hsources;
    pose proof (merge_sources_keeps _ _ _ _ _ _ _ Hclosed Hsources) as Hsame.
  - intros Hrest. rewrite <- Hsame. apply IH; [by rewrite Hsame|done].
  - by intros [= _ <-].
Qed.

(** The loops read [self.output_encoding] and nothing else of the object. *)
Lemma merge_visit_encoding P self1 self2 t i st :
  output_encoding self1 = output_encoding self2 ->
  merge_visit P self1 t i st = merge_visit P self2 t i st.
Proof. intros Henc. unfold merge_visit, _encode. by rewrite Henc. Qed.

Lemma merge_sources_encoding P self1 self2 t positions st :
  output_encoding self1 = output_encoding self2 ->
  merge_sources P self1 t positions st = merge_sources P self2 t positions st.
Proof.
  intros Henc. revert st. induction positions as [|i l IH]; intros st; [done|].
  cbn [merge_sources]. rewrite (merge_visit_encoding P self1 self2) by done.
  destruct (merge_visit P self2 t i st) as [[[]|e] st1]; [apply IH|done].
Qed.

Lemma merge_times_encoding P self1 self2 ts st :
  output_encoding self1 = output_encoding self2 ->
  merge_times P self1 ts st = merge_times P self2 ts st.
Proof.
  intros Henc. revert st. induction ts as [|t l IH]; intros st; [done|].
  cbn [merge_times]. rewrite (merge_sources_encoding P self1 self2) by done.
  destruct (merge_sources P self2 t _ st) as [[[]|e] st1]; [apply IH|done].
Qed.

Lemma sorted_set_sorted (ts : list Z) : StronglySorted Z.le (sorted_set ts).
Proof. unfold sorted_set. apply StronglySorted_merge_sort; apply _. Qed.

Lemma sorted_set_idem (ts : list Z) : sorted_set (sorted_set ts) = sorted_set ts.
Proof.
  apply (StronglySorted_unique Z.le); [apply sorted_set_sorted..|].
  apply NoDup_Permutation; [apply NoDup_sorted_set..|].
  intros t. by rewrite !elem_of_sorted_set.
Qed.

Lemma get_output_path_with_merge_state self ts subs ls :
  get_output_path (with_merge_state self ts subs ls) = get_output_path self.
Proof. done. Qed.

Lemma timestamps_with_merge_state self ts subs ls :
  timestamps (with_merge_state self ts subs ls) = ts.
Proof. done. Qed.

Lemma subtitles_with_merge_state self ts subs ls :
  subtitles (with_merge_state self ts subs ls) = subs.
Proof. done. Qed.

(** X10.  [merge] can be called again.  In a session whose entries all end
    with a line break, as [add] stores them, a second call of [merge] has
    the same outcome as the first, leaves the object as the first call
    left it and writes the same file again. *)
Theorem merge_twice (P : platform) (fs fs' : files) (self self' : Merger)
    (r : outcome (option string)) :
  entries_closed (subtitles self) ->
  merge P fs self = (r, self', fs') ->
  merge P fs' self' = (r, self', fs').
Proof.
  intros Hclosed. unfold merge.
  destruct (merge_times P self (sorted_set (timestamps self)) _)
    as [r0 st] eqn:Hloop.
  assert (l_subtitles st = subtitles self) as Hsubs.
  { by apply merge_times_keeps in Hloop. }
  assert (forall ls,
    merge_times P
      (with_merge_state self (sorted_set (timestamps self)) (l_subtitles st)
         ls)
      (sorted_set (sorted_set (timestamps self)))
      {| l_subtitles := l_subtitles st; l_lines := []; l_count := 1 |}
    = (r0, st)) as Hagain.
  { intros ls. rewrite sorted_set_idem, Hsubs, <- Hloop.
    by apply merge_times_encoding. }
  destruct r0 as [[]|e].
  - destruct (trim_last (e_dialog <$> l_lines st)) as [ls'|e] eqn:Htrim.
    + cbv zeta. rewrite get_output_path_with_merge_state.
      destruct (creatable P (get_output_path self)) eqn:Hpath;
        intros [= <- <- <-];
        rewrite timestamps_with_merge_state, subtitles_with_merge_state,
          Hagain, Htrim; cbv zeta;
        rewrite !get_output_path_with_merge_state, Hpath, sorted_set_idem;
        [|done].
      by rewrite insert_insert_eq.
    + intros [= <- <- <-].
      rewrite timestamps_with_merge_state, subtitles_with_merge_state.
      by rewrite Hagain, Htrim, sorted_set_idem.
  - intros [= <- <- <-].
    rewrite timestamps_with_merge_state, subtitles_with_merge_state.
    by rewrite Hagain, sorted_set_idem.
Qed.

Lemma merge_twice_witness :
  let m := merge cpython disk two_sources in
  (entries_closed (subtitles two_sources) /\ m = (Ok None, m.1.2, m.2))
  /\ merge cpython m.2 m.1.2 = (Ok None, m.1.2, m.2).
Proof.
  intros m.
  assert (entries_closed (subtitles two_sources)) as H1.
  { unfold entries_closed. apply (bool_decide_unpack _). vm_compute. exact I. }
  assert (m = (Ok None, m.1.2, m.2)) as H2 by (vm_compute; reflexivity).
  split; [split; [exact H1|exact H2]|].
  exact (merge_twice cpython disk m.2 two_sources m.1.2 (Ok None) H1 H2).
Defined.

(** X11.  What [merge] leaves alone.  In every outcome the output
    settings of the object are unchanged and [self.timestamps] holds the
    start-times it held before, now in strictly ascending order and once
    each; no file other than the one that the path of
    [get_output_path()] names is changed, under whatever path it is
    known, and no file at all when [merge] raises. *)
Theorem merge_frame (P : platform) (fs fs' : files) (self self' : Merger)
    (r : outcome (option string)) :
  merge P fs self = (r, self', fs') ->
  StronglySorted Z.lt (timestamps self')
  /\ (forall t, t ∈ timestamps self' <-> t ∈ timestamps self)
  /\ output_path self' = output_path self
  /\ output_name self' = output_name self
  /\ output_encoding self' = output_encoding self
  /\ font_sizes self' = font_sizes self
  /\ (forall file,
        file <> resolve P (get_output_path self) -> fs' !! file = fs !! file)
  /\ (forall e, r = Raise e -> fs' = fs).
Proof.
  unfold merge.
  destruct (merge_times P self (sorted_set (timestamps self)) _) as [r0 st].
  assert (forall subs ls,
    StronglySorted Z.lt
      (timestamps (with_merge_state self (sorted_set (timestamps self)) subs
                     ls))
    /\ (forall t,
          t ∈ timestamps (with_merge_state self (sorted_set (timestamps self))
                            subs ls)
          <-> t ∈ timestamps self)) as Htimes.
  { intros subs ls. rewrite timestamps_with_merge_state.
    split; [apply sorted_set_strict|apply elem_of_sorted_set]. }
  destruct r0 as [[]|e].
  - destruct (trim_last _) as [ls'|e].
    + cbv zeta. rewrite get_output_path_with_merge_state.
      destruct (creatable P (get_output_path self));
        intros [= <- <- <-]; destruct (Htimes (l_subtitles st) ls');
        split_and!; try done.
      intros file Hfile. by rewrite lookup_insert_ne.
    + intros [= <- <- <-].
      destruct (Htimes (l_subtitles st) (e_dialog <$> l_lines st)).
      split_and!; done.
  - intros [= <- <- <-].
    destruct (Htimes (l_subtitles st) (e_dialog <$> l_lines st)).
    split_and!; done.
Qed.

Lemma merge_frame_witness :
  let m := merge cpython disk two_sources in
  m = (Ok None, m.1.2, m.2)
  /\ StronglySorted Z.lt (timestamps m.1.2)
  /\ (forall t, t ∈ timestamps m.1.2 <-> t ∈ timestamps two_sources)
  /\ output_path m.1.2 = output_path two_sources
  /\ output_name m.1.2 = output_name two_sources
  /\ output_encoding m.1.2 = output_encoding two_sources
  /\ font_sizes m.1.2 = font_sizes two_sources
  /\ (forall file, file <> resolve cpython (get_output_path two_sources) ->
        m.2 !! file = disk !! file)
  /\ (forall e, Ok (None : option string) = Raise e -> m.2 = disk).
Proof.
  intros m.
  assert (m = (Ok None, m.1.2, m.2)) as H by (vm_compute; reflexivity).
  split; [exact H|].
  exact (merge_frame cpython disk m.2 two_sources m.1.2 (Ok None) H).
Defined.


(** The output file is told from the others by the file a path names, not
    by the text of the path: with the output name [en.srt], [merge]
    writes to [./en.srt] and so replaces the source [en.srt]. *)
Lemma merge_overwrites_source :
  get_output_path over_source = "./en.srt"
  /\ text_of disk "en.srt" = Some en_srt
  /\ text_of (merge cpython disk over_source).2 "en.srt"
     = Some (decode_latin1 BOM_UTF8 +:+ "1" +:+ nl +:+ at_5s_a +:+ nl
             +:+ font_color "#FFFFFF" "Hi").
Proof. split_and!; vm_compute; reflexivity. Qed.

(** ** The trim of the last block *)

Lemma bytes_endswith_split (b p : bytes) :
  bytes_endswith b p = true -> b = drop_last (length p) b ++ p.
Proof.
  unfold bytes_endswith, drop_last.
  intros [Hdrop%bool_decide_eq_true _]%andb_prop.
  rewrite <- (take_drop (length b - length p) b) at 1. by rewrite Hdrop.
Qed.

(** X12.  The trim at the end of [merge] changes the last block only, and
    removes from its end at most one line break: the two bytes 0A 00 when
    the block ends with 00 0A 00, otherwise the byte 0A when the block
    ends with it, otherwise nothing.  On the empty list it raises
    [IndexError]. *)
Theorem trim_last_removes_line_break (ls : list bytes) :
  match trim_last ls with
  | Raise e => e = IndexError /\ ls = []
  | Ok ls' =>
      exists front b tail,
        ls = front ++ [b ++ tail] /\ ls' = front ++ [b]
        /\ (tail = [x0a; x00] /\ bytes_endswith b [x00] = true
            \/ tail = [x0a]
               /\ bytes_endswith (b ++ tail) [x00; x0a; x00] = false
            \/ tail = [] /\ bytes_endswith b [x0a] = false
               /\ bytes_endswith b [x00; x0a; x00] = false)
  end.
Proof.
  unfold trim_last. destruct (last ls) as [b0|] eqn:Hlast.
  2: { split; [done|]. by apply last_None. }
  apply last_Some in Hlast as [front ->]. rewrite removelast_last.
  exists front.
  destruct (bytes_endswith b0 [x00; x0a; x00]) eqn:Hwide.
  - apply bytes_endswith_split in Hwide. cbn [length] in Hwide.
    set (b := drop_last 3 b0) in *.
    assert (bytes_endswith (b ++ [x00]) [x0a] = false) as ->.
    { unfold bytes_endswith. rewrite length_app. cbn [length].
      replace (length b + 1 - 1)%nat with (length b) by lia.
      rewrite drop_app_length. done. }
    exists (b ++ [x00]), [x0a; x00]. split_and!.
    + by rewrite Hwide at 1; rewrite <- app_assoc.
    + done.
    + left. split; [done|]. unfold bytes_endswith.
      rewrite length_app. cbn [length].
      replace (length b + 1 - 1)%nat with (length b) by lia.
      rewrite drop_app_length, bool_decide_eq_true_2 by done.
      apply Nat.leb_le. lia.
  - destruct (bytes_endswith b0 [x0a]) eqn:Hnarrow.
    + pose proof (bytes_endswith_split _ _ Hnarrow) as Hsplit.
      cbn [length] in Hsplit.
      exists (drop_last 1 b0), [x0a]. rewrite <- Hsplit. split_and!; try done.
      right. left. done.
    + exists b0, []. rewrite app_nil_r. split_and!; try done.
      right. right. done.
Qed.

(** ** The outcomes of [merge] *)

Lemma total_entries_zero (subs : list subtitle) :
  total_entries subs = 0%nat <-> Forall (fun sub => sub_dialogs sub = ∅) subs.
Proof.
  unfold total_entries. induction subs as [|sub subs IH]; [done|].
  cbn [sum_list_with]. rewrite Forall_cons, <- IH. split.
  - intros H. split; [apply map_size_empty_inv|]; lia.
  - intros [-> ->]. by rewrite map_size_empty.
Qed.

(** X13.  With a codec that encodes the sequence numbers and the line
    break and an output path that can be created, [merge] on a session
    whose timeline covers its sources has two outcomes only: it completes
    and returns [None] when some source holds an entry, and raises
    [IndexError] when none does. *)
Theorem merge_outcome (P : platform) (fs : files) (self : Merger) :
  encodes_counts P (output_encoding self) ->
  timeline_covers self ->
  creatable P (get_output_path self) = true ->
  match (merge P fs self).1.1 with
  | Ok v => v = None /\ total_entries (subtitles self) <> 0%nat
  | Raise e => e = IndexError /\ total_entries (subtitles self) = 0%nat
  end.
Proof.
  intros Henc Hcov Hpath.
  destruct (decide (total_entries (subtitles self) = 0%nat)) as [Hzero|Hsome].
  - pose proof Hzero as Hempty. apply total_entries_zero in Hempty.
    unfold merge. rewrite merge_times_no_entry by done. done.
  - destruct (merge_completes P fs self Henc) as (bl & ls & self' & _ & _ & -> & _);
      [|done|done].
    intros Hnil. apply Hsome.
    rewrite <- (schedule_length (subtitles self)
                  (sorted_set (timestamps self))).
    + by rewrite Hnil.
    + apply NoDup_sorted_set.
    + eapply Forall_impl; [exact Hcov|]. intros sub Hsub t Hin. simpl in Hsub.
      apply Hsub in Hin. rewrite elem_of_list_to_set in Hin |- *.
      by apply elem_of_sorted_set.
Qed.

Lemma merge_outcome_witness :
  (encodes_counts cpython (output_encoding two_sources)
   /\ timeline_covers two_sources
   /\ creatable cpython (get_output_path two_sources) = true)
  /\ match (merge cpython disk two_sources).1.1 with
     | Ok v => v = None /\ total_entries (subtitles two_sources) <> 0%nat
     | Raise e => e = IndexError /\ total_entries (subtitles two_sources) = 0%nat
     end.
Proof.
  assert (encodes_counts cpython (output_encoding two_sources)) as H1.
  { split_and!; [by eexists|intros k; by eexists|by vm_compute]. }
  assert (timeline_covers two_sources) as H2.
  { unfold timeline_covers. apply (bool_decide_unpack _). vm_compute. exact I. }
  assert (creatable cpython (get_output_path two_sources) = true) as H3
    by reflexivity.
  split; [split; [exact H1|split; [exact H2|exact H3]]|].
  exact (merge_outcome cpython disk two_sources H1 H2 H3).
Defined.

(** ** No entry is lost *)





(** ** The start-time key of a timecode line *)

Lemma dec_digit_plain (d : Z) :
  0 <= d < 10 ->
  digit (dec_digit d) = Some d
  /\ isspace (dec_digit d) = false
  /\ Ascii.eqb (dec_digit d) "-" = false.
Proof.
  intros H.
  assert (d = 0 \/ d = 1 \/ d = 2 \/ d = 3 \/ d = 4 \/ d = 5 \/ d = 6 \/ d = 7
          \/ d = 8 \/ d = 9) as Hd by lia.
  repeat (destruct Hd as [->|Hd]; [by vm_compute|]). subst. by vm_compute.
Qed.

Lemma two_dec_digits (n : Z) :
  0 <= n <= 99 -> 0 <= n / 10 < 10 /\ 0 <= n mod 10 < 10.
Proof.
  intros H. split.
  - split; [apply Z.div_pos; lia|apply Z.div_lt_upper_bound; lia].
  - apply Z.mod_pos_bound. lia.
Qed.

Lemma two_digits_two_dec (n : Z) (rest : string) :
  0 <= n <= 99 -> two_digits (two_dec n +:+ rest) = Some (n, rest).
Proof.
  intros H. destruct (two_dec_digits n H) as [Hhigh Hlow].
  destruct (dec_digit_plain _ Hhigh) as (Hd1 & _).
  destruct (dec_digit_plain _ Hlow) as (Hd2 & _).
  unfold two_dec.
  change (String ?a (String ?b "") +:+ rest) with (String a (String b rest)).
  cbn [two_digits]. rewrite Hd1, Hd2. do 2 f_equal.
  pose proof (Z.div_mod n 10). lia.
Qed.

Lemma fraction_three_dec (n : Z) :
  0 <= n <= 999 -> fraction 6 0 (three_dec n) = Some (n * 1000).
Proof.
  intros H.
  assert (0 <= n / 100 < 10) as Hhigh.
  { split; [apply Z.div_pos; lia|apply Z.div_lt_upper_bound; lia]. }
  assert (0 <= n mod 100 <= 99) as Hlow.
  { pose proof (Z.mod_pos_bound n 100). lia. }
  destruct (two_dec_digits _ Hlow) as [Hmid Hunit].
  destruct (dec_digit_plain _ Hhigh) as (Hd1 & _).
  destruct (dec_digit_plain _ Hmid) as (Hd2 & _).
  destruct (dec_digit_plain _ Hunit) as (Hd3 & _).
  unfold three_dec, two_dec. cbn [fraction]. rewrite Hd1, Hd2, Hd3.
  f_equal. pose proof (Z.div_mod n 100). pose proof (Z.div_mod (n mod 100) 10).
  change (10 ^ Z.of_nat 3) with 1000. lia.
Qed.

Lemma two_dec_plain (n : Z) :
  0 <= n <= 99 ->
  all_chars (fun c => negb (isspace c) && negb (Ascii.eqb c "-")) (two_dec n)
  = true.
Proof.
  intros H. destruct (two_dec_digits n H) as [Hhigh Hlow].
  destruct (dec_digit_plain _ Hhigh) as (_ & H1 & H2).
  destruct (dec_digit_plain _ Hlow) as (_ & H3 & H4).
  unfold two_dec. cbn [all_chars]. by rewrite H1, H2, H3, H4.
Qed.

Lemma clock_plain (h m s ms : Z) :
  0 <= h <= 99 -> 0 <= m <= 99 -> 0 <= s <= 99 -> 0 <= ms <= 999 ->
  all_chars (fun c => negb (isspace c) && negb (Ascii.eqb c "-"))
    (clock h m s ms) = true.
Proof.
  intros Hh Hm Hs Hms. unfold clock, three_dec.
  assert (0 <= ms / 100 < 10) as Hhigh.
  { split; [apply Z.div_pos; lia|apply Z.div_lt_upper_bound; lia]. }
  assert (0 <= ms mod 100 <= 99) as Hlow.
  { pose proof (Z.mod_pos_bound ms 100). lia. }
  destruct (dec_digit_plain _ Hhigh) as (_ & H1 & H2).
  rewrite !all_chars_app, !two_dec_plain by done.
  cbn [all_chars]. by rewrite H1, H2, two_dec_plain.
Qed.

Lemma before_arrow (a rest : string) :
  all_chars (fun c => negb (Ascii.eqb c "-")) a = true ->
  before "-->" (a +:+ "-->" +:+ rest) = a.
Proof.
  induction a as [|x a IH]; intros Ha.
  - change ("" +:+ "-->" +:+ rest) with ("-->" +:+ rest).
    pose proof (prefix_append "-->" rest) as Hp.
    change ("-->" +:+ rest) with (String "-" (String "-" (String ">" rest)))
      in Hp |- *.
    cbn [before]. by rewrite Hp.
  - change (String x a +:+ "-->" +:+ rest)
      with (String x (a +:+ "-->" +:+ rest)).
    cbn [all_chars] in Ha. apply andb_prop in Ha as [Hx Ha].
    apply negb_true_iff in Hx.
    cbn [before]. rewrite prefix_head_ne, IH; [done|done|].
    intros <-. by rewrite Ascii.eqb_refl in Hx.
Qed.

Lemma rstrip_space (s : string) : rstrip (s +:+ " ") = rstrip s.
Proof.
  induction s as [|a s IH]; [done|].
  change (String a s +:+ " ") with (String a (s +:+ " ")).
  cbn [rstrip]. by rewrite IH.
Qed.

(** X15.  The key under which [_split_dialogs] stores a cue is its start
    time.  For a timecode line that starts with [HH:MM:SS,mmm], a space
    and the arrow, with the hour below 24 and the minute and the second
    below 60, the key is that time in microseconds since midnight, so
    that the order of the keys is the order of the start times. *)
Theorem start_time_key (h m s ms : Z) (rest : string) :
  0 <= h <= 23 -> 0 <= m <= 59 -> 0 <= s <= 59 -> 0 <= ms <= 999 ->
  strptime_key (strip (before "-->" (clock h m s ms +:+ " --> " +:+ rest)))
  = Some (((h * 60 + m) * 60 + s) * 1000000 + ms * 1000).
Proof.
  intros Hh Hm Hs Hms.
  pose proof (clock_plain h m s ms) as Hplain.
  assert (all_chars (fun c => negb (isspace c) && negb (Ascii.eqb c "-"))
            (clock h m s ms) = true) as Hclock by (apply Hplain; lia).
  assert (clock h m s ms +:+ " --> " +:+ rest
          = (clock h m s ms +:+ " ") +:+ "-->" +:+ " " +:+ rest) as ->.
  { by rewrite append_assoc. }
  rewrite before_arrow.
  2: { rewrite all_chars_app. apply andb_true_intro. split; [|done].
       eapply all_chars_impl; [|exact Hclock].
       by intros c [_ ?]%andb_prop. }
  unfold strip. rewrite rstrip_space.
  assert (no_space (clock h m s ms) = true) as Hspace.
  { eapply all_chars_impl; [|exact Hclock]. by intros c [? _]%andb_prop. }
  rewrite rstrip_no_space by done.
  assert (lstrip (clock h m s ms) = clock h m s ms) as ->.
  { rewrite <- (rstrip_no_space (clock h m s ms)) at 1 by done.
    by apply strip_no_space. }
  unfold strptime_key, clock.
  rewrite two_digits_two_dec by lia. cbn [mbind option_bind].
  change (expect ":" (":" +:+ ?r)) with (Some r). cbn [mbind option_bind].
  rewrite two_digits_two_dec by lia. cbn [mbind option_bind].
  change (expect ":" (":" +:+ ?r)) with (Some r). cbn [mbind option_bind].
  rewrite two_digits_two_dec by lia. cbn [mbind option_bind].
  change (expect "," ("," +:+ ?r)) with (Some r). cbn [mbind option_bind].
  rewrite fraction_three_dec by lia.
  assert ((h <=? 23) && (m <=? 59) && (s <=? 59) = true) as Hrange.
  { rewrite !andb_true_iff, !Z.leb_le. lia. }
  unfold three_dec at 1. cbn [mbind option_bind]. by rewrite Hrange.
Qed.

Lemma start_time_key_witness :
  (0 <= 1 <= 23 /\ 0 <= 2 <= 59 /\ 0 <= 3 <= 59 /\ 0 <= 450 <= 999)
  /\ strptime_key
       (strip (before "-->" (clock 1 2 3 450 +:+ " --> " +:+ "01:02:05,000")))
     = Some (((1 * 60 + 2) * 60 + 3) * 1000000 + 450 * 1000).
Proof.
  assert (0 <= 1 <= 23) as H1 by lia.
  assert (0 <= 2 <= 59) as H2 by lia.
  assert (0 <= 3 <= 59) as H3 by lia.
  assert (0 <= 450 <= 999) as H4 by lia.
  split; [split; [exact H1|split; [exact H2|split; [exact H3|exact H4]]]|].
  exact (start_time_key 1 2 3 450 "01:02:05,000" H1 H2 H3 H4).
Defined.

(** ** Cues without text *)

Lemma read_cue_no_text_line (c : ascii) (n time : string) (key : Z)
    color size top :
  isspace c = false -> contains_chr LF (String c n) = false ->
  contains_chr LF time = false ->
  strptime_key (strip (before "-->" time)) = Some key ->
  read_cue (String c n +:+ nl +:+ time) color size top = Skip.
Proof.
  intros Hc Hn Htime Hparse. unfold read_cue, startswith.
  change (String c n +:+ nl +:+ time) with (String c (n +:+ nl +:+ time)).
  assert (String.prefix crlf (String c (n +:+ nl +:+ time)) = false) as H1
    by (apply prefix_head_ne; by apply isspace_not_CR).
  assert (String.prefix nl (String c (n +:+ nl +:+ time)) = false) as H2
    by (apply prefix_head_ne; by apply isspace_not_LF).
  assert (String.eqb (String c (n +:+ nl +:+ time)) ""
          || String.eqb (String c (n +:+ nl +:+ time)) nl
          || String.eqb (lstrip (rstrip (String c (n +:+ nl +:+ time)))) ""
          = false) as H3.
  { destruct (rstrip_keeps_head c (n +:+ nl +:+ time) Hc) as [r' ->].
    cbn [lstrip]. rewrite Hc.
    assert (Ascii.eqb c LF = false) as Hne.
    { apply Ascii.eqb_neq. intros ->. done. }
    unfold nl. cbn [String.eqb]. by rewrite Hne. }
  rewrite H1. cbv beta zeta iota. rewrite H2. cbv beta zeta iota.
  rewrite H3, H1. cbv beta zeta iota.
  change (String c (n +:+ nl +:+ time)) with (String c n +:+ String LF time).
  rewrite !split_chr_first by done.
  rewrite split_chr_zero, (split_chr_none LF _ time) by done.
  cbn [lookup list_lookup]. rewrite Hparse.
  rewrite (split_chr_none LF _ time) by done. done.
Qed.

Lemma read_cue_empty_text (c : ascii) (n time : string) (key : Z)
    color size top :
  isspace c = false -> contains_chr LF (String c n) = false ->
  contains_chr LF time = false ->
  strptime_key (strip (before "-->" time)) = Some key ->
  read_cue (String c n +:+ nl +:+ time +:+ nl) color size top = Skip.
Proof.
  intros Hc Hn Htime Hparse. unfold read_cue, startswith.
  change (String c n +:+ nl +:+ time +:+ nl)
    with (block_of (String c n) time "").
  destruct (usual_block_not_blank c n time "" Hc Hn) as (H1 & H2 & H3).
  destruct (usual_block_lines c n time "" Hn Htime) as [H4 H5].
  rewrite H1. cbv beta zeta iota. rewrite H2. cbv beta zeta iota.
  rewrite H3, H1. cbv beta zeta iota. rewrite H4. cbv beta zeta iota.
  rewrite Hparse, H5.
  change (time +:+ nl +:+ "") with (time +:+ String LF "").
  rewrite split_chr_first_all by done. done.
Qed.

(** X16.  A cue without text is dropped in silence.  A block that ends
    after its timecode line, with or without a closing line break, stores
    nothing and adds no start-time, though its timecode parses;
    [_split_dialogs] goes on with the blocks that follow. *)
Theorem _split_dialogs_drops_empty_cue (c : ascii) (n time : string)
    (key : Z) (closing : bool) (rest : list string)
    (st : gmap Z string * list Z) (color : option string) (size : option Z)
    (top : bool) :
  isspace c = false -> contains_chr LF (String c n) = false ->
  contains_chr LF time = false ->
  strptime_key (strip (before "-->" time)) = Some key ->
  _split_dialogs
    ((String c n +:+ nl +:+ time +:+ (if closing then nl else "")) :: rest)
    st color size top
  = _split_dialogs rest st color size top.
Proof.
  intros Hc Hn Htime Hparse. cbn [_split_dialogs]. destruct closing.
  - by rewrite (read_cue_empty_text c n time key).
  - rewrite append_nil_r. by rewrite (read_cue_no_text_line c n time key).
Qed.

Lemma _split_dialogs_drops_empty_cue_witness :
  (isspace "1" = false /\ contains_chr LF "1" = false
   /\ contains_chr LF at_5s_a = false
   /\ strptime_key (strip (before "-->" at_5s_a)) = Some key_5s)
  /\ _split_dialogs
       (("1" +:+ nl +:+ at_5s_a +:+ nl) :: ["2" +:+ nl +:+ at_9s +:+ nl +:+ "Hi"])
       (∅, []) default_color None false
     = _split_dialogs ["2" +:+ nl +:+ at_9s +:+ nl +:+ "Hi"] (∅, [])
         default_color None false.
Proof.
  assert (isspace "1" = false) as H1 by reflexivity.
  assert (contains_chr LF "1" = false) as H2 by reflexivity.
  assert (contains_chr LF at_5s_a = false) as H3 by (vm_compute; reflexivity).
  assert (strptime_key (strip (before "-->" at_5s_a)) = Some key_5s) as H4
    by (vm_compute; reflexivity).
  split; [split; [exact H1|split; [exact H2|split; [exact H3|exact H4]]]|].
  exact (_split_dialogs_drops_empty_cue "1" "" at_5s_a key_5s true
           ["2" +:+ nl +:+ at_9s +:+ nl +:+ "Hi"] (∅, []) default_color None
           false H1 H2 H3 H4).
Defined.

(** ** The batch of [MergeWorker.run] *)

Lemma merge_files P fs self r self' fs' :
  merge P fs self = (r, self', fs') ->
  match r with
  | Ok _ => exists content, fs' = <[resolve P (get_output_path self) := content]> fs
  | Raise _ => fs' = fs
  end.
Proof.
  unfold merge.
  destruct (merge_times P self (sorted_set (timestamps self)) _)
    as [[[]|e] st]; [|by intros [= <- <- <-]].
  destruct (trim_last _) as [ls'|e]; [|by intros [= <- <- <-]].
  cbv zeta. rewrite get_output_path_with_merge_state.
  destruct (creatable P (get_output_path self)); intros [= <- <- <-]; eauto.
Qed.

Lemma add_output_path P fs self address codec color size top :
  get_output_path (add P fs self address codec color size top).2
  = get_output_path self.
Proof.
  unfold add. destruct (fs !! resolve P address) as [raw|]; [|done].
  destruct (bytes_decode P raw codec) as [data|]; [|done].
  destruct (_split_dialogs _ _ color size top) as [[[]|e] [d ts]]; done.
Qed.

(** An episode that fails leaves the files as they were; one that is
    merged writes the file at [./] followed by its output path. *)
Lemma merge_episode_files P args m fs r fs' :
  Qt.merge_episode P args m fs = (r, fs') ->
  match r with
  | Ok _ =>
      exists content,
        fs' = <[resolve P ("./" +:+ Qt.output_path m) := content]> fs
  | Raise _ => fs' = fs
  end.
Proof.
  unfold Qt.merge_episode.
  destruct (add P fs (init "." _ "utf-8") _ _ _ None false)
    as [[[]|e] merger1] eqn:Hadd1; [|by intros [= <- <-]].
  destruct (add P fs merger1 _ "utf-8" default_color None false)
    as [[[]|e] merger2] eqn:Hadd2; [|by intros [= <- <-]].
  destruct (merge P fs merger2) as [[[v|e] self'] fs2] eqn:Hmerge;
    apply merge_files in Hmerge; intros [= <- <-]; [|done].
  destruct Hmerge as [content ->]. exists content. f_equal.
  pose proof (add_output_path P fs merger1 (Qt.sub2_path m) "utf-8"
                default_color None false) as H2.
  rewrite Hadd2 in H2. cbn [snd] in H2. rewrite H2.
  pose proof (add_output_path P fs (init "." (Qt.output_path m) "utf-8")
                (Qt.sub1_path m) (Qt.codec args) (Some (Qt.color args)) None
                false) as H1.
  rewrite Hadd1 in H1. cbn [snd] in H1. rewrite H1. done.
Qed.

Lemma run_matches_index P args running i j matches fs :
  (forall k, running k = true) ->
  Qt.run_matches P args running i matches fs
  = Qt.run_matches P args running j matches fs.
Proof.
  intros Hrun. revert i j fs.
  induction matches as [|m rest IH]; intros i j fs; [done|].
  cbn [Qt.run_matches]. rewrite !Hrun.
  destruct (Qt.merge_episode P args m fs) as [r fs1].
  by rewrite (IH (S i) (S j)).
Qed.

Lemma run_matches_app P args running i before after fs :
  (forall k, running k = true) ->
  Qt.run_matches P args running i (before ++ after) fs
  = let '(signals1, fs1) := Qt.run_matches P args running i before fs in
    let '(signals2, fs2) := Qt.run_matches P args running i after fs1 in
    (signals1 ++ signals2, fs2).
Proof.
  intros Hrun. revert i fs.
  induction before as [|m rest IH]; intros i fs.
  - cbn. by destruct (Qt.run_matches P args running i after fs).
  - cbn [app Qt.run_matches]. rewrite Hrun.
    destruct (Qt.merge_episode P args m fs) as [r fs1].
    rewrite IH.
    destruct (Qt.run_matches P args running (S i) rest fs1) as [s1 fs2].
    rewrite (run_matches_index P args running (S i) i after) by done.
    by destruct (Qt.run_matches P args running i after fs2).
Qed.

(** X17.  The batch goes on after an episode fails.  While the worker is
    not stopped, an episode whose [add] or [merge] raises leaves the files
    as the episodes before it left them and emits [error] after its
    [progress] signal; the episodes after it are processed as a batch of
    their own would be on those files. *)
Theorem run_goes_on_after_failure (P : platform) (args : Qt.merger_args)
    (running : nat -> bool) (before after : list Qt.EpisodeMatch)
    (m : Qt.EpisodeMatch) (fs fs1 : files) (signals1 : list Qt.signal)
    (e : exn) :
  (forall i, running i = true) ->
  Qt.run_matches P args running O before fs = (signals1, fs1) ->
  (Qt.merge_episode P args m fs1).1 = Raise e ->
  Qt.run P args running (before ++ m :: after) fs
  = (signals1
     ++ [Qt.progress_processing (Qt.episode_num m);
         Qt.error_merging (Qt.episode_num m) e]
     ++ (Qt.run P args running after fs1).1,
     (Qt.run P args running after fs1).2).
Proof.
  intros Hrun Hbefore Hfail. unfold Qt.run.
  rewrite run_matches_app, Hbefore by done.
  cbn [Qt.run_matches]. rewrite Hrun.
  destruct (Qt.merge_episode P args m fs1) as [r fs2] eqn:Hm.
  cbn [fst] in Hfail. subst r.
  apply merge_episode_files in Hm. subst fs2.
  rewrite (run_matches_index P args running 1 0 after) by done.
  destruct (Qt.run_matches P args running 0 after fs1) as [s2 fs3].
  cbn [fst snd]. by rewrite <- !app_assoc.
Qed.

Lemma run_goes_on_after_failure_witness :
  let r := Qt.run_matches cpython red_args never_stopped O [episode_1]
             Example.disk in
  ((forall i, never_stopped i = true)
   /\ r = (r.1, r.2)
   /\ (Qt.merge_episode cpython red_args episode_2 r.2).1 = Raise OSError)
  /\ Qt.run cpython red_args never_stopped
       ([episode_1] ++ episode_2 :: [episode_1]) Example.disk
     = (r.1
        ++ [Qt.progress_processing (Qt.episode_num episode_2);
            Qt.error_merging (Qt.episode_num episode_2) OSError]
        ++ (Qt.run cpython red_args never_stopped [episode_1] r.2).1,
        (Qt.run cpython red_args never_stopped [episode_1] r.2).2).
Proof.
  intros r.
  assert (forall i, never_stopped i = true) as H1 by reflexivity.
  assert (r = (r.1, r.2)) as H2 by (vm_compute; reflexivity).
  assert ((Qt.merge_episode cpython red_args episode_2 r.2).1 = Raise OSError)
    as H3 by (vm_compute; reflexivity).
  split; [split; [exact H1|split; [exact H2|exact H3]]|].
  exact (run_goes_on_after_failure cpython red_args never_stopped [episode_1]
           [episode_1] episode_2 Example.disk r.2 r.1 OSError H1 H2 H3).
Defined.

Lemma run_matches_files P args running i matches fs signals fs' :
  Qt.run_matches P args running i matches fs = (signals, fs') ->
  (forall file,
     (forall n out, Qt.progress_merged n out ∈ signals ->
                    file <> resolve P ("./" +:+ out)) ->
     fs' !! file = fs !! file)
  /\ (forall file, is_Some (fs !! file) -> is_Some (fs' !! file))
  /\ (forall n out, Qt.progress_merged n out ∈ signals ->
                    is_Some (fs' !! resolve P ("./" +:+ out)))
  /\ Qt.finished ∉ signals.
Proof.
  revert i fs signals fs'.
  induction matches as [|m rest IH]; intros i fs signals fs';
    cbn [Qt.run_matches].
  { intros [= <- <-]. split_and!; try done.
    - intros n out Hin. by apply elem_of_nil in Hin.
    - apply not_elem_of_nil. }
  destruct (running i).
  2: { intros [= <- <-]. split_and!; try done.
       - intros n out Hin. by apply elem_of_nil in Hin.
       - apply not_elem_of_nil. }
  destruct (Qt.merge_episode P args m fs) as [r fs1] eqn:Hm.
  apply merge_episode_files in Hm.
  destruct (Qt.run_matches P args running (S i) rest fs1) as [s2 fs2] eqn:Hrest.
  apply IH in Hrest as (Hframe & Hmono & Hout & Hfin).
  intros [= <- <-]. destruct r as [[]|e].
  - destruct Hm as [content ->]. split_and!.
    + intros path Hpath. rewrite Hframe.
      * rewrite lookup_insert_ne; [done|]. intros <-.
        apply (Hpath (Qt.episode_num m) (Qt.output_path m)); [|done].
        apply list_elem_of_further, list_elem_of_here.
      * intros n out Hin. apply (Hpath n out).
        by do 2 apply list_elem_of_further.
    + intros path Hsome. apply Hmono.
      destruct (decide (path = resolve P ("./" +:+ Qt.output_path m)))
        as [->|Hne].
      * rewrite lookup_insert_eq. by eexists.
      * by rewrite lookup_insert_ne.
    + intros n out Hin.
      apply elem_of_cons in Hin as [[=]|Hin].
      apply elem_of_cons in Hin as [[= -> ->]|Hin]; [|by eapply Hout].
      apply Hmono. rewrite lookup_insert_eq. by eexists.
    + intros Hin. apply elem_of_cons in Hin as [[=]|Hin].
      apply elem_of_cons in Hin as [[=]|Hin]. done.
  - subst fs1. split_and!.
    + intros path Hpath. apply Hframe. intros n out Hin. apply (Hpath n out).
      by do 2 apply list_elem_of_further.
    + done.
    + intros n out Hin.
      apply elem_of_cons in Hin as [[=]|Hin].
      apply elem_of_cons in Hin as [[=]|Hin]. by eapply Hout.
    + intros Hin. apply elem_of_cons in Hin as [[=]|Hin].
      apply elem_of_cons in Hin as [[=]|Hin]. done.
Qed.

(** X18.  What a batch writes.  Whenever it is stopped or not, [run]
    changes no file but the outputs of the episodes it reports as merged;
    the output of such an episode is the file that the path [./] followed
    by its output path names, under whatever path that file is known, and
    it is there when [run] ends.  [finished] is emitted once, after every
    other signal. *)
Theorem run_writes_outputs_only (P : platform) (args : Qt.merger_args)
    (running : nat -> bool) (matches : list Qt.EpisodeMatch)
    (fs fs' : files) (signals : list Qt.signal) :
  Qt.run P args running matches fs = (signals, fs') ->
  (forall file,
     (forall n out, Qt.progress_merged n out ∈ signals ->
                    file <> resolve P ("./" +:+ out)) ->
     fs' !! file = fs !! file)
  /\ (forall n out, Qt.progress_merged n out ∈ signals ->
                    is_Some (fs' !! resolve P ("./" +:+ out)))
  /\ exists others,
       signals = others ++ [Qt.finished] /\ Qt.finished ∉ others.
Proof.
  unfold Qt.run.
  destruct (Qt.run_matches P args running 0 matches fs) as [s fs1] eqn:Hloop.
  apply run_matches_files in Hloop as (Hframe & _ & Hout & Hfin).
  intros [= <- <-]. split_and!.
  - intros path Hpath. apply Hframe. intros n out Hin. apply (Hpath n out).
    apply elem_of_app. by left.
  - intros n out Hin. apply elem_of_app in Hin as [Hin|Hin]; [by eapply Hout|].
    by apply list_elem_of_singleton in Hin.
  - by exists s.
Qed.

Lemma run_writes_outputs_only_witness :
  let r := Qt.run cpython red_args never_stopped [episode_1; episode_2]
             Example.disk in
  r = (r.1, r.2)
  /\ (forall file,
        (forall n out, Qt.progress_merged n out ∈ r.1 ->
                       file <> resolve cpython ("./" +:+ out)) ->
        r.2 !! file = Example.disk !! file)
  /\ (forall n out, Qt.progress_merged n out ∈ r.1 ->
                    is_Some (r.2 !! resolve cpython ("./" +:+ out)))
  /\ exists others,
       r.1 = others ++ [Qt.finished] /\ Qt.finished ∉ others.
Proof.
  intros r.
  assert (r = (r.1, r.2)) as H by (vm_compute; reflexivity).
  split; [exact H|].
  exact (run_writes_outputs_only cpython red_args never_stopped
           [episode_1; episode_2] Example.disk r.2 r.1 H).
Defined.

(** ** Entries that the output codec refuses *)

Lemma is_ascii_uint (d : Decimal.uint) :
  is_ascii (NilEmpty.string_of_uint d) = true.
Proof.
  unfold is_ascii.
  induction d as [|d IH|d IH|d IH|d IH|d IH|d IH|d IH|d IH|d IH|d IH];
    [done|..]; cbn [NilEmpty.string_of_uint list_ascii_of_string forallb];
    by rewrite IH.
Qed.

Lemma is_ascii_str (n : nat) : is_ascii (str n) = true.
Proof.
  unfold str.
  destruct (Nat.to_uint n) as [|d|d|d|d|d|d|d|d|d|d] eqn:E; [done|..];
    rewrite <- E; unfold NilZero.string_of_uint; rewrite E;
    apply is_ascii_uint.
Qed.

(** The codec [ascii] encodes the sequence numbers and the line break. *)
Lemma encodes_counts_ascii : encodes_counts cpython "ascii".
Proof.
  split; [eexists; reflexivity|]. split; [|vm_compute; discriminate].
  intros k. exists (encode_with (unit_le 1) (str k)).
  change (str_encode cpython (str k) "ascii")
    with (if is_ascii (str k) then Ok (encode_with (unit_le 1) (str k))
          else Raise UnicodeEncodeError).
  by rewrite is_ascii_str.
Qed.

(** X19.  A text that the output codec cannot encode does not stop
    [merge].  With a codec that encodes the sequence numbers and the line
    break and an output path that can be created, [merge] completes and
    writes its file although the codec refuses the entry [d] of the source
    at position [i] at the start-time [t] (once its empty lines are
    removed): the block of that entry holds its sequence number (after the
    mark of [_insert_bom] in block 1, after a line break in the others), a
    line break and the fixed message of [_encode] in place of the timecode
    line and the text. *)
Theorem merge_replaces_unencodable_text (P : platform) (fs : files)
    (self : Merger) (t : Z) (i : nat) (d : string) (err : exn) :
  encodes_counts P (output_encoding self) ->
  creatable P (get_output_path self) = true ->
  t ∈ timestamps self ->
  entry_at (subtitles self) t i = Some d ->
  str_encode P (replace d sep_lflf "" None) (output_encoding self)
  = Raise err ->
  exists bl ls self' e n num head,
    merge P fs self
    = (Ok None, self', <[resolve P (get_output_path self) := concat ls]> fs)
    /\ lines self' = ls
    /\ trim_last (e_dialog <$> bl) = Ok ls
    /\ e ∈ bl
    /\ block_key e = (t, i, d)
    /\ str_encode P nl (output_encoding self) = Ok n
    /\ str_encode P (str (e_count e)) (output_encoding self) = Ok num
    /\ (if (e_count e =? 1)%nat
        then _insert_bom P num (output_encoding self) = Ok head
        else head = n ++ num)
    /\ e_dialog e = head ++ n ++ ascii_bytes encode_failed.
Proof.
  intros Henc Hpath Ht Hentry Herr.
  assert ((t, i, d) ∈ schedule (subtitles self) (sorted_set (timestamps self)))
    as Hin.
  { apply elem_of_schedule. exists i, d. cbn [fst snd].
    split_and!; [done|by apply elem_of_sorted_set| |done].
    unfold entry_at in Hentry.
    destruct (subtitles self !! i) as [sub|] eqn:Hi; [|done].
    by eapply lookup_lt_Some. }
  destruct (merge_writes_blocks P fs self Henc) as
    (bl & ls & self' & Hmerge & Hlines & Htrim & Hkeys & _ & Hbytes);
    [|done|].
  { intros Hnil. rewrite Hnil in Hin. by apply elem_of_nil in Hin. }
  rewrite <- Hkeys in Hin.
  apply list_elem_of_fmap in Hin as (e & Hkey & He).
  rewrite Forall_forall in Hbytes.
  destruct (Hbytes e He) as (n & num & Hn & Hnum & head & Hhead & Hdialog).
  exists bl, ls, self', e, n, num, head.
  split_and!; [done..|].
  rewrite Hdialog. unfold _encode.
  assert (e_entry e = d) as -> by (unfold block_key in Hkey; congruence).
  by rewrite Herr.
Qed.

Lemma merge_replaces_unencodable_text_witness :
  (encodes_counts cpython (output_encoding latin_source)
   /\ creatable cpython (get_output_path latin_source) = true
   /\ key_5s ∈ timestamps latin_source
   /\ entry_at (subtitles latin_source) key_5s 0
      = Some (at_5s_a +:+ nl +:+ font_color "#FFFFFF" latin_text +:+ nl)
   /\ str_encode cpython
        (replace (at_5s_a +:+ nl +:+ font_color "#FFFFFF" latin_text +:+ nl)
           sep_lflf "" None)
        (output_encoding latin_source)
      = Raise UnicodeEncodeError)
  /\ exists bl ls self' e n num head,
       merge cpython latin_disk latin_source
       = (Ok None, self',
          <[resolve cpython (get_output_path latin_source) := concat ls]>
            latin_disk)
       /\ lines self' = ls
       /\ trim_last (e_dialog <$> bl) = Ok ls
       /\ e ∈ bl
       /\ block_key e
          = (key_5s, 0%nat,
             at_5s_a +:+ nl +:+ font_color "#FFFFFF" latin_text +:+ nl)
       /\ str_encode cpython nl (output_encoding latin_source) = Ok n
       /\ str_encode cpython (str (e_count e)) (output_encoding latin_source)
          = Ok num
       /\ (if (e_count e =? 1)%nat
           then _insert_bom cpython num (output_encoding latin_source)
                = Ok head
           else head = n ++ num)
       /\ e_dialog e = head ++ n ++ ascii_bytes encode_failed.
Proof.
  assert (encodes_counts cpython (output_encoding latin_source)) as H1
    by exact encodes_counts_ascii.
  assert (creatable cpython (get_output_path latin_source) = true) as H2
    by reflexivity.
  assert (key_5s ∈ timestamps latin_source) as H3 by (vm_compute; left).
  assert (entry_at (subtitles latin_source) key_5s 0
          = Some (at_5s_a +:+ nl +:+ font_color "#FFFFFF" latin_text +:+ nl))
    as H4 by (vm_compute; reflexivity).
  assert (str_encode cpython
            (replace
               (at_5s_a +:+ nl +:+ font_color "#FFFFFF" latin_text +:+ nl)
               sep_lflf "" None)
            (output_encoding latin_source)
          = Raise UnicodeEncodeError) as H5 by (vm_compute; reflexivity).
  split; [split; [exact H1|split; [exact H2|split; [exact H3|split;
    [exact H4|exact H5]]]]|].
  exact (merge_replaces_unencodable_text cpython latin_disk latin_source
           key_5s 0 _ UnicodeEncodeError H1 H2 H3 H4 H5).
Defined.

(** On that session the file holds the number 1, a line break and the
    message, and neither the timecode line nor the text. *)
Lemma merge_latin_source_writes_message :
  text_of (merge cpython latin_disk latin_source).2 "./out.srt"
  = Some ("1" +:+ nl +:+ encode_failed).
Proof. vm_compute. reflexivity. Qed.


(** ** [add] on a file with CR LF line ends *)

Lemma prefix_app_long (p s more : string) :
  (String.length p <= String.length s)%nat ->
  String.prefix p (s +:+ more) = String.prefix p s.
Proof.
  revert s. induction p as [|x p IH]; intros s Hlen.
  - destruct s; [by destruct more|done].
  - destruct s as [|y s]; [cbn in Hlen; lia|].
    change (String y s +:+ more) with (String y (s +:+ more)).
    cbn [String.prefix]. destruct (ascii_dec x y); [|done].
    apply IH. cbn in Hlen. lia.
Qed.

Lemma no_sep_in_head (c : ascii) (r more : string) :
  no_sep_in (String c r) crlf = true ->
  String.prefix sep_crlfcr (String c r +:+ crlf +:+ more) = false
  /\ String.prefix sep_lflf (String c r +:+ crlf +:+ more) = false
  /\ no_sep_in r crlf = true.
Proof.
  cbn [no_sep_in]. intros [[H1 H2]%andb_prop H3]%andb_prop.
  apply negb_true_iff in H1, H2.
  assert (forall p, (String.length p <= 3)%nat ->
            String.prefix p (String c r +:+ crlf +:+ more)
            = String.prefix p (String c r +:+ crlf)) as Hlong.
  { intros p Hp. rewrite <- append_assoc. apply prefix_app_long.
    rewrite length_append. cbn. lia. }
  rewrite !Hlong by (cbn; lia). done.
Qed.

Lemma re_split_blank_piece_crlf (a rest : string) :
  no_sep_in a crlf = true ->
  re_split_blank O (a +:+ crlf +:+ crlf +:+ rest)
  = a :: re_split_blank O (nl +:+ rest).
Proof.
  induction a as [|c a IH]; intros Ha.
  - change ("" +:+ crlf +:+ crlf +:+ rest)
      with (sep_crlfcr +:+ nl +:+ rest).
    pose proof (prefix_append sep_crlfcr (nl +:+ rest)) as Hp.
    change (sep_crlfcr +:+ nl +:+ rest)
      with (String CR (String LF (String CR (nl +:+ rest)))) in Hp |- *.
    cbn [re_split_blank]. by rewrite Hp.
  - destruct (no_sep_in_head c a (crlf +:+ rest) Ha) as (H1 & H2 & H3).
    change (String c a +:+ crlf +:+ crlf +:+ rest)
      with (String c (a +:+ crlf +:+ crlf +:+ rest)) in H1, H2 |- *.
    cbn [re_split_blank]. rewrite H1, H2. by rewrite IH.
Qed.

Lemma re_split_blank_last_crlf (a : string) :
  no_sep_in a crlf = true -> re_split_blank O (a +:+ crlf) = [a +:+ crlf].
Proof.
  induction a as [|c a IH]; intros Ha; [done|].
  destruct (no_sep_in_head c a "" Ha) as (H1 & H2 & H3).
  change (crlf +:+ "") with crlf in H1, H2.
  change (String c a +:+ crlf) with (String c (a +:+ crlf)) in H1, H2 |- *.
  cbn [re_split_blank]. rewrite H1, H2. by rewrite IH.
Qed.

Lemma re_split_blank_lead (c : ascii) (s : string) :
  Ascii.eqb c LF = false ->
  re_split_blank O (nl +:+ String c s)
  = match re_split_blank O (String c s) with
    | h :: t => (nl +:+ h) :: t
    | [] => [nl]
    end.
Proof.
  intros Hc. change (nl +:+ String c s) with (String LF (String c s)).
  cbn [re_split_blank].
  rewrite prefix_crlfcr_ne by done. rewrite prefix_lflf_second by done.
  by destruct (re_split_blank O (String c s)).
Qed.

(** What [cue_key_crlf] asks of a cue. *)
Lemma cue_key_crlf_usual (q : cue_src) (key : Z) :
  cue_key_crlf q = Some key ->
  (exists c n, c_seq q = String c n /\ isspace c = false
               /\ contains_chr LF (String c (n +:+ String CR "")) = false)
  /\ contains_chr LF (c_time q +:+ String CR "") = false
  /\ no_sep_in (cue_block_crlf q) crlf = true
  /\ strptime_key (strip (before "-->" (c_time q +:+ String CR "")))
     = Some key
  /\ c_body q <> "".
Proof.
  unfold cue_key_crlf.
  destruct (_ && _) eqn:Hq; [|done]. intros Hkey.
  repeat apply andb_prop in Hq as [Hq ?].
  repeat match goal with
         | H : negb _ = true |- _ => apply negb_true_iff in H
         end.
  split_and!; try done.
  - destruct (c_seq q) as [|c n] eqn:Hseq; [done|].
    exists c, n. split_and!; [done|by apply negb_true_iff in Hq|].
    change (String c (n +:+ String CR "")) with (String c n +:+ String CR "").
    rewrite contains_chr_app. by rewrite H2.
  - rewrite contains_chr_app. by rewrite H1.
  - intros Hbody. by rewrite Hbody in H0.
Qed.

Lemma re_split_blank_srt_text_crlf (cues : list cue_src) :
  Forall (fun q => is_Some (cue_key_crlf q)) cues ->
  re_split_blank O (srt_text_crlf cues) = srt_blocks_crlf "" cues
  /\ (cues <> [] ->
      re_split_blank O (nl +:+ srt_text_crlf cues) = srt_blocks_crlf nl cues).
Proof.
  induction 1 as [|q rest [key Hq] _ [IH1 IH2]]; [done|].
  apply cue_key_crlf_usual in Hq as ((c & n & Hseq & Hc & _) & _ & Hsep & _).
  assert (exists s, cue_block_crlf q = String c s) as [s Hblock].
  { unfold cue_block_crlf, block_of. rewrite Hseq. by eexists. }
  assert (Ascii.eqb c LF = false) as Hlf.
  { apply Ascii.eqb_neq. intros ->. done. }
  destruct rest as [|q' rest].
  - cbn [srt_text_crlf srt_blocks_crlf].
    pose proof (re_split_blank_last_crlf _ Hsep) as Hlast.
    split; [done|]. intros _. revert Hlast. rewrite Hblock.
    change (String c s +:+ crlf) with (String c (s +:+ crlf)).
    intros Hlast. by rewrite re_split_blank_lead, Hlast.
  - change (srt_text_crlf (q :: q' :: rest))
      with (cue_block_crlf q +:+ crlf +:+ crlf +:+ srt_text_crlf (q' :: rest)).
    change (srt_blocks_crlf "" (q :: q' :: rest))
      with (cue_block_crlf q :: srt_blocks_crlf nl (q' :: rest)).
    change (srt_blocks_crlf nl (q :: q' :: rest))
      with ((nl +:+ cue_block_crlf q) :: srt_blocks_crlf nl (q' :: rest)).
    pose proof (re_split_blank_piece_crlf _ (srt_text_crlf (q' :: rest)) Hsep)
      as Hpiece.
    rewrite IH2 in Hpiece by done.
    split; [done|]. intros _. revert Hpiece. rewrite Hblock.
    change (String c s +:+ crlf +:+ crlf +:+ srt_text_crlf (q' :: rest))
      with (String c (s +:+ crlf +:+ crlf +:+ srt_text_crlf (q' :: rest))).
    intros Hpiece. by rewrite re_split_blank_lead, Hpiece.
Qed.

(** The LF left at the start of a piece is dropped before the block is
    read. *)
Lemma read_cue_lead (d : string) color size top :
  String.prefix crlf d = false -> String.prefix nl d = false ->
  read_cue (nl +:+ d) color size top = read_cue d color size top.
Proof.
  intros Hcrlf Hnl. unfold read_cue, startswith.
  change (nl +:+ d) with (String LF d).
  assert (String.prefix crlf (String LF d) = false) as H1
    by (by apply prefix_head_ne).
  assert (String.prefix nl (String LF d) = true) as H2
    by apply (prefix_append nl d).
  rewrite H1. cbv beta zeta iota. rewrite H2. cbn [drop].
  rewrite Hcrlf. cbv beta zeta iota. rewrite Hnl. cbv beta zeta iota.
  by rewrite !Hcrlf.
Qed.

Lemma rstrip_crlf (s : string) : rstrip (s +:+ crlf) = rstrip s.
Proof.
  induction s as [|a s IH]; [done|].
  change (String a s +:+ crlf) with (String a (s +:+ crlf)).
  cbn [rstrip]. by rewrite IH.
Qed.

Lemma read_cue_cue_crlf (q : cue_src) (key : Z) color size top
    (lead : bool) (closing : bool) :
  cue_key_crlf q = Some key ->
  read_cue ((if lead then nl else "") +:+ cue_block_crlf q
            +:+ (if closing then crlf else "")) color size top
  = Cue (c_time q +:+ String CR "") key
      (apply_style (rstrip (c_body q)) color size top).
Proof.
  intros Hq.
  apply cue_key_crlf_usual in Hq
    as ((c & n & Hseq & Hc & Hn) & Htime & _ & Hkey & Hbody).
  assert (forall body, body <> "" -> rstrip (body +:+ nl) = rstrip (c_body q) ->
    read_cue (block_of (c_seq q +:+ String CR "") (c_time q +:+ String CR "")
                body) color size top
    = Cue (c_time q +:+ String CR "") key
        (apply_style (rstrip (c_body q)) color size top)) as Hread.
  { intros body Hne Hstrip. rewrite Hseq.
    change (String c n +:+ String CR "") with (String c (n +:+ String CR "")).
    rewrite (read_cue_usual c _ _ _ Hc Hn Htime _ _ _ key) by done.
    by rewrite Hstrip. }
  assert (forall body,
    String.prefix crlf
      (block_of (c_seq q +:+ String CR "") (c_time q +:+ String CR "") body)
    = false
    /\ String.prefix nl
         (block_of (c_seq q +:+ String CR "") (c_time q +:+ String CR "") body)
       = false) as Hhead.
  { intros body. rewrite Hseq.
    change (String c n +:+ String CR "") with (String c (n +:+ String CR "")).
    destruct (usual_block_not_blank c (n +:+ String CR "")
                (c_time q +:+ String CR "") body Hc Hn) as (H1 & H2 & _).
    done. }
  assert (cue_block_crlf q +:+ (if closing then crlf else "")
          = block_of (c_seq q +:+ String CR "") (c_time q +:+ String CR "")
              (c_body q +:+ (if closing then crlf else ""))) as Hblock.
  { unfold cue_block_crlf, block_of. by rewrite !append_assoc. }
  assert (read_cue (cue_block_crlf q +:+ (if closing then crlf else ""))
            color size top
          = Cue (c_time q +:+ String CR "") key
              (apply_style (rstrip (c_body q)) color size top)) as Hplain.
  { rewrite Hblock. apply Hread.
    - by destruct (c_body q).
    - rewrite rstrip_nl. destruct closing; [apply rstrip_crlf|].
      by rewrite append_nil_r. }
  destruct lead; [|done].
  rewrite read_cue_lead; [done|rewrite Hblock; apply Hhead..].
Qed.

Lemma _split_dialogs_srt_blocks_crlf (cues : list cue_src) (keys : list Z)
    (lead : bool) (m : gmap Z string) (ts : list Z) color size top :
  cue_key_crlf <$> cues = Some <$> keys ->
  NoDup keys ->
  (forall k, k ∈ keys -> m !! k = None) ->
  _split_dialogs (srt_blocks_crlf (if lead then nl else "") cues) (m, ts)
    color size top
  = (Ok tt,
     (list_to_map (zip keys (cue_entry_crlf color size top <$> cues)) ∪ m,
      ts ++ keys)).
Proof.
  revert keys lead m ts.
  induction cues as [|q rest IH]; intros keys lead m ts Hk Hnd Hm.
  { destruct keys; [|done].
    rewrite app_nil_r. cbn [fmap list_fmap zip zip_with list_to_map foldr].
    rewrite (left_id_L ∅ (∪)). apply _split_dialogs_skipped.
    constructor; [|constructor]. by destruct lead. }
  destruct keys as [|key keys]; [done|].
  injection Hk as Hq Hrest.
  apply NoDup_cons in Hnd as [Hnotin Hnd].
  assert (stored_entry m (c_time q +:+ String CR "") key
            (apply_style (rstrip (c_body q)) color size top)
          = Some (cue_entry_crlf color size top q)) as Hstore.
  { unfold stored_entry. rewrite Hm; [done|]. by left. }
  assert ((list_to_map (zip keys (cue_entry_crlf color size top <$> rest))
           : gmap Z string) !! key = None) as Hfresh.
  { apply not_elem_of_list_to_map_1. intros Hin. apply Hnotin.
    apply list_elem_of_fmap in Hin as ([k v] & -> & Hin%elem_of_zip_l). done. }
  destruct rest as [|q' rest].
  - destruct keys; [|done].
    cbn [srt_blocks_crlf _split_dialogs].
    rewrite (read_cue_cue_crlf q key color size top lead true Hq).
    cbn [fst snd]. rewrite Hstore.
    cbn [fmap list_fmap zip zip_with list_to_map foldr].
    rewrite insert_empty.
    rewrite <- insert_union_singleton_l. done.
  - change (srt_blocks_crlf (if lead then nl else "") (q :: q' :: rest))
      with (((if lead then nl else "") +:+ cue_block_crlf q)
            :: srt_blocks_crlf nl (q' :: rest)).
    cbn [_split_dialogs].
    pose proof (read_cue_cue_crlf q key color size top lead false Hq) as Hcue.
    rewrite append_nil_r in Hcue. rewrite Hcue.
    cbn [fst snd]. rewrite Hstore.
    rewrite (IH keys true); [|done|done|].
    + f_equal. f_equal.
      * cbn [fmap list_fmap zip zip_with list_to_map foldr].
        change (foldr _ _ _)
          with (list_to_map
                  (zip keys (cue_entry_crlf color size top <$> (q' :: rest)))
                : gmap Z string).
        rewrite <- insert_union_r by done.
        by rewrite insert_union_l.
      * by rewrite <- app_assoc.
    + intros k Hin. rewrite lookup_insert_ne; [apply Hm; by right|].
      intros <-. done.
Qed.

(** X20.  [add] reads files with CR LF line ends too.  For a file of cues
    of the usual form whose lines end with CR LF, with one empty line
    between cues and pairwise different start-times, [add] returns,
    appends the start-times in file order and appends one source that
    holds an entry for every cue; the timecode line of an entry keeps its
    CR, the body loses its trailing white space. *)
Theorem add_reads_every_cue_crlf (P : platform) (fs : files) (self : Merger)
    (address codec : string) (color : option string) (size : option Z)
    (top : bool) (raw : bytes) (cues : list cue_src) (keys : list Z) :
  fs !! resolve P address = Some raw ->
  bytes_decode P raw codec = Ok (srt_text_crlf cues) ->
  cue_key_crlf <$> cues = Some <$> keys ->
  NoDup keys ->
  exists self' sub,
    add P fs self address codec color size top = (Ok tt, self')
    /\ timestamps self' = timestamps self ++ keys
    /\ subtitles self' = subtitles self ++ [sub]
    /\ sub_dialogs sub
       = list_to_map (zip keys (cue_entry_crlf color size top <$> cues)).
Proof.
  intros Hfile Hdata Hkeys Hnd. unfold add. rewrite Hfile, Hdata.
  assert (Forall (fun q => is_Some (cue_key_crlf q)) cues) as Hall.
  { apply Forall_forall. intros q Hq.
    apply (list_elem_of_fmap_2 cue_key_crlf) in Hq. rewrite Hkeys in Hq.
    apply list_elem_of_fmap in Hq as (k & -> & _). done. }
  destruct (re_split_blank_srt_text_crlf cues Hall) as [-> _].
  rewrite (_split_dialogs_srt_blocks_crlf cues keys false) by done.
  eexists _, _. split; [done|]. cbn.
  by rewrite (right_id_L ∅ (∪)).
Qed.

Lemma add_reads_every_cue_crlf_witness :
  (crlf_disk !! resolve cpython "fr_crlf.srt" = Some (file_of (srt_text_crlf fr_cues))
   /\ bytes_decode cpython (file_of (srt_text_crlf fr_cues)) "utf-8"
      = Ok (srt_text_crlf fr_cues)
   /\ cue_key_crlf <$> fr_cues = Some <$> [key_5s; key_9s]
   /\ NoDup [key_5s; key_9s])
  /\ exists self' sub,
       add cpython crlf_disk init_default "fr_crlf.srt" "utf-8" default_color
         None false = (Ok tt, self')
       /\ timestamps self' = timestamps init_default ++ [key_5s; key_9s]
       /\ subtitles self' = subtitles init_default ++ [sub]
       /\ sub_dialogs sub
          = list_to_map
              (zip [key_5s; key_9s]
                 (cue_entry_crlf default_color None false <$> fr_cues)).
Proof.
  assert (crlf_disk !! resolve cpython "fr_crlf.srt" = Some (file_of (srt_text_crlf fr_cues)))
    as H1 by (vm_compute; reflexivity).
  assert (bytes_decode cpython (file_of (srt_text_crlf fr_cues)) "utf-8"
          = Ok (srt_text_crlf fr_cues)) as H2 by (vm_compute; reflexivity).
  assert (cue_key_crlf <$> fr_cues = Some <$> [key_5s; key_9s]) as H3
    by (vm_compute; reflexivity).
  assert (NoDup [key_5s; key_9s]) as H4
    by (apply (bool_decide_unpack _); vm_compute; exact I).
  split; [split; [exact H1|split; [exact H2|split; [exact H3|exact H4]]]|].
  exact (add_reads_every_cue_crlf cpython crlf_disk init_default "fr_crlf.srt"
           "utf-8" default_color None false (file_of (srt_text_crlf fr_cues))
           fr_cues [key_5s; key_9s] H1 H2 H3 H4).
Defined.
